(** * Upper-body skeleton reconstruction: a shallow embedding and its properties

    The development follows the two batch scripts of the repository,
    [calc_body.py] and [calculate_and_join_skeleton_data.py], and the
    data helpers of [skeleton_viewer.py], which reads the file that
    [calc_body.py] writes.

    Numbers.  Coordinates, lengths and angles are binary64 values in the
    scripts; they are embedded as real numbers, so every statement about
    a value is a statement in exact arithmetic.  A NaN produced by a zero
    denominator is represented only where the scripts can observe it (the
    angle computation and the cells of a table, type [npfloat]); every
    theorem about the value of a coordinate carries the hypothesis that
    keeps the relevant norm away from zero, while the theorems that
    compare two reconstructions or say which columns a frame has hold
    of the embedding as it is.
    Timestamps are only compared, hashed and sorted, never computed with:
    they are embedded as canonical rationals [Qc], which have decidable
    order and Leibniz equality and contain every finite binary64 value. *)

From Stdlib Require Import QArith Qcanon Lqa Reals Lra Lia Qreals.
From stdpp Require Import gmap strings list fin_maps sorting.

(** Equality of reals is decided classically ([Req_dec_T]). *)
#[global] Instance R_eq_dec : EqDecision R := Req_dec_T.

(** ** Three-dimensional vectors (numpy arrays of shape (3,)) *)

Module Vec.
Local Open Scope R_scope.

Record vec3 : Type := mk3 { vx : R; vy : R; vz : R }.

Definition vadd (a b : vec3) : vec3 := mk3 (vx a + vx b) (vy a + vy b) (vz a + vz b).
Definition vsub (a b : vec3) : vec3 := mk3 (vx a - vx b) (vy a - vy b) (vz a - vz b).
Definition vneg (a : vec3) : vec3 := mk3 (- vx a) (- vy a) (- vz a).
(** [a * k] and [a / k] for a scalar [k]. *)
Definition vscale (a : vec3) (k : R) : vec3 := mk3 (vx a * k) (vy a * k) (vz a * k).
Definition vdiv (a : vec3) (k : R) : vec3 := mk3 (vx a / k) (vy a / k) (vz a / k).
(** [np.dot] and [np.linalg.norm]. *)
Definition dot (a b : vec3) : R := vx a * vx b + vy a * vy b + vz a * vz b.
Definition norm (a : vec3) : R := sqrt (dot a a).
End Vec.
Export Vec.

(** A Python value that is either [None] or a 3-vector. *)
Abbreviation pyvec := (option vec3).

(** ** AnthropometricModel (identical in both scripts) *)

Record AnthropometricModel : Type := mkModel {
  height : R;
  neck_length : R;
  shoulder_width : R;
  upper_arm_length : R;
  forearm_length : R;
  spine_length : R;
  upper_spine_length : R;
  mid_spine_length : R;
  lower_spine_length : R
}.

Definition AnthropometricModel_init (height_m : R) : AnthropometricModel :=
  {| height := height_m;
     neck_length := (5 / 100 * height_m)%R;
     shoulder_width := (25 / 100 * height_m)%R;
     upper_arm_length := (18 / 100 * height_m)%R;
     forearm_length := (16 / 100 * height_m)%R;
     spine_length := (30 / 100 * height_m)%R;
     upper_spine_length := (10 / 100 * height_m)%R;
     mid_spine_length := (10 / 100 * height_m)%R;
     lower_spine_length := (10 / 100 * height_m)%R |}.

(** Quaternions in the scripts' component order [qx, qy, qz, qw]. *)
Record quat : Type := mkQuat { qx : R; qy : R; qz : R; qw : R }.

Definition quat_norm2 (q : quat) : R :=
  (qx q * qx q + qy q * qy q + qz q * qz q + qw q * qw q)%R.

(** A 3x3 matrix, kept as its three columns ([rot_matrix[:, i]]). *)
Record mat3 : Type := mkMat { col0 : vec3; col1 : vec3; col2 : vec3 }.

(** ** calc_body.py: joint estimation *)

Module CalcBody.
Local Open Scope R_scope.

Definition quaternion_to_rotation_matrix (q : quat) : mat3 :=
  let '(x, y, z, w) := (qx q, qy q, qz q, qw q) in
  {| col0 := mk3 (1 - 2 * (y ^ 2 + z ^ 2)) (2 * (x * y + z * w)) (2 * (x * z - y * w));
     col1 := mk3 (2 * (x * y - z * w)) (1 - 2 * (x ^ 2 + z ^ 2)) (2 * (y * z + x * w));
     col2 := mk3 (2 * (x * z + y * w)) (2 * (y * z - x * w)) (1 - 2 * (x ^ 2 + y ^ 2)) |}.

Definition get_down_vector (head_quaternion : quat) : vec3 :=
  let rot_matrix := quaternion_to_rotation_matrix head_quaternion in
  let down_vector := vneg (col1 rot_matrix) in
  vdiv down_vector (norm down_vector).

Definition estimate_neck_position (head_pos : vec3) (head_quat : quat)
    (body_model : AnthropometricModel) : vec3 :=
  let down_vector := get_down_vector head_quat in
  vadd head_pos (vscale down_vector (neck_length body_model)).

Definition estimate_spine_positions (neck_pos : vec3) (head_quat : quat)
    (body_model : AnthropometricModel) : vec3 * vec3 * vec3 :=
  let down_vector := get_down_vector head_quat in
  let upper_spine := vadd neck_pos (vscale down_vector (upper_spine_length body_model)) in
  let mid_spine := vadd upper_spine (vscale down_vector (mid_spine_length body_model)) in
  let lower_spine := vadd mid_spine (vscale down_vector (lower_spine_length body_model)) in
  (upper_spine, mid_spine, lower_spine).

Definition estimate_shoulder_positions (upper_spine_pos : vec3) (head_quat : quat)
    (body_model : AnthropometricModel) : vec3 * vec3 :=
  let rot_matrix := quaternion_to_rotation_matrix head_quat in
  let right_vector := col0 rot_matrix in
  let right_vector := vdiv right_vector (norm right_vector) in
  let left_shoulder := vsub upper_spine_pos (vscale right_vector (shoulder_width body_model / 2)) in
  let right_shoulder := vadd upper_spine_pos (vscale right_vector (shoulder_width body_model / 2)) in
  (left_shoulder, right_shoulder).

(** The literal [1e-6]. *)
Definition eps : R := 1 / 1000000.

Definition estimate_elbow_position (shoulder_pos : vec3) (forearm_pos wrist_pos : pyvec)
    (upper_arm_length : R) : pyvec :=
  match forearm_pos, wrist_pos with
  | Some forearm, Some _ =>
      let shoulder_to_forearm := vsub forearm shoulder_pos in
      let distance_to_forearm := norm shoulder_to_forearm in
      if Rlt_dec distance_to_forearm eps then
        Some (vadd shoulder_pos (mk3 0 0 upper_arm_length))
      else
        let direction := vdiv shoulder_to_forearm distance_to_forearm in
        Some (vadd shoulder_pos (vscale direction upper_arm_length))
  | _, _ => None
  end.

(** [UpperBodySkeleton]: every attribute starts as [None]. *)
Record UpperBodySkeleton : Type := mkSkeleton {
  head : pyvec;
  neck : pyvec;
  upper_spine : pyvec;
  mid_spine : pyvec;
  lower_spine : pyvec;
  left_shoulder : pyvec;
  right_shoulder : pyvec;
  left_elbow : pyvec;
  right_elbow : pyvec;
  left_wrist : pyvec;
  right_wrist : pyvec
}.

Definition reconstruct_skeleton (head_pos : vec3) (head_quat : quat)
    (left_wrist right_wrist left_forearm right_forearm : pyvec)
    (body_model : AnthropometricModel) : UpperBodySkeleton :=
  let neck := estimate_neck_position head_pos head_quat body_model in
  let '(upper, mid, lower) := estimate_spine_positions neck head_quat body_model in
  let '(left_shoulder, right_shoulder) :=
    estimate_shoulder_positions upper head_quat body_model in
  {| head := Some head_pos;
     left_wrist := left_wrist;
     right_wrist := right_wrist;
     neck := Some neck;
     upper_spine := Some upper;
     mid_spine := Some mid;
     lower_spine := Some lower;
     left_shoulder := Some left_shoulder;
     right_shoulder := Some right_shoulder;
     left_elbow :=
       estimate_elbow_position left_shoulder left_forearm left_wrist
         (upper_arm_length body_model);
     right_elbow :=
       estimate_elbow_position right_shoulder right_forearm right_wrist
         (upper_arm_length body_model) |}.
End CalcBody.

(** ** Python values and exceptions *)

(** The exceptions the modelled calls can raise. *)
Inductive exn : Type := TypeError | ValueError | KeyError.

(** A call either returns a value or raises. *)
Inductive result (A : Type) : Type :=
| Ok (a : A)
| Raise (e : exn).
Arguments Ok {A} a.
Arguments Raise {A} e.

(** Sequencing: the first exception raised leaves the computation
    (stdpp's notation [x ← c; k]). *)
#[global] Instance result_bind : MBind result := fun A B k c =>
  match c with Ok a => k a | Raise e => Raise e end.
#[global] Instance result_ret : MRet result := fun A a => Ok a.

(** A float as the angle computation can return it: a real, or the NaN
    that [0.0 / 0.0] yields (numpy warns and carries on, it does not
    raise). *)
Inductive npfloat : Type := Finite (r : R) | NaN.

(** [np.clip(x, lo, hi)] and [np.degrees] on reals. *)
Definition np_clip (x lo hi : R) : R := Rmin (Rmax x lo) hi.
Definition np_degrees (x : R) : R := (x * 180 / PI)%R.

(** ** calculate_and_join_skeleton_data.py *)

Module CalcJoin.
Local Open Scope R_scope.

(** *** SkeletonCalculator *)

Definition quaternion_to_rotation_matrix (q : quat) : mat3 :=
  let '(x, y, z, w) := (qx q, qy q, qz q, qw q) in
  {| col0 := mk3 (1 - 2 * (y ^ 2 + z ^ 2)) (2 * (x * y + z * w)) (2 * (x * z - y * w));
     col1 := mk3 (2 * (x * y - z * w)) (1 - 2 * (x ^ 2 + z ^ 2)) (2 * (y * z + x * w));
     col2 := mk3 (2 * (x * z + y * w)) (2 * (y * z - x * w)) (1 - 2 * (x ^ 2 + y ^ 2)) |}.

Definition get_down_vector (head_quaternion : quat) : vec3 :=
  let rot_matrix := quaternion_to_rotation_matrix head_quaternion in
  let down_vector := vneg (col1 rot_matrix) in
  vdiv down_vector (norm down_vector).

Definition estimate_neck_position (body_model : AnthropometricModel)
    (head_pos : vec3) (head_quat : quat) : vec3 :=
  let down_vector := get_down_vector head_quat in
  vadd head_pos (vscale down_vector (neck_length body_model)).

Definition estimate_spine_positions (body_model : AnthropometricModel)
    (neck_pos : vec3) (head_quat : quat) : vec3 * vec3 * vec3 :=
  let down_vector := get_down_vector head_quat in
  let upper_spine := vadd neck_pos (vscale down_vector (upper_spine_length body_model)) in
  let mid_spine := vadd upper_spine (vscale down_vector (mid_spine_length body_model)) in
  let lower_spine := vadd mid_spine (vscale down_vector (lower_spine_length body_model)) in
  (upper_spine, mid_spine, lower_spine).

Definition estimate_shoulder_positions (body_model : AnthropometricModel)
    (upper_spine_pos : vec3) (head_quat : quat) : vec3 * vec3 :=
  let rot_matrix := quaternion_to_rotation_matrix head_quat in
  let right_vector := col0 rot_matrix in
  let right_vector := vdiv right_vector (norm right_vector) in
  let left_shoulder := vsub upper_spine_pos (vscale right_vector (shoulder_width body_model / 2)) in
  let right_shoulder := vadd upper_spine_pos (vscale right_vector (shoulder_width body_model / 2)) in
  (left_shoulder, right_shoulder).

(** This script's elbow estimate has neither the [None] test nor the
    [1e-6] branch of [CalcBody.estimate_elbow_position]. *)
Definition estimate_elbow_position (body_model : AnthropometricModel)
    (shoulder_pos forearm_pos wrist_pos : vec3) : vec3 :=
  let shoulder_to_forearm := vsub forearm_pos shoulder_pos in
  let distance_to_forearm := norm shoulder_to_forearm in
  let direction := vdiv shoulder_to_forearm distance_to_forearm in
  vadd shoulder_pos (vscale direction (upper_arm_length body_model)).

(** The [joints] dictionary.  Its values are 3-vectors here (the caller
    passes rows of numpy arrays); the type of the values leaves room for
    [None], which [calculate_skeleton_angles] can meet in a dictionary
    such as the one [UpperBodySkeleton.get_all_joints] builds. *)
Definition reconstruct_skeleton (body_model : AnthropometricModel)
    (head_pos : vec3) (head_quat : quat)
    (left_wrist right_wrist left_forearm right_forearm : vec3) : gmap string pyvec :=
  let joints : gmap string pyvec := ∅ in
  let joints := <["head" := Some head_pos]> joints in
  let joints := <["left_wrist" := Some left_wrist]> joints in
  let joints := <["right_wrist" := Some right_wrist]> joints in
  let joints := <["left_forearm" := Some left_forearm]> joints in
  let joints := <["right_forearm" := Some right_forearm]> joints in
  let neck := estimate_neck_position body_model head_pos head_quat in
  let joints := <["neck" := Some neck]> joints in
  let '(upper, mid, lower) := estimate_spine_positions body_model neck head_quat in
  let joints := <["upper_spine" := Some upper]> joints in
  let joints := <["mid_spine" := Some mid]> joints in
  let joints := <["lower_spine" := Some lower]> joints in
  let '(left_shoulder, right_shoulder) :=
    estimate_shoulder_positions body_model upper head_quat in
  let joints := <["left_shoulder" := Some left_shoulder]> joints in
  let joints := <["right_shoulder" := Some right_shoulder]> joints in
  let joints :=
    <["left_elbow" :=
        Some (estimate_elbow_position body_model left_shoulder left_forearm left_wrist)]>
      joints in
  let joints :=
    <["right_elbow" :=
        Some (estimate_elbow_position body_model right_shoulder right_forearm right_wrist)]>
      joints in
  joints.

(** *** AngleCalculator *)

(** The arithmetic of [calculate_angle_3_points] on three arrays.  When
    one of the two vectors has length zero the quotient is [0.0 / 0.0]:
    NaN goes through [np.clip], [np.arccos] and [np.degrees]. *)
Definition angle_of_arrays (p1 p2 p3 : vec3) : npfloat :=
  let v1 := vsub p1 p2 in
  let v2 := vsub p3 p2 in
  let den := norm v1 * norm v2 in
  if Req_dec_T den 0 then NaN
  else
    let cos_angle := dot v1 v2 / den in
    let cos_angle := np_clip cos_angle (-1) 1 in
    let angle_rad := acos cos_angle in
    Finite (np_degrees angle_rad).

(** [p1 - p2] and [p3 - p2] raise [TypeError] when an operand is [None]. *)
Definition calculate_angle_3_points (p1 p2 p3 : pyvec) : result npfloat :=
  match p1, p2, p3 with
  | Some a, Some b, Some c => Ok (angle_of_arrays a b c)
  | _, _, _ => Raise TypeError
  end.

(** One statement of the [try] block:
    [if all(k in joints for k in [k1, k2, k3]): angles[name] = ...]. *)
Definition angle_stmt (joints : gmap string pyvec) (name k1 k2 k3 : string)
    (angles : gmap string npfloat) : result (gmap string npfloat) :=
  match joints !! k1, joints !! k2, joints !! k3 with
  | Some p1, Some p2, Some p3 =>
      a ← calculate_angle_3_points p1 p2 p3;
      Ok (<[name := a]> angles)
  | _, _, _ => Ok angles
  end.

(** [try: stmt; rest  except Exception: print(...)] followed by
    [return angles]: an exception raised by [stmt] skips [rest], and the
    dictionary is returned as it was when the exception was raised. *)
Definition try_then (angles : gmap string npfloat)
    (stmt : gmap string npfloat -> result (gmap string npfloat))
    (rest : gmap string npfloat -> gmap string npfloat) : gmap string npfloat :=
  match stmt angles with
  | Ok angles' => rest angles'
  | Raise _ => angles
  end.

Definition calculate_skeleton_angles (joints : gmap string pyvec) : gmap string npfloat :=
  let angles : gmap string npfloat := ∅ in
  try_then angles
    (angle_stmt joints "left_elbow_angle" "left_shoulder" "left_elbow" "left_wrist")
  (fun angles => try_then angles
    (angle_stmt joints "right_elbow_angle" "right_shoulder" "right_elbow" "right_wrist")
  (fun angles => try_then angles
    (angle_stmt joints "left_shoulder_angle" "upper_spine" "left_shoulder" "left_elbow")
  (fun angles => try_then angles
    (angle_stmt joints "right_shoulder_angle" "upper_spine" "right_shoulder" "right_elbow")
  (fun angles => try_then angles
    (angle_stmt joints "spine_bend_angle" "neck" "mid_spine" "lower_spine")
  (fun angles => angles))))).

End CalcJoin.

(** ** calc_body.py: resampling the head pose ([interpolate_head_data])

    The function itself only clips the query times and delegates to
    numpy and scipy.  The validation those library calls perform is
    modelled by the checks below, each raising [ValueError] as the
    library does; the numerical kernels (the fitted cubic spline and the
    spherical interpolation) are parameters of the section. *)

(** A row of [device_data]: [t_mono], [(x, y, z)], [(qx, qy, qz, qw)]. *)
Record DeviceRow : Type := mkDeviceRow {
  d_t_mono : Qc;
  d_position : vec3;
  d_orientation : quat
}.

Definition qc_min (a b : Qc) : Qc := if decide (a ≤ b)%Qc then a else b.
Definition qc_max (a b : Qc) : Qc := if decide (a ≤ b)%Qc then b else a.

(** [a.min()] and [a.max()]: a zero-size array raises [ValueError]. *)
Definition ndarray_min (a : list Qc) : result Qc :=
  match a with
  | [] => Raise ValueError
  | x :: rest => Ok (foldl qc_min x rest)
  end.

Definition ndarray_max (a : list Qc) : result Qc :=
  match a with
  | [] => Raise ValueError
  | x :: rest => Ok (foldl qc_max x rest)
  end.

(** [np.clip(a, a_min, a_max)], element by element
    ([minimum(a_max, maximum(a, a_min))]). *)
Definition np_clip_times (a : list Qc) (a_min a_max : Qc) : list Qc :=
  (fun t => qc_min a_max (qc_max t a_min)) <$> a.

(** [np.any(np.diff(times) <= 0)]; on exact numbers [y - x <= 0] is
    [y <= x]. *)
Fixpoint any_step_not_positive (times : list Qc) : bool :=
  match times with
  | x :: (y :: _) as rest => bool_decide (y ≤ x)%Qc || any_step_not_positive rest
  | _ => false
  end.

(** A [Slerp] object: the key times and key rotations it was built from. *)
Record SlerpObj : Type := mkSlerp {
  sl_times : list Qc;
  sl_rotations : list quat
}.

(** [q / |q|], the unit quaternion a [Rotation] stores. *)
Definition quat_normalize (q : quat) : quat :=
  let n := sqrt (quat_norm2 q) in
  mkQuat (qx q / n) (qy q / n) (qz q / n) (qw q / n).

(** The order [interp1d] sorts its points by ([argsort] on [x]). *)
Definition by_time (p q : Qc * R) : Prop := (p.1 ≤ q.1)%Qc.
#[global] Instance by_time_dec : RelDecision by_time := fun p q => decide (p.1 ≤ q.1)%Qc.

Section Resampler.
(** [cubic_spline pts t]: the cubic spline scipy fits through the points
    [pts] (sorted by time), evaluated at [t]. *)
Variable cubic_spline : list (Qc * R) -> Qc -> R.
(** [slerp keys t]: the spherical interpolation between the key
    rotations bracketing [t], as a quaternion ([as_quat]). *)
Variable slerp : list (Qc * quat) -> Qc -> quat.

(** [interp1d(x, y, kind='cubic', bounds_error=False,
    fill_value='extrapolate')]: [x] is sorted together with [y]; fewer
    than [order + 1 = 4] entries, or a repeated [x], raise [ValueError].
    The resulting function accepts every time. *)
Definition interp1d_cubic (x : list Qc) (y : list R) : result (Qc -> R) :=
  if decide (length x < 4)%nat then Raise ValueError
  else if decide (NoDup x) then
    Ok (cubic_spline (merge_sort by_time (zip x y)))
  else Raise ValueError.

(** [Rotation.from_quat]: a quaternion of norm zero raises [ValueError]. *)
Definition Rotation_from_quat (quats : list quat) : result (list quat) :=
  if decide (Forall (fun q => quat_norm2 q <> 0%R) quats)
  then Ok (quat_normalize <$> quats)
  else Raise ValueError.

(** [Slerp(times, rotations)]: fewer than two rotations, or times that
    are not strictly increasing, raise [ValueError]. *)
Definition Slerp (times : list Qc) (rotations : list quat) : result SlerpObj :=
  if decide (length rotations < 2)%nat then Raise ValueError
  else if any_step_not_positive times then Raise ValueError
  else Ok (mkSlerp times rotations).

(** [slerp_interp(times).as_quat()]: a time outside
    [[times[0], times[-1]]] raises [ValueError]. *)
Definition Slerp_call (s : SlerpObj) (times : list Qc) : result (list quat) :=
  match sl_times s with
  | [] => Raise ValueError
  | t0 :: rest =>
      let tn := List.last rest t0 in
      if decide (Forall (fun t => (t0 ≤ t)%Qc /\ (t ≤ tn)%Qc) times)
      then Ok (slerp (zip (sl_times s) (sl_rotations s)) <$> times)
      else Raise ValueError
  end.

Definition interpolate_head_data (device_data : list DeviceRow)
    (hand_timestamps : list Qc) : result (list vec3 * list quat) :=
  let head_positions_raw := d_position <$> device_data in
  let head_orientations_raw := d_orientation <$> device_data in
  let head_timestamps := d_t_mono <$> device_data in
  (* Clip hand timestamps to head range *)
  head_min_time ← ndarray_min head_timestamps;
  head_max_time ← ndarray_max head_timestamps;
  let hand_timestamps_clipped :=
    np_clip_times hand_timestamps head_min_time head_max_time in
  (* Interpolate positions, one axis at a time *)
  fx ← interp1d_cubic head_timestamps (vx <$> head_positions_raw);
  fy ← interp1d_cubic head_timestamps (vy <$> head_positions_raw);
  fz ← interp1d_cubic head_timestamps (vz <$> head_positions_raw);
  let head_positions := (fun t => mk3 (fx t) (fy t) (fz t)) <$> hand_timestamps_clipped in
  (* Interpolate orientations using SLERP *)
  rotations ← Rotation_from_quat head_orientations_raw;
  slerp_interp ← Slerp head_timestamps rotations;
  head_orientations ← Slerp_call slerp_interp hand_timestamps_clipped;
  Ok (head_positions, head_orientations).
End Resampler.

(** The nearest time of the range [[lo, hi]], in the words of the
    specification: the boundary for a time outside, the time itself
    inside. *)
Definition nearest_in_range (lo hi t : Qc) : Qc :=
  if decide (t < lo)%Qc then lo else if decide (hi < t)%Qc then hi else t.

(** The conditions under which the library calls accept a head stream. *)
Definition stream_accepted (device_data : list DeviceRow) : Prop :=
  (4 <= length device_data)%nat /\
  Sorted Qclt (d_t_mono <$> device_data) /\
  Forall (fun r => quat_norm2 (d_orientation r) <> 0%R) device_data.

(** ** calc_body.py: aligning the two hands ([load_and_organize_data])

    [hand_data] has one row per timestamp and hand.  A row is kept as its
    [t_mono], its [chirality] and the cells of all its other columns
    (the [t_wall] column among them), by column name.  The type of a cell
    is a parameter: the function only copies cells. *)

Section Aligner.
Context {Cell : Type}.

Record HandRow : Type := mkHandRow {
  h_t_mono : Qc;
  h_chirality : string;
  h_cells : list (string * Cell)
}.

(** A row of the organized table: the dictionary [row_data], with its
    ['t_mono'] entry kept apart from the copied cells. *)
Record OrganizedRow : Type := mkOrganizedRow {
  o_t_mono : Qc;
  o_cells : gmap string Cell
}.

(** [Series.unique()]: the distinct values in order of first appearance. *)
Fixpoint unique (l : list Qc) : list Qc :=
  match l with
  | [] => []
  | x :: rest => x :: filter (fun y => y <> x) (unique rest)
  end.

(** The loop filling [right_hand_dict] and [left_hand_dict]: a later row
    of the same hand and timestamp replaces an earlier one. *)
Definition hand_dicts (hand_data : list HandRow) : gmap Qc HandRow * gmap Qc HandRow :=
  foldl (fun '(right_hand_dict, left_hand_dict) row =>
           let t := h_t_mono row in
           if decide (h_chirality row = "right") then
             (<[t := row]> right_hand_dict, left_hand_dict)
           else if decide (h_chirality row = "left") then
             (right_hand_dict, <[t := row]> left_hand_dict)
           else (right_hand_dict, left_hand_dict))
        (∅, ∅) hand_data.

(** [for col in row.index: if col not in [...]: row_data[f'{col}{suffix}'] = row[col]]. *)
Definition add_hand (suffix : string) (row : HandRow) (row_data : gmap string Cell)
    : gmap string Cell :=
  foldl (fun row_data '(col, v) =>
           if decide (col ∈ ["t_mono"; "t_wall"; "chirality"]) then row_data
           else <[col +:+ suffix := v]> row_data)
        row_data (h_cells row).

Definition organize (right_hand_dict left_hand_dict : gmap Qc HandRow) (t : Qc)
    : OrganizedRow :=
  let row_data : gmap string Cell := ∅ in
  (* Add right hand data if available *)
  let row_data :=
    match right_hand_dict !! t with
    | Some right_row => add_hand "_right" right_row row_data
    | None => row_data
    end in
  (* Add left hand data if available *)
  let row_data :=
    match left_hand_dict !! t with
    | Some left_row => add_hand "_left" left_row row_data
    | None => row_data
    end in
  mkOrganizedRow t row_data.

(** [pd.DataFrame(organized_data)] has a column for each key of some row;
    selecting a column it does not have raises [KeyError]. *)
Definition has_column (organized_df : list OrganizedRow) (col : string) : bool :=
  existsb (fun r => bool_decide (is_Some (o_cells r !! col))) organized_df.

Definition select_columns (organized_df : list OrganizedRow) (cols : list string)
    : result unit :=
  if forallb (has_column organized_df) cols then Ok () else Raise KeyError.

(** The function, from [hand_data] on (the two [read_csv] calls and the
    returned [device_data] are left out).  The three summary lines at the
    end select the [forearmWrist_px] columns of both hands. *)
Definition load_and_organize_data (hand_data : list HandRow) : result (list OrganizedRow) :=
  (* Get all unique timestamps from hand data *)
  let all_timestamps := merge_sort Qcle (unique (h_t_mono <$> hand_data)) in
  (* Create lookup dictionaries for each hand *)
  let '(right_hand_dict, left_hand_dict) := hand_dicts hand_data in
  (* Build organized dataframe with ALL timestamps *)
  let organized_df := organize right_hand_dict left_hand_dict <$> all_timestamps in
  _ ← select_columns organized_df ["forearmWrist_px_right"; "forearmWrist_px_left"];
  _ ← select_columns organized_df ["forearmWrist_px_right"];
  _ ← select_columns organized_df ["forearmWrist_px_left"];
  _ ← select_columns organized_df ["forearmWrist_px_left"];
  _ ← select_columns organized_df ["forearmWrist_px_right"];
  Ok organized_df.
End Aligner.
Arguments HandRow : clear implicits.
Arguments OrganizedRow : clear implicits.

(** Example hand streams; a cell is a string here.  Each row carries the
    [forearmWrist_px] and [forearmArm_px] columns. *)
Definition example_row (t : Z) (hand tag : string) : HandRow string :=
  mkHandRow (Qc_of_Z t) hand
    [ ("t_wall", "w" +:+ tag);
      ("forearmWrist_px", "wrist" +:+ tag);
      ("forearmArm_px", "arm" +:+ tag) ].

(** Left hand at times 1 and 2, right hand at times 2 and 3. *)
Definition union_scenario : list (HandRow string) :=
  [ example_row 1 "left" "L1"; example_row 2 "left" "L2";
    example_row 2 "right" "R2"; example_row 3 "right" "R3" ].

(** Only the left hand is ever tracked. *)
Definition left_only_scenario : list (HandRow string) :=
  [ example_row 1 "left" "L1"; example_row 2 "left" "L2" ].

(** ** What the organized table should hold, in terms of [hand_data] *)

(** The column names that are not copied. *)
Definition reserved : list string := ["t_mono"; "t_wall"; "chirality"].

(** The last row of [hand_data] for a hand and a timestamp, if any. *)
Definition last_row {Cell : Type} (hand : string) (t : Qc)
    (hand_data : list (HandRow Cell)) : option (HandRow Cell) :=
  last (filter (fun row => h_t_mono row = t /\ h_chirality row = hand) hand_data).

(** The last cell of a row under a column name, if any. *)
Definition last_cell {Cell : Type} (col : string) (cells : list (string * Cell))
    : option Cell :=
  snd <$> last (filter (fun c => c.1 = col) cells).

(** The cell a hand reported at a timestamp under a copied column. *)
Definition hand_cell {Cell : Type} (hand : string) (t : Qc) (col : string)
    (hand_data : list (HandRow Cell)) : option Cell :=
  match last_row hand t hand_data with
  | Some row => if decide (col ∈ reserved) then None else last_cell col (h_cells row)
  | None => None
  end.

(** ** The [try] block of [calculate_skeleton_angles] as a list of statements

    The five statements of the block have the same shape; the properties
    below are stated over this list, which [calculate_skeleton_angles_run]
    relates to the function itself. *)

Record AngleSpec : Type := mkAngleSpec {
  a_name : string;   (* key written to [angles] *)
  a_p1 : string;     (* the three keys read from [joints] *)
  a_p2 : string;
  a_p3 : string
}.

Definition angle_specs : list AngleSpec :=
  [ mkAngleSpec "left_elbow_angle" "left_shoulder" "left_elbow" "left_wrist";
    mkAngleSpec "right_elbow_angle" "right_shoulder" "right_elbow" "right_wrist";
    mkAngleSpec "left_shoulder_angle" "upper_spine" "left_shoulder" "left_elbow";
    mkAngleSpec "right_shoulder_angle" "upper_spine" "right_shoulder" "right_elbow";
    mkAngleSpec "spine_bend_angle" "neck" "mid_spine" "lower_spine" ].

Fixpoint run_try (joints : gmap string pyvec) (specs : list AngleSpec)
    (angles : gmap string npfloat) : gmap string npfloat :=
  match specs with
  | [] => angles
  | sp :: rest =>
      CalcJoin.try_then angles
        (CalcJoin.angle_stmt joints (a_name sp) (a_p1 sp) (a_p2 sp) (a_p3 sp))
        (run_try joints rest)
  end.

(** What one statement does on [joints]: [None] when its guard is false
    (a key is missing), otherwise the outcome of the angle computation. *)
Definition outcome (joints : gmap string pyvec) (sp : AngleSpec) : option (result npfloat) :=
  match joints !! a_p1 sp, joints !! a_p2 sp, joints !! a_p3 sp with
  | Some p1, Some p2, Some p3 => Some (CalcJoin.calculate_angle_3_points p1 p2 p3)
  | _, _, _ => None
  end.

(** The statement raises. *)
Definition fails (joints : gmap string pyvec) (sp : AngleSpec) : Prop :=
  exists e, outcome joints sp = Some (Raise e).

(** The two sides of the body, used to state a property once for both. *)
Inductive Side : Type := LeftSide | RightSide.

Definition elbow_of (sd : Side) (s : CalcBody.UpperBodySkeleton) : pyvec :=
  match sd with LeftSide => CalcBody.left_elbow s | RightSide => CalcBody.right_elbow s end.
Definition wrist_of (sd : Side) (s : CalcBody.UpperBodySkeleton) : pyvec :=
  match sd with LeftSide => CalcBody.left_wrist s | RightSide => CalcBody.right_wrist s end.
Definition shoulder_of (sd : Side) (s : CalcBody.UpperBodySkeleton) : pyvec :=
  match sd with
  | LeftSide => CalcBody.left_shoulder s
  | RightSide => CalcBody.right_shoulder s
  end.
Definition pick (sd : Side) {A : Type} (l r : A) : A :=
  match sd with LeftSide => l | RightSide => r end.

(** The joints derived from the head pose alone. *)
Definition head_chain_present (s : CalcBody.UpperBodySkeleton) : Prop :=
  is_Some (CalcBody.head s) /\ is_Some (CalcBody.neck s) /\
  is_Some (CalcBody.upper_spine s) /\ is_Some (CalcBody.mid_spine s) /\
  is_Some (CalcBody.lower_spine s) /\
  is_Some (CalcBody.left_shoulder s) /\ is_Some (CalcBody.right_shoulder s).

(** ** Example dictionaries for [calculate_skeleton_angles] *)

(** A full set of joints on a straight spine; [w] is the value stored
    under ["right_wrist"]. *)
Definition example_joints (w : pyvec) : gmap string pyvec :=
  <["right_wrist" := w]>
  (<["left_wrist" := Some (mk3 (-1) 0 1)]>
  (<["right_elbow" := Some (mk3 1 0 0)]>
  (<["left_elbow" := Some (mk3 (-1) 0 0)]>
  (<["right_shoulder" := Some (mk3 1 1 0)]>
  (<["left_shoulder" := Some (mk3 (-1) 1 0)]>
  (<["lower_spine" := Some (mk3 0 (-1) 0)]>
  (<["mid_spine" := Some (mk3 0 0 0)]>
  (<["upper_spine" := Some (mk3 0 1 0)]>
  (<["neck" := Some (mk3 0 2 0)]>
  (<["head" := Some (mk3 0 3 0)]> ∅)))))))))).

(** ** Example head streams *)

(** The two-sample stream of the specification's end-to-end scenario. *)
Definition two_sample_stream : list DeviceRow :=
  [ mkDeviceRow (Qc_of_Z 0) (mk3 0 0 0) (mkQuat 0 0 0 1);
    mkDeviceRow (Qc_of_Z 1) (mk3 0 0 1) (mkQuat 0 0 0 1) ].

(** A four-sample stream at times 0, 1, 2, 3. *)
Definition four_sample_stream : list DeviceRow :=
  [ mkDeviceRow (Qc_of_Z 0) (mk3 0 0 0) (mkQuat 0 0 0 1);
    mkDeviceRow (Qc_of_Z 1) (mk3 0 0 1) (mkQuat 0 0 0 1);
    mkDeviceRow (Qc_of_Z 2) (mk3 0 0 2) (mkQuat 0 0 0 1);
    mkDeviceRow (Qc_of_Z 3) (mk3 0 0 3) (mkQuat 0 0 0 1) ].

(** A stand-in for an interpolation kernel, used to instantiate the
    section parameters: the value stored at a key time, [default]
    elsewhere. *)
Fixpoint key_value {V : Type} (default : V) (keys : list (Qc * V)) (t : Qc) : V :=
  match keys with
  | [] => default
  | (t', v) :: rest => if decide (t' = t) then v else key_value default rest t
  end.

(** ** Transformations of the inputs, used to state invariance properties *)

(** The quaternion [-q], which stands for the same rotation as [q]. *)
Definition quat_neg (q : quat) : quat :=
  mkQuat (- qx q)%R (- qy q)%R (- qz q)%R (- qw q)%R.

(** A landmark or joint moved by [v], [None] staying [None]. *)
Definition translate (v : vec3) (p : pyvec) : pyvec := (fun a => vadd a v) <$> p.

(** A frame with every joint moved by [v]. *)
Definition translate_skeleton (v : vec3) (s : CalcBody.UpperBodySkeleton)
    : CalcBody.UpperBodySkeleton :=
  {| CalcBody.head := translate v (CalcBody.head s);
     CalcBody.neck := translate v (CalcBody.neck s);
     CalcBody.upper_spine := translate v (CalcBody.upper_spine s);
     CalcBody.mid_spine := translate v (CalcBody.mid_spine s);
     CalcBody.lower_spine := translate v (CalcBody.lower_spine s);
     CalcBody.left_shoulder := translate v (CalcBody.left_shoulder s);
     CalcBody.right_shoulder := translate v (CalcBody.right_shoulder s);
     CalcBody.left_elbow := translate v (CalcBody.left_elbow s);
     CalcBody.right_elbow := translate v (CalcBody.right_elbow s);
     CalcBody.left_wrist := translate v (CalcBody.left_wrist s);
     CalcBody.right_wrist := translate v (CalcBody.right_wrist s) |}.

(** ** calculate_and_join_skeleton_data.py: the batch loop ([calculate_skeleton_data]) *)

(** Indexing a numpy array: [a[i]] raises [IndexError] past the end. *)
Inductive indexed (A : Type) : Type :=
| Got (a : A)
| IndexError.
Arguments Got {A} a.
Arguments IndexError {A}.

#[global] Instance indexed_bind : MBind indexed := fun A B k c =>
  match c with Got a => k a | IndexError => IndexError end.

Definition getitem {A : Type} (a : list A) (i : nat) : indexed A :=
  match a !! i with
  | Some x => Got x
  | None => IndexError
  end.

(** The landmarks the script extracts from the hand table. *)
Inductive Landmark : Type := forearmWrist | forearmArm.

(** A row of the hand table: its timestamp, its hand and the positions of
    the two landmarks. *)
Record PivotRow : Type := mkPivotRow {
  p_t_mono : Qc;
  p_chirality : string;
  p_forearmWrist : vec3;
  p_forearmArm : vec3
}.

Definition landmark_position (joint_name : Landmark) (row : PivotRow) : vec3 :=
  match joint_name with
  | forearmWrist => p_forearmWrist row
  | forearmArm => p_forearmArm row
  end.

(** [extract_joint_positions]: the positions of one landmark in the rows
    of one hand, in table order (the orientations it also returns are not
    used by the caller). *)
Definition extract_joint_positions (hand_df : list PivotRow) (joint_name : Landmark)
    (chirality : string) : list vec3 :=
  landmark_position joint_name <$> filter (fun row => p_chirality row = chirality) hand_df.

(** One record of [all_frames_data]: ['frame'] and ['t_mono'] kept apart
    from the float columns (['t_wall'] is carried like ['t_mono'] and left
    out). *)
Record FrameData : Type := mkFrameData {
  f_frame : nat;
  f_t_mono : Qc;
  f_cols : gmap string npfloat
}.

(** [for joint_name, joint_pos in joints.items(): if joint_pos is not None:
    frame_data[f'{joint_name}_x'] = joint_pos[0] ...].  The keys written for
    different joints are different, so the order of the iteration does not
    matter. *)
Definition joint_columns (joints : gmap string pyvec) : gmap string npfloat :=
  map_fold (fun joint_name joint_pos frame_data =>
              match joint_pos with
              | Some p =>
                  <[joint_name +:+ "_z" := Finite (vz p)]>
                  (<[joint_name +:+ "_y" := Finite (vy p)]>
                  (<[joint_name +:+ "_x" := Finite (vx p)]> frame_data))
              | None => frame_data
              end)
           ∅ joints.

(** The body of the loop for one [frame_idx]. *)
Definition frame_body (body_model : AnthropometricModel) (device_data : list DeviceRow)
    (left_wrist_pos right_wrist_pos left_forearm_pos right_forearm_pos : list vec3)
    (frame_idx : nat) : indexed FrameData :=
  head_pos ← getitem (d_position <$> device_data) frame_idx;
  head_quat ← getitem (d_orientation <$> device_data) frame_idx;
  left_wrist ← getitem left_wrist_pos frame_idx;
  right_wrist ← getitem right_wrist_pos frame_idx;
  left_forearm ← getitem left_forearm_pos frame_idx;
  right_forearm ← getitem right_forearm_pos frame_idx;
  let joints :=
    CalcJoin.reconstruct_skeleton body_model head_pos head_quat
      left_wrist right_wrist left_forearm right_forearm in
  let angles := CalcJoin.calculate_skeleton_angles joints in
  device_row ← getitem device_data frame_idx;
  (* joint columns first, then [frame_data[angle_name] = angle_value] *)
  Got (mkFrameData frame_idx (d_t_mono device_row) (angles ∪ joint_columns joints)).

(** [for frame_idx in range(n): ... all_frames_data.append(frame_data)]:
    an exception leaves the loop and the function. *)
Fixpoint frames_loop (body : nat -> indexed FrameData) (indices : list nat)
    : indexed (list FrameData) :=
  match indices with
  | [] => Got []
  | frame_idx :: rest =>
      frame_data ← body frame_idx;
      all_frames_data ← frames_loop body rest;
      Got (frame_data :: all_frames_data)
  end.

Definition calculate_skeleton_data (device_data : list DeviceRow)
    (hand_data : list PivotRow) (user_height : R) : indexed (list FrameData) :=
  let body_model := AnthropometricModel_init user_height in
  let right_wrist_pos := extract_joint_positions hand_data forearmWrist "right" in
  let left_wrist_pos := extract_joint_positions hand_data forearmWrist "left" in
  let right_forearm_pos := extract_joint_positions hand_data forearmArm "right" in
  let left_forearm_pos := extract_joint_positions hand_data forearmArm "left" in
  frames_loop
    (frame_body body_model device_data
       left_wrist_pos right_wrist_pos left_forearm_pos right_forearm_pos)
    (seq 0 (length (d_position <$> device_data))).

(** The rows of one hand, in table order. *)
Definition hand_rows (hand_data : list PivotRow) (chirality : string) : list PivotRow :=
  filter (fun row => p_chirality row = chirality) hand_data.

(** The names of the five angles. *)
Definition angle_names : list string :=
  ["left_elbow_angle"; "right_elbow_angle"; "left_shoulder_angle";
   "right_shoulder_angle"; "spine_bend_angle"].

(** The joints of the frame built from a device row and the rows of the
    two hands that the loop pairs with it. *)
Definition frame_joints (body_model : AnthropometricModel) (device_row : DeviceRow)
    (left_row right_row : PivotRow) : gmap string pyvec :=
  CalcJoin.reconstruct_skeleton body_model
    (d_position device_row) (d_orientation device_row)
    (p_forearmWrist left_row) (p_forearmWrist right_row)
    (p_forearmArm left_row) (p_forearmArm right_row).

(** The three coordinate columns of a joint. *)
Definition coordinate_suffixes : list (string * (vec3 -> R)) :=
  [("_x", vx); ("_y", vy); ("_z", vz)].

(** Two head samples and hand rows in which the left hand reports three
    times and the right hand twice, at times unrelated to the head's. *)
Definition example_device_data : list DeviceRow :=
  [ mkDeviceRow (Qc_of_Z 0) (mk3 0 0 0) (mkQuat 0 0 0 1);
    mkDeviceRow (Qc_of_Z 1) (mk3 0 0 1) (mkQuat 0 0 0 1) ].

Definition example_hand_data : list PivotRow :=
  [ mkPivotRow (Qc_of_Z 5) "left" (mk3 1 0 0) (mk3 2 0 0);
    mkPivotRow (Qc_of_Z 5) "right" (mk3 0 1 0) (mk3 0 2 0);
    mkPivotRow (Qc_of_Z 6) "left" (mk3 1 1 0) (mk3 2 1 0);
    mkPivotRow (Qc_of_Z 7) "left" (mk3 1 2 0) (mk3 2 2 0);
    mkPivotRow (Qc_of_Z 9) "right" (mk3 0 1 1) (mk3 0 2 1) ].

(** The keys of the dictionary built by
    [SkeletonCalculator.reconstruct_skeleton]. *)
Definition joint_names : list string :=
  ["head"; "left_wrist"; "right_wrist"; "left_forearm"; "right_forearm"; "neck";
   "upper_spine"; "mid_spine"; "lower_spine"; "left_shoulder"; "right_shoulder";
   "left_elbow"; "right_elbow"].

(** ** pandas tables

    A table built by [pd.DataFrame(list_of_dicts)] is kept as the list of
    the dictionaries: its columns are the keys that occur in some
    dictionary, and a row has NaN in the columns its dictionary lacks.
    Writing the table with [to_csv] and reading it back with [read_csv]
    is taken to give the same table. *)

Abbreviation DataFrame := (list (gmap string npfloat)).

(** A row as a [Series]: the cell under a label, [None] when the label
    is not in the index. *)
Abbreviation Series := (string -> option npfloat).

Definition df_has_column (df : DataFrame) (col : string) : bool :=
  existsb (fun r => bool_decide (is_Some (r !! col))) df.

(** The row of [df] made from the dictionary [row]. *)
Definition df_row (df : DataFrame) (row : gmap string npfloat) : Series :=
  fun col =>
    match row !! col with
    | Some v => Some v
    | None => if df_has_column df col then Some NaN else None
    end.

(** [df.iloc[i]]. *)
Definition iloc (df : DataFrame) (i : nat) : option Series :=
  df_row df <$> df !! i.

(** [row[col]]: a label that is not in the index raises [KeyError]. *)
Definition series_getitem (row : Series) (col : string) : result npfloat :=
  match row col with
  | Some v => Ok v
  | None => Raise KeyError
  end.

Definition pd_notna (v : npfloat) : bool :=
  match v with Finite _ => true | NaN => false end.

(** [col in row.index and pd.notna(row[col])]. *)
Definition in_index_and_notna (row : Series) (col : string) : bool :=
  match row col with
  | Some v => pd_notna v
  | None => false
  end.

(** [np.array([a, b, c])] of three cells. *)
Abbreviation array3 := (npfloat * npfloat * npfloat)%type.

Definition array_of_vec3 (p : vec3) : array3 :=
  (Finite (vx p), Finite (vy p), Finite (vz p)).

(** ** calc_body.py: reading the hands of an organized row and writing a frame *)

Definition get_hand_position (row : Series) (hand joint_name : string)
    : result (option array3) :=
  let suffix := "_" +:+ hand in
  let px_col := (joint_name +:+ "_px") +:+ suffix in
  let py_col := (joint_name +:+ "_py") +:+ suffix in
  let pz_col := (joint_name +:+ "_pz") +:+ suffix in
  if in_index_and_notna row px_col then
    x ← series_getitem row px_col;
    y ← series_getitem row py_col;
    z ← series_getitem row pz_col;
    Ok (Some (x, y, z))
  else Ok None.

(** [UpperBodySkeleton.get_all_joints]. *)
Definition get_all_joints (self : CalcBody.UpperBodySkeleton) : gmap string pyvec :=
  <["right_wrist" := CalcBody.right_wrist self]>
  (<["left_wrist" := CalcBody.left_wrist self]>
  (<["right_elbow" := CalcBody.right_elbow self]>
  (<["left_elbow" := CalcBody.left_elbow self]>
  (<["right_shoulder" := CalcBody.right_shoulder self]>
  (<["left_shoulder" := CalcBody.left_shoulder self]>
  (<["lower_spine" := CalcBody.lower_spine self]>
  (<["mid_spine" := CalcBody.mid_spine self]>
  (<["upper_spine" := CalcBody.upper_spine self]>
  (<["neck" := CalcBody.neck self]>
  (<["head" := CalcBody.head self]> ∅)))))))))).

(** The keys of [get_all_joints]. *)
Definition body_joint_names : list string :=
  ["head"; "neck"; "upper_spine"; "mid_spine"; "lower_spine"; "left_shoulder";
   "right_shoulder"; "left_elbow"; "right_elbow"; "left_wrist"; "right_wrist"].

Definition finger_joints : list string :=
  ["thumbKnuckle"; "thumbIntermediateBase"; "thumbIntermediateTip"; "thumbTip";
   "indexFingerMetacarpal"; "indexFingerKnuckle"; "indexFingerIntermediateBase";
   "indexFingerIntermediateTip"; "indexFingerTip";
   "middleFingerMetacarpal"; "middleFingerKnuckle"; "middleFingerIntermediateBase";
   "middleFingerIntermediateTip"; "middleFingerTip";
   "ringFingerMetacarpal"; "ringFingerKnuckle"; "ringFingerIntermediateBase";
   "ringFingerIntermediateTip"; "ringFingerTip";
   "littleFingerMetacarpal"; "littleFingerKnuckle"; "littleFingerIntermediateBase";
   "littleFingerIntermediateTip"; "littleFingerTip"].

(** A loop whose body may raise. *)
Fixpoint for_each {A S : Type} (body : A -> S -> result S) (l : list A) (s : S)
    : result S :=
  match l with
  | [] => Ok s
  | a :: rest => s' ← body a s; for_each body rest s'
  end.

(** The seven columns read and the seven columns written for a finger
    joint of a hand. *)
Definition finger_fields : list (string * string) :=
  [("_px", "_x"); ("_py", "_y"); ("_pz", "_z");
   ("_qx", "_qx"); ("_qy", "_qy"); ("_qz", "_qz"); ("_qw", "_qw")].

(** The body of the loop over the finger joints of a hand:
    [if px_col in hand_row.index and pd.notna(hand_row[px_col]):
       row[f'{hand}_{joint}_x'] = hand_row[px_col] ...]. *)
Definition finger_stmt (hand_row : Series) (hand joint : string)
    (row : gmap string npfloat) : result (gmap string npfloat) :=
  let suffix := "_" +:+ hand in
  if in_index_and_notna hand_row ((joint +:+ "_px") +:+ suffix) then
    for_each (fun '(src, dst) row =>
                v ← series_getitem hand_row ((joint +:+ src) +:+ suffix);
                Ok (<[(hand +:+ "_" +:+ joint) +:+ dst := v]> row))
             finger_fields row
  else Ok row.

(** The dictionary [row] of one frame of [main], without its ['frame']
    and ['t_mono'] entries: the joints that are not [None], the head
    orientation, then the finger joints of both hands. *)
Definition output_row (hand_row : Series) (skeleton : CalcBody.UpperBodySkeleton)
    (head_orientation : quat) : result (gmap string npfloat) :=
  let row := joint_columns (get_all_joints skeleton) in
  let row := <["head_qx" := Finite (qx head_orientation)]> row in
  let row := <["head_qy" := Finite (qy head_orientation)]> row in
  let row := <["head_qz" := Finite (qz head_orientation)]> row in
  let row := <["head_qw" := Finite (qw head_orientation)]> row in
  for_each (fun hand => for_each (finger_stmt hand_row hand) finger_joints)
           ["right"; "left"] row.

(** ** skeleton_viewer.py *)

Module Viewer.

Definition get_joint_position (row : Series) (joint_name : string)
    : result (option array3) :=
  let x_col := joint_name +:+ "_x" in
  let y_col := joint_name +:+ "_y" in
  let z_col := joint_name +:+ "_z" in
  if in_index_and_notna row x_col then
    x ← series_getitem row x_col;
    y ← series_getitem row y_col;
    z ← series_getitem row z_col;
    Ok (Some (x, y, z))
  else Ok None.

(** [col.endswith(sfx)]. *)
Fixpoint endswith (col sfx : string) : bool :=
  if decide (col = sfx) then true
  else match col with
       | EmptyString => false
       | String _ rest => endswith rest sfx
       end.

(** [df[cols].values.flatten()] followed by [a[~np.isnan(a)]], for the
    columns that end in [sfx]: the cells of those columns that are
    numbers.  Only the minimum and the maximum are taken, so the order
    is of no consequence. *)
Definition axis_values (df : DataFrame) (sfx : string) : list R :=
  row ← df;
  '(col, v) ← map_to_list row;
  if endswith col sfx then
    match v with Finite x => [x] | NaN => [] end
  else [].

(** [a.min()] and [a.max()] of an array of floats. *)
Definition array_min (a : list R) : result R :=
  match a with
  | [] => Raise ValueError
  | x :: rest => Ok (foldl Rmin x rest)
  end.

Definition array_max (a : list R) : result R :=
  match a with
  | [] => Raise ValueError
  | x :: rest => Ok (foldl Rmax x rest)
  end.

Definition calculate_axis_limits (df : DataFrame)
    : result ((R * R) * (R * R) * (R * R)) :=
  let all_x := axis_values df "_x" in
  let all_y := axis_values df "_y" in
  let all_z := axis_values df "_z" in
  let margin := (1 / 10)%R in
  x_lo ← array_min all_x; x_hi ← array_max all_x;
  y_lo ← array_min all_y; y_hi ← array_max all_y;
  z_lo ← array_min all_z; z_hi ← array_max all_z;
  Ok ((x_lo - margin, x_hi + margin)%R,
      (y_lo - margin, y_hi + margin)%R,
      (z_lo - margin, z_hi + margin)%R).

End Viewer.

(** A hand table with one row of each hand at time 1 and a row of the
    left hand alone at time 2. *)
Definition example_hand_table : list (HandRow npfloat) :=
  [ mkHandRow (Qc_of_Z 1) "left"
      [("forearmWrist_px", Finite 1); ("forearmWrist_py", Finite 2);
       ("forearmWrist_pz", Finite 3)];
    mkHandRow (Qc_of_Z 1) "right"
      [("forearmWrist_px", Finite 4); ("forearmWrist_py", Finite 5);
       ("forearmWrist_pz", Finite 6)];
    mkHandRow (Qc_of_Z 2) "left"
      [("forearmWrist_px", Finite 7); ("forearmWrist_py", Finite 8);
       ("forearmWrist_pz", Finite 9)] ].

(** An organized row in which only the thumb tip of the right hand is
    tracked, and a frame without hand landmarks. *)
Definition example_finger_row : Series :=
  fun col =>
    if decide (col ∈ ["thumbTip_px_right"; "thumbTip_py_right"; "thumbTip_pz_right";
                      "thumbTip_qx_right"; "thumbTip_qy_right"; "thumbTip_qz_right";
                      "thumbTip_qw_right"])
    then Some (Finite 1) else None.

Definition example_skeleton : CalcBody.UpperBodySkeleton :=
  CalcBody.reconstruct_skeleton (mk3 0 0 0) (mkQuat 0 0 0 1) None None None None
    (AnthropometricModel_init (7 / 4)).

(** The joints of [SkeletonCalculator.reconstruct_skeleton] that are
    copies of its arguments, and those computed from the head pose
    alone. *)
Definition tracked_joint_names : list string :=
  ["head"; "left_wrist"; "right_wrist"; "left_forearm"; "right_forearm"].

Definition spine_joint_names : list string :=
  ["neck"; "upper_spine"; "mid_spine"; "lower_spine"; "left_shoulder"; "right_shoulder"].

(** The computation of a joint divides by no zero norm, so that numpy
    gives it coordinates that are numbers: a copied joint always; the
    neck, the spine and the shoulders for a unit head quaternion (the
    columns of the rotation matrix then have length 1); an elbow when
    moreover the forearm landmark of its side is not at the shoulder. *)
Definition coordinates_defined (joints : gmap string pyvec) (head_quat : quat)
    (left_forearm right_forearm : vec3) (joint : string) : Prop :=
  joint ∈ tracked_joint_names \/
  (quat_norm2 head_quat = 1%R /\ joint ∈ spine_joint_names) \/
  (quat_norm2 head_quat = 1%R /\ joint = "left_elbow" /\
   joints !! "left_shoulder" <> Some (Some left_forearm)) \/
  (quat_norm2 head_quat = 1%R /\ joint = "right_elbow" /\
   joints !! "right_shoulder" <> Some (Some right_forearm)).

(** ** scipy's Slerp on its keyframes

    [Slerp] is library code; [interpolate_head_data] takes the kernel as a
    parameter.  To say what the function returns at the timestamp of a
    source sample, the kernel is also modelled, after the algorithm of
    [scipy.spatial.transform.Slerp] and in exact arithmetic (the series
    scipy uses for small angles are taken for the functions they
    approximate): for a time in the interval from key [ind] to key
    [ind + 1], the rotation of key [ind] composed with the fraction
    [alpha] of the rotation vector that leads to key [ind + 1]. *)

Section SlerpKernel.
Local Open Scope R_scope.

(** The quaternion, scalar last, of the composition [p * q] of two
    rotations. *)
Definition quat_mul (p q : quat) : quat :=
  mkQuat (qw p * qx q + qx p * qw q + qy p * qz q - qz p * qy q)
         (qw p * qy q - qx p * qz q + qy p * qw q + qz p * qx q)
         (qw p * qz q + qx p * qy q - qy p * qx q + qz p * qw q)
         (qw p * qw q - qx p * qx q - qy p * qy q - qz p * qz q).

(** [Rotation.inv]. *)
Definition quat_inv (q : quat) : quat := mkQuat (- qx q) (- qy q) (- qz q) (qw q).

(** The dot product of two quaternions as vectors of R^4. *)
Definition quat_dot (p q : quat) : R :=
  qx p * qx q + qy p * qy q + qz p * qz q + qw p * qw q.

(** The quaternion with [w >= 0] of the same rotation. *)
Definition canonical (q : quat) : quat := if Rlt_dec (qw q) 0 then quat_neg q else q.

(** [Rotation.as_rotvec] of a unit quaternion: the axis scaled by the
    angle, the angle taken in [[0, pi]] (for a unit quaternion with
    [w >= 0] the angle [2 * atan2(|xyz|, w)] is [2 * acos w]). *)
Definition as_rotvec (q : quat) : vec3 :=
  let q := canonical q in
  let angle := 2 * acos (qw q) in
  let scale := if Req_dec_T angle 0 then 2 else angle / sin (angle / 2) in
  mk3 (scale * qx q) (scale * qy q) (scale * qz q).

(** [Rotation.from_rotvec]. *)
Definition from_rotvec (r : vec3) : quat :=
  let angle := norm r in
  let scale := if Req_dec_T angle 0 then 1 / 2 else sin (angle / 2) / angle in
  mkQuat (scale * vx r) (scale * vy r) (scale * vz r) (cos (angle / 2)).

(** [np.searchsorted(a, v)] on a sorted array: the number of elements
    smaller than [v]. *)
Definition searchsorted (a : list Qc) (v : Qc) : nat :=
  length (filter (fun x => (x < v)%Qc) a).

(** [Slerp.__call__] at one time, as a quaternion ([as_quat]):
    [ind = searchsorted(times, t) - 1], set to 0 at the first key time
    (the subtraction on [nat] stops at 0), and
    [alpha = (t - times[ind]) / (times[ind + 1] - times[ind])].  The last
    case is not reached for a time of the range, the only ones
    [Slerp_call] lets through. *)
Definition scipy_slerp (keys : list (Qc * quat)) (t : Qc) : quat :=
  let ind := (searchsorted keys.*1 t - 1)%nat in
  match keys !! ind, keys !! S ind with
  | Some (t0, q0), Some (t1, q1) =>
      let alpha := Q2R (t - t0)%Qc / Q2R (t1 - t0)%Qc in
      quat_mul q0 (from_rotvec (vscale (as_rotvec (quat_mul (quat_inv q0) q1)) alpha))
  | _, _ => mkQuat 0 0 0 1
  end.
End SlerpKernel.

(** A head stream whose second quaternion is the negative of the first:
    four unit quaternions of one and the same rotation. *)
Definition flipped_stream : list DeviceRow :=
  [ mkDeviceRow (Qc_of_Z 0) (mk3 0 0 0) (mkQuat 0 0 0 1);
    mkDeviceRow (Qc_of_Z 1) (mk3 0 0 1) (mkQuat 0 0 0 (-1));
    mkDeviceRow (Qc_of_Z 2) (mk3 0 0 2) (mkQuat 0 0 0 1);
    mkDeviceRow (Qc_of_Z 3) (mk3 0 0 3) (mkQuat 0 0 0 1) ].

(** * Properties *)

Section VecFacts.
Local Open Scope R_scope.

Lemma dot_self_nonneg (a : vec3) : 0 <= dot a a.
Proof. unfold dot. nra. Qed.

Lemma norm_nonneg (a : vec3) : 0 <= norm a.
Proof. apply sqrt_pos. Qed.

Lemma norm_sqr (a : vec3) : norm a * norm a = dot a a.
Proof. apply sqrt_sqrt, dot_self_nonneg. Qed.

Lemma norm_vscale (a : vec3) (k : R) : norm (vscale a k) = norm a * Rabs k.
Proof.
  unfold norm.
  replace (dot (vscale a k) (vscale a k)) with (dot a a * Rsqr k)
    by (unfold dot, vscale, Rsqr; simpl; ring).
  rewrite sqrt_mult_alt by apply dot_self_nonneg.
  now rewrite sqrt_Rsqr_abs.
Qed.

Lemma norm_normalized (a : vec3) : norm a <> 0 -> norm (vdiv a (norm a)) = 1.
Proof.
  intros Hn.
  replace (vdiv a (norm a)) with (vscale a (/ norm a)) by reflexivity.
  rewrite norm_vscale, Rabs_pos_eq.
  - now apply Rinv_r.
  - left. apply Rinv_0_lt_compat. pose proof (norm_nonneg a). lra.
Qed.

Lemma vadd_vsub_cancel (a b : vec3) : vsub (vadd a b) a = b.
Proof. destruct a, b. unfold vsub, vadd. simpl. f_equal; ring. Qed.

Lemma norm_axis_z (k : R) : norm (mk3 0 0 k) = Rabs k.
Proof.
  unfold norm, dot. simpl.
  replace (0 * 0 + 0 * 0 + k * k) with (Rsqr k) by (unfold Rsqr; ring).
  apply sqrt_Rsqr_abs.
Qed.
End VecFacts.

(** ** Elbow placement ([estimate_elbow_position]) *)

Section Elbow.
Local Open Scope R_scope.
Import CalcBody.

(** With both landmarks present an elbow is produced, in either branch. *)
Lemma estimate_elbow_position_some (sh f w : vec3) (L : R) :
  exists e, estimate_elbow_position sh (Some f) (Some w) L = Some e.
Proof. unfold estimate_elbow_position. destruct (Rlt_dec _ _); eauto. Qed.

(** Both branches put the elbow at distance [|L|] from the shoulder. *)
Lemma estimate_elbow_position_distance (sh f w e : vec3) (L : R) :
  estimate_elbow_position sh (Some f) (Some w) L = Some e ->
  norm (vsub e sh) = Rabs L.
Proof.
  unfold estimate_elbow_position.
  destruct (Rlt_dec (norm (vsub f sh)) eps) as [Hsmall | Hfar]; intros [= <-];
    rewrite vadd_vsub_cancel.
  - apply norm_axis_z.
  - rewrite norm_vscale, norm_normalized; [ring |].
    unfold eps in Hfar. lra.
Qed.

(** Below [1e-6] the elbow is the shoulder moved by the arm length along
    the third axis. *)
Lemma estimate_elbow_position_fallback (sh f w : vec3) (L : R) :
  norm (vsub f sh) < eps ->
  estimate_elbow_position sh (Some f) (Some w) L = Some (vadd sh (mk3 0 0 L)).
Proof.
  intros H. unfold estimate_elbow_position.
  destruct (Rlt_dec _ _); [reflexivity | contradiction].
Qed.

(** When one of the two landmarks is [None] no elbow is produced. *)
Lemma estimate_elbow_position_none (sh : vec3) (f w : pyvec) (L : R) :
  f = None \/ w = None -> estimate_elbow_position sh f w L = None.
Proof. intros [-> | ->]; [reflexivity | now destruct f]. Qed.
End Elbow.

(** The record returned by [reconstruct_skeleton], field by field. *)
Lemma reconstruct_skeleton_fields (head_pos : vec3) (head_quat : quat)
    (lw rw lf rf : pyvec) (m : AnthropometricModel) :
  let s := CalcBody.reconstruct_skeleton head_pos head_quat lw rw lf rf m in
  let nk := CalcBody.estimate_neck_position head_pos head_quat m in
  let sp := CalcBody.estimate_spine_positions nk head_quat m in
  let shs := CalcBody.estimate_shoulder_positions sp.1.1 head_quat m in
  CalcBody.head s = Some head_pos /\ CalcBody.neck s = Some nk /\
  CalcBody.upper_spine s = Some sp.1.1 /\ CalcBody.mid_spine s = Some sp.1.2 /\
  CalcBody.lower_spine s = Some sp.2 /\
  CalcBody.left_shoulder s = Some shs.1 /\ CalcBody.right_shoulder s = Some shs.2 /\
  CalcBody.left_wrist s = lw /\ CalcBody.right_wrist s = rw /\
  CalcBody.left_elbow s =
    CalcBody.estimate_elbow_position shs.1 lf lw (upper_arm_length m) /\
  CalcBody.right_elbow s =
    CalcBody.estimate_elbow_position shs.2 rf rw (upper_arm_length m).
Proof. cbv zeta. repeat split. Qed.

(** C1. In every frame in which an elbow is computed for a side (that
    side's forearm and wrist landmarks are both present) the reconstructed
    elbow lies at distance [upper_arm_length] of the body model from that
    side's shoulder, whatever the position of the forearm landmark; this
    covers the branch taken below [1e-6] as well as the normalising
    branch.  The body model is the one built from a non-negative height,
    and the head quaternion has norm 1, so that the shoulder is a point
    with finite coordinates. *)
Theorem C1_elbow_at_upper_arm_length (sd : Side)
    (height_m : R) (head_pos : vec3) (head_quat : quat)
    (lw rw lf rf : pyvec) (forearm wrist : vec3) :
  (0 <= height_m)%R -> quat_norm2 head_quat = 1%R ->
  pick sd lf rf = Some forearm -> pick sd lw rw = Some wrist ->
  let m := AnthropometricModel_init height_m in
  let s := CalcBody.reconstruct_skeleton head_pos head_quat lw rw lf rf m in
  exists sh e, shoulder_of sd s = Some sh /\ elbow_of sd s = Some e /\
               norm (vsub e sh) = upper_arm_length m.
Proof.
  intros Hh _ Hf Hw m s.
  destruct (reconstruct_skeleton_fields head_pos head_quat lw rw lf rf m)
    as (_ & _ & _ & _ & _ & Hls & Hrs & _ & _ & Hle & Hre).
  fold s in Hls, Hrs, Hle, Hre.
  assert (HL : Rabs (upper_arm_length m) = upper_arm_length m).
  { apply Rabs_pos_eq. simpl. lra. }
  destruct sd; cbn [pick shoulder_of elbow_of] in *; subst.
  - destruct (estimate_elbow_position_some
                (CalcBody.estimate_shoulder_positions
                   (CalcBody.estimate_spine_positions
                      (CalcBody.estimate_neck_position head_pos head_quat m) head_quat m).1.1
                   head_quat m).1 forearm wrist (upper_arm_length m)) as [e He].
    eexists _, e. split; [exact Hls |]. split; [now rewrite Hle |].
    rewrite <- HL. eapply estimate_elbow_position_distance, He.
  - destruct (estimate_elbow_position_some
                (CalcBody.estimate_shoulder_positions
                   (CalcBody.estimate_spine_positions
                      (CalcBody.estimate_neck_position head_pos head_quat m) head_quat m).1.1
                   head_quat m).2 forearm wrist (upper_arm_length m)) as [e He].
    eexists _, e. split; [exact Hrs |]. split; [now rewrite Hre |].
    rewrite <- HL. eapply estimate_elbow_position_distance, He.
Qed.

(** The right side alone is tracked; the left side has no landmark. *)
Lemma C1_elbow_at_upper_arm_length_witness :
  (0 <= 7 / 4)%R /\ quat_norm2 (mkQuat 0 0 0 1) = 1%R /\
  pick RightSide None (Some (mk3 1 0 1)) = Some (mk3 1 0 1) /\
  pick RightSide None (Some (mk3 1 0 0)) = Some (mk3 1 0 0) /\
  let m := AnthropometricModel_init (7 / 4) in
  let s := CalcBody.reconstruct_skeleton (mk3 0 0 0) (mkQuat 0 0 0 1)
             None (Some (mk3 1 0 0)) None (Some (mk3 1 0 1)) m in
  exists sh e, shoulder_of RightSide s = Some sh /\ elbow_of RightSide s = Some e /\
               norm (vsub e sh) = upper_arm_length m.
Proof.
  assert (Hq : quat_norm2 (mkQuat 0 0 0 1) = 1%R) by (unfold quat_norm2; simpl; lra).
  split; [lra |]. split; [exact Hq |]. split; [reflexivity |]. split; [reflexivity |].
  apply (C1_elbow_at_upper_arm_length RightSide (7 / 4) (mk3 0 0 0) (mkQuat 0 0 0 1)
           None (Some (mk3 1 0 0)) None (Some (mk3 1 0 1)) (mk3 1 0 1) (mk3 1 0 0));
    [lra | exact Hq | reflexivity | reflexivity].
Defined.

(** ** Missing hand data ([reconstruct_skeleton]) *)

Lemma reconstruct_skeleton_head_chain (head_pos : vec3) (head_quat : quat)
    (lw rw lf rf : pyvec) (m : AnthropometricModel) :
  head_chain_present (CalcBody.reconstruct_skeleton head_pos head_quat lw rw lf rf m).
Proof.
  destruct (reconstruct_skeleton_fields head_pos head_quat lw rw lf rf m)
    as (H1 & H2 & H3 & H4 & H5 & H6 & H7 & _).
  unfold head_chain_present.
  rewrite H1, H2, H3, H4, H5, H6, H7. repeat split; eauto.
Qed.

(** C2, as the script behaves.  When a side's forearm or wrist landmark is
    absent the frame has no elbow for that side, and head, neck, the three
    spine joints and both shoulders are present; the side's wrist joint is
    the wrist landmark passed through unchanged, so it is present exactly
    when the wrist landmark is. *)
Theorem C2_missing_side_has_no_elbow (sd : Side)
    (head_pos : vec3) (head_quat : quat) (lw rw lf rf : pyvec)
    (m : AnthropometricModel) :
  pick sd lf rf = None \/ pick sd lw rw = None ->
  let s := CalcBody.reconstruct_skeleton head_pos head_quat lw rw lf rf m in
  elbow_of sd s = None /\
  wrist_of sd s = pick sd lw rw /\
  head_chain_present s.
Proof.
  intros Habs s.
  destruct (reconstruct_skeleton_fields head_pos head_quat lw rw lf rf m)
    as (_ & _ & _ & _ & _ & _ & _ & Hlw & Hrw & Hle & Hre).
  fold s in Hlw, Hrw, Hle, Hre.
  split; [| split; [| apply reconstruct_skeleton_head_chain]].
  - destruct sd; cbn [elbow_of pick] in *; [rewrite Hle | rewrite Hre];
      now apply estimate_elbow_position_none.
  - destruct sd; cbn [wrist_of pick]; assumption.
Qed.

Lemma C2_missing_side_has_no_elbow_witness :
  (@None vec3 = None \/ Some (mk3 1 2 3) = None) /\
  let s := CalcBody.reconstruct_skeleton (mk3 0 0 0) (mkQuat 0 0 0 1)
             (Some (mk3 1 2 3)) None None None (AnthropometricModel_init (7 / 4)) in
  elbow_of LeftSide s = None /\
  wrist_of LeftSide s = Some (mk3 1 2 3) /\
  head_chain_present s.
Proof.
  split; [left; reflexivity |].
  apply (C2_missing_side_has_no_elbow LeftSide (mk3 0 0 0) (mkQuat 0 0 0 1)
           (Some (mk3 1 2 3)) None None None (AnthropometricModel_init (7 / 4))).
  left; reflexivity.
Defined.

(** C2 as stated fails: with the left forearm landmark absent and the left
    wrist landmark present, the frame still carries a left wrist. *)
Lemma C2_wrist_kept_without_forearm :
  CalcBody.left_wrist
    (CalcBody.reconstruct_skeleton (mk3 0 0 0) (mkQuat 0 0 0 1)
       (Some (mk3 1 2 3)) None None None (AnthropometricModel_init (7 / 4)))
  = Some (mk3 1 2 3) /\
  CalcBody.left_elbow
    (CalcBody.reconstruct_skeleton (mk3 0 0 0) (mkQuat 0 0 0 1)
       (Some (mk3 1 2 3)) None None None (AnthropometricModel_init (7 / 4)))
  = None.
Proof. split; reflexivity. Qed.

(** ** Shoulders ([estimate_shoulder_positions]) *)

Section Shoulders.
Local Open Scope R_scope.

(** Squared length of the first column of the matrix of [q]. *)
Lemma col0_dot (q : quat) :
  dot (col0 (CalcBody.quaternion_to_rotation_matrix q))
      (col0 (CalcBody.quaternion_to_rotation_matrix q))
  = 1 + 4 * (qy q * qy q + qz q * qz q) * (quat_norm2 q - 1).
Proof. destruct q. unfold dot, quat_norm2. simpl. ring. Qed.

Lemma col1_dot (q : quat) :
  dot (col1 (CalcBody.quaternion_to_rotation_matrix q))
      (col1 (CalcBody.quaternion_to_rotation_matrix q))
  = 1 + 4 * (qx q * qx q + qz q * qz q) * (quat_norm2 q - 1).
Proof. destruct q. unfold dot, quat_norm2. simpl. ring. Qed.

Lemma col0_unit (q : quat) :
  quat_norm2 q = 1 -> norm (col0 (CalcBody.quaternion_to_rotation_matrix q)) = 1.
Proof.
  intros Hq. unfold norm. rewrite col0_dot, Hq.
  replace (1 + _) with 1 by ring. apply sqrt_1.
Qed.

Lemma col1_unit (q : quat) :
  quat_norm2 q = 1 -> norm (col1 (CalcBody.quaternion_to_rotation_matrix q)) = 1.
Proof.
  intros Hq. unfold norm. rewrite col1_dot, Hq.
  replace (1 + _) with 1 by ring. apply sqrt_1.
Qed.

Lemma vdiv_1 (a : vec3) : vdiv a 1 = a.
Proof. destruct a. unfold vdiv. simpl. f_equal; field. Qed.

Lemma midpoint_of_offsets (u d : vec3) :
  vscale (vadd (vsub u d) (vadd u d)) (1 / 2) = u.
Proof. destruct u, d. unfold vscale, vadd, vsub. simpl. f_equal; lra. Qed.

(** The midpoint of the two shoulders is the point they were built from
    (no assumption on the quaternion or on the model). *)
Lemma shoulders_midpoint (u : vec3) (q : quat) (m : AnthropometricModel) :
  let '(l, r) := CalcBody.estimate_shoulder_positions u q m in
  vscale (vadd l r) (1 / 2) = u.
Proof.
  unfold CalcBody.estimate_shoulder_positions. cbv zeta.
  apply midpoint_of_offsets.
Qed.

Lemma shoulders_offsets (u : vec3) (q : quat) (m : AnthropometricModel) :
  quat_norm2 q = 1 ->
  let right := col0 (CalcBody.quaternion_to_rotation_matrix q) in
  let '(l, r) := CalcBody.estimate_shoulder_positions u q m in
  l = vsub u (vscale right (shoulder_width m / 2)) /\
  r = vadd u (vscale right (shoulder_width m / 2)) /\
  norm right = 1.
Proof.
  intros Hq right. unfold CalcBody.estimate_shoulder_positions. cbv zeta.
  subst right. rewrite (col0_unit q Hq), vdiv_1. auto.
Qed.

Lemma shoulders_distance (u : vec3) (q : quat) (m : AnthropometricModel) :
  quat_norm2 q = 1 -> 0 <= shoulder_width m ->
  let '(l, r) := CalcBody.estimate_shoulder_positions u q m in
  norm (vsub r l) = shoulder_width m.
Proof.
  intros Hq Hw.
  pose proof (shoulders_offsets u q m Hq) as H. cbv zeta in H.
  destruct (CalcBody.estimate_shoulder_positions u q m) as [l r].
  destruct H as (-> & -> & Hn).
  replace (vsub _ _)
    with (vscale (col0 (CalcBody.quaternion_to_rotation_matrix q)) (shoulder_width m))
    by (unfold vsub, vadd, vscale; simpl; f_equal; field).
  rewrite norm_vscale, Hn, Rabs_pos_eq by assumption. ring.
Qed.
End Shoulders.

(** C9. For a head pose with a unit quaternion and the body model of a
    non-negative height, the two reconstructed shoulders lie on the line
    through [upper_spine] along the head's local right axis (the first
    column of the rotation matrix, a unit vector), one on each side at
    half the shoulder width: their midpoint is [upper_spine] and their
    distance is exactly [shoulder_width]. *)
Theorem C9_shoulders_symmetric_about_upper_spine
    (height_m : R) (head_pos : vec3) (head_quat : quat) (lw rw lf rf : pyvec) :
  (0 <= height_m)%R -> quat_norm2 head_quat = 1%R ->
  let m := AnthropometricModel_init height_m in
  let s := CalcBody.reconstruct_skeleton head_pos head_quat lw rw lf rf m in
  let right := col0 (CalcBody.quaternion_to_rotation_matrix head_quat) in
  exists u l r,
    CalcBody.upper_spine s = Some u /\
    CalcBody.left_shoulder s = Some l /\ CalcBody.right_shoulder s = Some r /\
    l = vsub u (vscale right (shoulder_width m / 2)) /\
    r = vadd u (vscale right (shoulder_width m / 2)) /\
    norm right = 1%R /\
    vscale (vadd l r) (1 / 2) = u /\
    norm (vsub r l) = shoulder_width m.
Proof.
  intros Hh Hq m s right.
  destruct (reconstruct_skeleton_fields head_pos head_quat lw rw lf rf m)
    as (_ & _ & Hu & _ & _ & Hl & Hr & _).
  fold s in Hu, Hl, Hr.
  set (u := (CalcBody.estimate_spine_positions
               (CalcBody.estimate_neck_position head_pos head_quat m) head_quat m).1.1)
    in *.
  pose proof (shoulders_midpoint u head_quat m) as Hmid.
  pose proof (shoulders_offsets u head_quat m Hq) as Hoff.
  assert (Hw : (0 <= shoulder_width m)%R) by (simpl; lra).
  pose proof (shoulders_distance u head_quat m Hq Hw) as Hdist.
  cbv zeta in Hoff.
  destruct (CalcBody.estimate_shoulder_positions u head_quat m) as [l r].
  destruct Hoff as (Hlo & Hro & Hn).
  exists u, l, r. simpl in Hl, Hr. repeat split; assumption.
Qed.

Lemma C9_shoulders_symmetric_about_upper_spine_witness :
  (0 <= 7 / 4)%R /\ quat_norm2 (mkQuat 0 0 0 1) = 1%R /\
  let m := AnthropometricModel_init (7 / 4) in
  let s := CalcBody.reconstruct_skeleton (mk3 0 0 0) (mkQuat 0 0 0 1)
             None None None None m in
  let right := col0 (CalcBody.quaternion_to_rotation_matrix (mkQuat 0 0 0 1)) in
  exists u l r,
    CalcBody.upper_spine s = Some u /\
    CalcBody.left_shoulder s = Some l /\ CalcBody.right_shoulder s = Some r /\
    l = vsub u (vscale right (shoulder_width m / 2)) /\
    r = vadd u (vscale right (shoulder_width m / 2)) /\
    norm right = 1%R /\
    vscale (vadd l r) (1 / 2) = u /\
    norm (vsub r l) = shoulder_width m.
Proof.
  assert (Hq : quat_norm2 (mkQuat 0 0 0 1) = 1%R) by (unfold quat_norm2; simpl; lra).
  split; [lra |]. split; [exact Hq |].
  apply (C9_shoulders_symmetric_about_upper_spine (7 / 4) (mk3 0 0 0) (mkQuat 0 0 0 1)
           None None None None); [lra | exact Hq].
Defined.

(** ** Angles ([AngleCalculator.calculate_angle_3_points]) *)

Section Angles.
Local Open Scope R_scope.
Import CalcJoin.

Lemma norm_zero_inv (a : vec3) : norm a = 0 -> a = mk3 0 0 0.
Proof.
  intros H. apply sqrt_eq_0 in H; [| apply dot_self_nonneg].
  destruct a as [x y z]. unfold dot in H. simpl in H.
  assert (x = 0) by nra. assert (y = 0) by nra. assert (z = 0) by nra.
  now subst.
Qed.

Lemma norm_vsub_nonzero (p v : vec3) : p <> v -> norm (vsub p v) <> 0.
Proof.
  intros Hne H. apply norm_zero_inv in H. apply Hne.
  destruct p, v. unfold vsub in H. simpl in H. injection H as H1 H2 H3.
  f_equal; lra.
Qed.

Lemma norm_vneg (a : vec3) : norm (vneg a) = norm a.
Proof. unfold norm. f_equal. unfold dot, vneg. simpl. ring. Qed.

Lemma np_degrees_acos_range (x : R) : 0 <= np_degrees (acos x) <= 180.
Proof.
  pose proof (acos_bound x) as [Hlo Hhi]. pose proof PI_RGT_0 as Hpi.
  unfold np_degrees.
  set (t := acos x / PI).
  assert (Ht : acos x = t * PI) by (unfold t; field; lra).
  replace (acos x * 180 / PI) with (180 * t) by (unfold t; field; lra).
  rewrite Ht in Hlo, Hhi. nra.
Qed.

Lemma np_degrees_0 : np_degrees 0 = 0.
Proof. unfold np_degrees. pose proof PI_RGT_0. field. lra. Qed.

Lemma np_degrees_PI : np_degrees PI = 180.
Proof. unfold np_degrees. pose proof PI_RGT_0. field. lra. Qed.

Lemma acos_minus_1 : acos (-1) = PI.
Proof. replace (-1) with (Ropp 1) by lra. rewrite acos_opp, acos_1. ring. Qed.

Lemma np_clip_inside (x : R) : -1 <= x <= 1 -> np_clip x (-1) 1 = x.
Proof.
  intros [Hlo Hhi]. unfold np_clip.
  rewrite Rmax_left by assumption. now apply Rmin_left.
Qed.

(** With two non-zero vectors the result is a real, given by the formula. *)
Lemma angle_of_arrays_finite (p1 p2 p3 : vec3) :
  norm (vsub p1 p2) <> 0 -> norm (vsub p3 p2) <> 0 ->
  angle_of_arrays p1 p2 p3 =
    Finite (np_degrees (acos (np_clip
      (dot (vsub p1 p2) (vsub p3 p2) / (norm (vsub p1 p2) * norm (vsub p3 p2))) (-1) 1))).
Proof.
  intros H1 H2. unfold angle_of_arrays.
  destruct (Req_dec_T _ 0) as [H0 | _]; [| reflexivity].
  apply Rmult_integral in H0. tauto.
Qed.

(** A vector of length zero gives NaN, not an exception. *)
Lemma angle_of_arrays_degenerate (p1 p2 p3 : vec3) :
  p1 = p2 \/ p3 = p2 -> calculate_angle_3_points (Some p1) (Some p2) (Some p3) = Ok NaN.
Proof.
  intros H. unfold calculate_angle_3_points, angle_of_arrays.
  destruct (Req_dec_T _ 0) as [_ | Hne]; [reflexivity |].
  exfalso. apply Hne.
  assert (Hz : forall p, norm (vsub p p) = 0).
  { intros p. unfold norm, dot, vsub. simpl.
    replace (_ + _) with 0 by ring. apply sqrt_0. }
  destruct H as [-> | ->]; rewrite Hz; ring.
Qed.

(** Two vectors along the same unit direction [d]: the angle is 0 when
    they point the same way and 180 when they point opposite ways. *)
Lemma angle_of_arrays_collinear (p1 p2 p3 d : vec3) (k1 k3 : R) :
  norm d = 1 -> vsub p1 p2 = vscale d k1 -> vsub p3 p2 = vscale d k3 ->
  (0 < k1 * k3 -> angle_of_arrays p1 p2 p3 = Finite 0) /\
  (k1 * k3 < 0 -> angle_of_arrays p1 p2 p3 = Finite 180).
Proof.
  intros Hd H1 H3.
  assert (Hdd : dot d d = 1) by (rewrite <- norm_sqr, Hd; ring).
  assert (Hdot : dot (vsub p1 p2) (vsub p3 p2) = k1 * k3).
  { rewrite H1, H3. unfold dot in *. unfold vscale. simpl.
    replace (_ + _) with (k1 * k3 * (vx d * vx d + vy d * vy d + vz d * vz d)) by ring.
    rewrite Hdd. ring. }
  assert (Hn1 : norm (vsub p1 p2) = Rabs k1) by (rewrite H1, norm_vscale, Hd; ring).
  assert (Hn3 : norm (vsub p3 p2) = Rabs k3) by (rewrite H3, norm_vscale, Hd; ring).
  assert (Hden : k1 * k3 <> 0 ->
            angle_of_arrays p1 p2 p3 =
            Finite (np_degrees (acos (np_clip (k1 * k3 / Rabs (k1 * k3)) (-1) 1)))).
  { intros Hk.
    assert (k1 <> 0 /\ k3 <> 0) as [Hk1 Hk3] by (split; intros ->; apply Hk; ring).
    rewrite angle_of_arrays_finite, Hdot, Hn1, Hn3, <- Rabs_mult; try reflexivity.
    - rewrite Hn1. now apply Rabs_no_R0.
    - rewrite Hn3. now apply Rabs_no_R0. }
  clear Hdot Hn1 Hn3. remember (k1 * k3) as k eqn:Ek. clear Ek.
  split; intros Hk; rewrite Hden by lra.
  - rewrite Rabs_pos_eq by lra.
    replace (k / k) with 1 by (field; lra).
    rewrite np_clip_inside by lra. now rewrite acos_1, np_degrees_0.
  - rewrite Rabs_left by lra.
    replace (k / - k) with (-1) by (field; lra).
    rewrite np_clip_inside by lra. now rewrite acos_minus_1, np_degrees_PI.
Qed.

Lemma vscale_normalized (a : vec3) : norm a <> 0 -> a = vscale (vdiv a (norm a)) (norm a).
Proof. intros H. destruct a. unfold vscale, vdiv. simpl. f_equal; field; exact H. Qed.
End Angles.

(** C7. For points [p1], [vertex], [p2] with [p1] and [p2] different from
    the vertex, [calculate_angle_3_points] returns a real number of
    degrees in [0, 180]: the value [degrees (acos (clip (dot / (|a| |b|)),
    -1, 1))].  It is 0 when [p1 = p2], and 180 when [p1 - vertex] and
    [p2 - vertex] are opposite unit vectors. *)
Theorem C7_angle_range_and_extremes (p1 vertex p2 : vec3) :
  p1 <> vertex -> p2 <> vertex ->
  exists a : R,
    CalcJoin.calculate_angle_3_points (Some p1) (Some vertex) (Some p2) = Ok (Finite a) /\
    a = np_degrees (acos (np_clip
          (dot (vsub p1 vertex) (vsub p2 vertex) /
             (norm (vsub p1 vertex) * norm (vsub p2 vertex))) (-1) 1)) /\
    (0 <= a <= 180)%R /\
    (p1 = p2 -> a = 0%R) /\
    (norm (vsub p1 vertex) = 1%R -> vsub p2 vertex = vneg (vsub p1 vertex) -> a = 180%R).
Proof.
  intros H1 H2.
  pose proof (norm_vsub_nonzero p1 vertex H1) as Hn1.
  pose proof (norm_vsub_nonzero p2 vertex H2) as Hn2.
  pose proof (angle_of_arrays_finite p1 vertex p2 Hn1 Hn2) as Hfin.
  eexists. split; [unfold CalcJoin.calculate_angle_3_points; rewrite Hfin; reflexivity |].
  split; [reflexivity |]. split; [apply np_degrees_acos_range |]. split.
  - intros <-.
    pose proof (norm_normalized _ Hn1) as Hunit.
    pose proof (vscale_normalized _ Hn1) as Hv.
    destruct (angle_of_arrays_collinear p1 vertex p1 _ _ _ Hunit Hv Hv) as [H0 _].
    rewrite Hfin in H0.
    assert (Hpos : (0 < norm (vsub p1 vertex) * norm (vsub p1 vertex))%R).
    { pose proof (norm_nonneg (vsub p1 vertex)). nra. }
    specialize (H0 Hpos). now injection H0.
  - intros Hunit Hopp.
    assert (Hv1 : vsub p1 vertex = vscale (vsub p1 vertex) 1).
    { destruct (vsub p1 vertex). unfold vscale. simpl. f_equal; ring. }
    assert (Hv2 : vsub p2 vertex = vscale (vsub p1 vertex) (-1)).
    { rewrite Hopp. destruct (vsub p1 vertex). unfold vscale, vneg. simpl. f_equal; ring. }
    destruct (angle_of_arrays_collinear p1 vertex p2 _ _ _ Hunit Hv1 Hv2) as [_ H180].
    rewrite Hfin in H180.
    assert (Hneg : (1 * -1 < 0)%R) by lra.
    specialize (H180 Hneg). now injection H180.
Qed.

Lemma C7_angle_range_and_extremes_witness :
  mk3 1 0 0 <> mk3 0 0 0 /\ mk3 (-1) 0 0 <> mk3 0 0 0 /\
  exists a : R,
    CalcJoin.calculate_angle_3_points
      (Some (mk3 1 0 0)) (Some (mk3 0 0 0)) (Some (mk3 (-1) 0 0)) = Ok (Finite a) /\
    a = np_degrees (acos (np_clip
          (dot (vsub (mk3 1 0 0) (mk3 0 0 0)) (vsub (mk3 (-1) 0 0) (mk3 0 0 0)) /
             (norm (vsub (mk3 1 0 0) (mk3 0 0 0)) *
              norm (vsub (mk3 (-1) 0 0) (mk3 0 0 0)))) (-1) 1)) /\
    (0 <= a <= 180)%R /\
    (mk3 1 0 0 = mk3 (-1) 0 0 -> a = 0%R) /\
    (norm (vsub (mk3 1 0 0) (mk3 0 0 0)) = 1%R ->
     vsub (mk3 (-1) 0 0) (mk3 0 0 0) = vneg (vsub (mk3 1 0 0) (mk3 0 0 0)) -> a = 180%R).
Proof.
  assert (H1 : mk3 1 0 0 <> mk3 0 0 0) by (intros [= H]; lra).
  assert (H2 : mk3 (-1) 0 0 <> mk3 0 0 0) by (intros [= H]; lra).
  split; [exact H1 |]. split; [exact H2 |].
  exact (C7_angle_range_and_extremes (mk3 1 0 0) (mk3 0 0 0) (mk3 (-1) 0 0) H1 H2).
Defined.

(** ** The [try] block ([AngleCalculator.calculate_skeleton_angles]) *)

Lemma calculate_skeleton_angles_run (joints : gmap string pyvec) :
  CalcJoin.calculate_skeleton_angles joints = run_try joints angle_specs ∅.
Proof. reflexivity. Qed.

Section TryBlock.
Variable joints : gmap string pyvec.

Lemma angle_stmt_outcome (sp : AngleSpec) (angles : gmap string npfloat) :
  CalcJoin.angle_stmt joints (a_name sp) (a_p1 sp) (a_p2 sp) (a_p3 sp) angles =
  match outcome joints sp with
  | None => Ok angles
  | Some (Ok a) => Ok (<[a_name sp := a]> angles)
  | Some (Raise e) => Raise e
  end.
Proof.
  unfold CalcJoin.angle_stmt, outcome.
  destruct (joints !! a_p1 sp), (joints !! a_p2 sp), (joints !! a_p3 sp);
    try reflexivity; try (now destruct (CalcJoin.calculate_angle_3_points _ _ _)).
Qed.

Lemma run_try_cons (sp : AngleSpec) (rest : list AngleSpec) (angles : gmap string npfloat) :
  run_try joints (sp :: rest) angles =
  match outcome joints sp with
  | None => run_try joints rest angles
  | Some (Ok a) => run_try joints rest (<[a_name sp := a]> angles)
  | Some (Raise e) => angles
  end.
Proof.
  cbn [run_try]. unfold CalcJoin.try_then. rewrite angle_stmt_outcome.
  now destruct (outcome joints sp) as [[a | e] |].
Qed.

(** The statements after the first one that raises are not run. *)
Lemma run_try_stops (pre post : list AngleSpec) (sp : AngleSpec)
    (angles : gmap string npfloat) :
  Forall (fun s => ~ fails joints s) pre -> fails joints sp ->
  run_try joints (pre ++ sp :: post) angles = run_try joints pre angles.
Proof.
  intros Hpre [e He]. revert angles.
  induction Hpre as [| s pre Hs _ IH]; intros angles.
  - cbn [app]. rewrite run_try_cons, He. reflexivity.
  - cbn [app]. rewrite !run_try_cons.
    destruct (outcome joints s) as [[a | e'] |] eqn:Es; auto.
Qed.

(** A name that no statement of the list writes keeps its entry. *)
Lemma run_try_untouched (specs : list AngleSpec) (angles : gmap string npfloat) (n : string) :
  Forall (fun s => a_name s = n -> outcome joints s = None) specs ->
  run_try joints specs angles !! n = angles !! n.
Proof.
  intros H. revert angles. induction H as [| s specs Hs _ IH]; intros angles.
  - reflexivity.
  - rewrite run_try_cons.
    destruct (outcome joints s) as [[a | e] |] eqn:Es; [| reflexivity | apply IH].
    rewrite IH. apply lookup_insert_ne. intros Hn. specialize (Hs Hn). congruence.
Qed.

(** Without a failure, every statement whose guard holds leaves its angle. *)
Lemma run_try_computed (specs : list AngleSpec) (angles : gmap string npfloat)
    (sp : AngleSpec) (a : npfloat) :
  NoDup (a_name <$> specs) -> Forall (fun s => ~ fails joints s) specs ->
  sp ∈ specs -> outcome joints sp = Some (Ok a) ->
  run_try joints specs angles !! a_name sp = Some a.
Proof.
  intros Hnd Hok Hin Ha. revert angles.
  induction specs as [| s specs IH]; intros angles; [by apply elem_of_nil in Hin |].
  apply NoDup_cons in Hnd as [Hs Hnd]. apply Forall_cons in Hok as [Hsok Hok].
  rewrite run_try_cons.
  apply elem_of_cons in Hin as [<- | Hin].
  - rewrite Ha, run_try_untouched; [apply lookup_insert_eq |].
    apply Forall_forall. intros s' Hs' Heq. exfalso. apply Hs.
    rewrite <- Heq. apply list_elem_of_fmap. eauto.
  - destruct (outcome joints s) as [[a' | e] |] eqn:Es; auto.
    exfalso. apply Hsok. now exists e.
Qed.
End TryBlock.

Lemma angle_specs_names_NoDup : NoDup (a_name <$> angle_specs).
Proof. compute_done. Qed.

Lemma NoDup_fmap_elem_inj {A B : Type} (f : A -> B) (l : list A) (x y : A) :
  NoDup (f <$> l) -> x ∈ l -> y ∈ l -> f x = f y -> x = y.
Proof.
  induction l as [| z l IH]; intros Hnd Hx Hy Hf; [by apply elem_of_nil in Hx |].
  cbn in Hnd. apply NoDup_cons in Hnd as [Hz Hnd].
  apply elem_of_cons in Hx as [-> | Hx]; apply elem_of_cons in Hy as [-> | Hy]; auto.
  - exfalso. apply Hz. rewrite Hf. apply list_elem_of_fmap. eauto.
  - exfalso. apply Hz. rewrite <- Hf. apply list_elem_of_fmap. eauto.
Qed.

(** A statement raises exactly when its three keys are in the dictionary
    and one of the three values is [None]. *)
Lemma fails_iff_none_value (joints : gmap string pyvec) (sp : AngleSpec) :
  fails joints sp <->
  exists p1 p2 p3,
    joints !! a_p1 sp = Some p1 /\ joints !! a_p2 sp = Some p2 /\
    joints !! a_p3 sp = Some p3 /\ (p1 = None \/ p2 = None \/ p3 = None).
Proof.
  unfold fails, outcome. split.
  - intros [e He].
    destruct (joints !! a_p1 sp) as [p1 |]; [| discriminate].
    destruct (joints !! a_p2 sp) as [p2 |]; [| discriminate].
    destruct (joints !! a_p3 sp) as [p3 |]; [| discriminate].
    exists p1, p2, p3. repeat split.
    destruct p1; [| tauto]. destruct p2; [| tauto]. destruct p3; [| tauto].
    discriminate.
  - intros (p1 & p2 & p3 & -> & -> & -> & H). exists TypeError.
    destruct H as [-> | [-> | ->]]; [| destruct p1 | destruct p1, p2]; reflexivity.
Qed.

(** C8, as the script behaves.  The five angle statements sit in one
    [try] block.  When a statement raises, the exception is caught and the
    function still returns a dictionary, but the angle that raised and
    every angle after it in the order (left elbow, right elbow, left
    shoulder, right shoulder, spine bend) are absent from it; an angle
    before it is present exactly when its three joints are in [joints],
    with the value computed for it. *)
Theorem C8_failure_drops_the_rest (joints : gmap string pyvec)
    (pre post : list AngleSpec) (sp : AngleSpec) :
  angle_specs = pre ++ sp :: post ->
  Forall (fun s => ~ fails joints s) pre ->
  fails joints sp ->
  let angles := CalcJoin.calculate_skeleton_angles joints in
  (forall s, s ∈ sp :: post -> angles !! a_name s = None) /\
  (forall s a, s ∈ pre -> outcome joints s = Some (Ok a) -> angles !! a_name s = Some a) /\
  (forall s, s ∈ pre -> outcome joints s = None -> angles !! a_name s = None).
Proof.
  intros Hsplit Hpre Hfail angles. subst angles.
  rewrite calculate_skeleton_angles_run, Hsplit, run_try_stops by assumption.
  pose proof angle_specs_names_NoDup as Hnd. rewrite Hsplit, fmap_app in Hnd.
  apply NoDup_app in Hnd as (Hnd_pre & Hdisj & _).
  split; [| split].
  - intros s Hs. rewrite run_try_untouched; [apply lookup_empty |].
    apply Forall_forall. intros s' Hs' Heq. exfalso.
    apply (Hdisj (a_name s')); [apply list_elem_of_fmap; eauto |].
    rewrite Heq. apply list_elem_of_fmap. eauto.
  - intros s a Hs Ha. now apply run_try_computed.
  - intros s Hs Hnone. rewrite run_try_untouched; [apply lookup_empty |].
    apply Forall_forall. intros s' Hs' Heq.
    now rewrite (NoDup_fmap_elem_inj a_name pre s' s Hnd_pre Hs' Hs Heq).
Qed.

(** Lookups in a dictionary written as a chain of inserts. *)
Ltac dict_lookup :=
  repeat (rewrite lookup_insert_ne by discriminate);
  first [rewrite lookup_insert_eq | rewrite lookup_empty]; try reflexivity.

Lemma example_joints_outcome_left_elbow (w : pyvec) :
  exists a, outcome (example_joints w) (mkAngleSpec "left_elbow_angle" "left_shoulder"
                                           "left_elbow" "left_wrist") = Some (Ok a).
Proof.
  unfold outcome, example_joints. cbn [a_p1 a_p2 a_p3].
  eexists.
  replace (_ !! "left_shoulder") with (Some (Some (mk3 (-1) 1 0))) by (symmetry; dict_lookup).
  replace (_ !! "left_elbow") with (Some (Some (mk3 (-1) 0 0))) by (symmetry; dict_lookup).
  replace (_ !! "left_wrist") with (Some (Some (mk3 (-1) 0 1))) by (symmetry; dict_lookup).
  reflexivity.
Qed.

Lemma example_joints_fails_right_elbow :
  fails (example_joints None) (mkAngleSpec "right_elbow_angle" "right_shoulder"
                                 "right_elbow" "right_wrist").
Proof.
  apply fails_iff_none_value. cbn [a_p1 a_p2 a_p3].
  exists (Some (mk3 1 1 0)), (Some (mk3 1 0 0)), None. unfold example_joints.
  repeat split; [dict_lookup .. | tauto].
Qed.

Lemma example_joints_spine_computable (w : pyvec) :
  outcome (example_joints w) (mkAngleSpec "spine_bend_angle" "neck" "mid_spine" "lower_spine")
  = Some (Ok (Finite 180)).
Proof.
  unfold outcome, example_joints. cbn [a_p1 a_p2 a_p3].
  replace (_ !! "neck") with (Some (Some (mk3 0 2 0))) by (symmetry; dict_lookup).
  replace (_ !! "mid_spine") with (Some (Some (mk3 0 0 0))) by (symmetry; dict_lookup).
  replace (_ !! "lower_spine") with (Some (Some (mk3 0 (-1) 0))) by (symmetry; dict_lookup).
  unfold CalcJoin.calculate_angle_3_points. do 2 f_equal.
  assert (Hd : norm (mk3 0 1 0) = 1%R).
  { unfold norm, dot. simpl. replace (_ + _)%R with 1%R by ring. apply sqrt_1. }
  apply (angle_of_arrays_collinear _ _ _ (mk3 0 1 0) 2 (-1) Hd).
  - unfold vsub, vscale. simpl. f_equal; ring.
  - unfold vsub, vscale. simpl. f_equal; ring.
  - lra.
Qed.

Lemma C8_failure_drops_the_rest_witness :
  let s1 := mkAngleSpec "left_elbow_angle" "left_shoulder" "left_elbow" "left_wrist" in
  let s2 := mkAngleSpec "right_elbow_angle" "right_shoulder" "right_elbow" "right_wrist" in
  let post :=
    [ mkAngleSpec "left_shoulder_angle" "upper_spine" "left_shoulder" "left_elbow";
      mkAngleSpec "right_shoulder_angle" "upper_spine" "right_shoulder" "right_elbow";
      mkAngleSpec "spine_bend_angle" "neck" "mid_spine" "lower_spine" ] in
  angle_specs = [s1] ++ s2 :: post /\
  Forall (fun s => ~ fails (example_joints None) s) [s1] /\
  fails (example_joints None) s2 /\
  let angles := CalcJoin.calculate_skeleton_angles (example_joints None) in
  (forall s, s ∈ s2 :: post -> angles !! a_name s = None) /\
  (forall s a, s ∈ [s1] -> outcome (example_joints None) s = Some (Ok a) ->
               angles !! a_name s = Some a) /\
  (forall s, s ∈ [s1] -> outcome (example_joints None) s = None ->
             angles !! a_name s = None).
Proof.
  intros s1 s2 post.
  assert (H1 : angle_specs = [s1] ++ s2 :: post) by reflexivity.
  assert (H2 : Forall (fun s => ~ fails (example_joints None) s) [s1]).
  { apply Forall_cons. split; [| apply Forall_nil_2].
    intros [e He]. destruct (example_joints_outcome_left_elbow None) as [a Ha].
    unfold s1 in He. congruence. }
  pose proof example_joints_fails_right_elbow as H3.
  split; [exact H1 |]. split; [exact H2 |]. split; [exact H3 |].
  exact (C8_failure_drops_the_rest (example_joints None) [s1] post s2 H1 H2 H3).
Defined.

(** C8 as stated fails: with ["right_wrist"] holding [None] the right
    elbow angle raises; the spine bend angle, whose three joints are
    present and whose computation gives 180, is not returned. *)
Lemma C8_later_angles_lost :
  fails (example_joints None)
    (mkAngleSpec "right_elbow_angle" "right_shoulder" "right_elbow" "right_wrist") /\
  outcome (example_joints None)
    (mkAngleSpec "spine_bend_angle" "neck" "mid_spine" "lower_spine")
    = Some (Ok (Finite 180)) /\
  CalcJoin.calculate_skeleton_angles (example_joints None) !! "spine_bend_angle" = None.
Proof.
  split; [apply example_joints_fails_right_elbow |].
  split; [apply example_joints_spine_computable |].
  rewrite calculate_skeleton_angles_run.
  change angle_specs with
    ([mkAngleSpec "left_elbow_angle" "left_shoulder" "left_elbow" "left_wrist"] ++
     mkAngleSpec "right_elbow_angle" "right_shoulder" "right_elbow" "right_wrist" ::
     [ mkAngleSpec "left_shoulder_angle" "upper_spine" "left_shoulder" "left_elbow";
       mkAngleSpec "right_shoulder_angle" "upper_spine" "right_shoulder" "right_elbow";
       mkAngleSpec "spine_bend_angle" "neck" "mid_spine" "lower_spine" ]).
  rewrite run_try_stops.
  - rewrite run_try_untouched; [apply lookup_empty |].
    apply Forall_cons. split; [discriminate | apply Forall_nil_2].
  - apply Forall_cons. split; [| apply Forall_nil_2].
    intros [e He]. destruct (example_joints_outcome_left_elbow None) as [a Ha]. congruence.
  - apply example_joints_fails_right_elbow.
Qed.

(** ** The spine bend angle *)

Section SpineBend.
Local Open Scope R_scope.

(** Both scripts define the same functions for the spine. *)
Lemma CalcJoin_rotation_matrix_same (q : quat) :
  CalcJoin.quaternion_to_rotation_matrix q = CalcBody.quaternion_to_rotation_matrix q.
Proof. reflexivity. Qed.

Lemma CalcJoin_down_vector_same (q : quat) :
  CalcJoin.get_down_vector q = CalcBody.get_down_vector q.
Proof. reflexivity. Qed.

Lemma CalcJoin_spine_same (m : AnthropometricModel) (neck_pos : vec3) (q : quat) :
  CalcJoin.estimate_spine_positions m neck_pos q =
  CalcBody.estimate_spine_positions neck_pos q m.
Proof. reflexivity. Qed.

Lemma down_vector_unit (q : quat) : quat_norm2 q = 1 -> norm (CalcBody.get_down_vector q) = 1.
Proof.
  intros Hq. unfold CalcBody.get_down_vector. cbv zeta.
  apply norm_normalized. rewrite norm_vneg, col1_unit by assumption. lra.
Qed.

(** The chain neck, upper, mid, lower along the down vector [d]. *)
Lemma spine_chain_offsets (m : AnthropometricModel) (neck_pos : vec3) (q : quat) :
  let d := CalcBody.get_down_vector q in
  let '(upper, mid, lower) := CalcBody.estimate_spine_positions neck_pos q m in
  vsub neck_pos mid = vscale d (- (upper_spine_length m + mid_spine_length m)) /\
  vsub lower mid = vscale d (lower_spine_length m).
Proof.
  unfold CalcBody.estimate_spine_positions. cbv zeta.
  destruct (CalcBody.get_down_vector q) as [dx dy dz], neck_pos as [nx ny nz].
  unfold vsub, vadd, vscale. simpl. split; f_equal; ring.
Qed.

(** Neck, mid spine and lower spine of one frame give the angle 180. *)
Lemma spine_bend_is_180 (height_m : R) (neck_pos : vec3) (q : quat) :
  height_m <> 0 -> quat_norm2 q = 1 ->
  let m := AnthropometricModel_init height_m in
  let '(upper, mid, lower) := CalcBody.estimate_spine_positions neck_pos q m in
  CalcJoin.angle_of_arrays neck_pos mid lower = Finite 180.
Proof.
  intros Hh Hq m.
  pose proof (spine_chain_offsets m neck_pos q) as Hoff. cbv zeta in Hoff.
  destruct (CalcBody.estimate_spine_positions neck_pos q m) as [[upper mid] lower].
  destruct Hoff as [H1 H3].
  apply (angle_of_arrays_collinear _ _ _ _ _ _ (down_vector_unit q Hq) H1 H3).
  simpl. nra.
Qed.
End SpineBend.

(** The dictionary built by [CalcJoin.reconstruct_skeleton] holds a
    3-vector under every key it has. *)
Lemma reconstruct_skeleton_values (m : AnthropometricModel) (head_pos : vec3) (q : quat)
    (lw rw lf rf : vec3) :
  map_Forall (fun _ v => is_Some v)
    (CalcJoin.reconstruct_skeleton m head_pos q lw rw lf rf).
Proof.
  unfold CalcJoin.reconstruct_skeleton.
  destruct (CalcJoin.estimate_spine_positions _ _ _) as [[upper mid] lower].
  destruct (CalcJoin.estimate_shoulder_positions _ _ _) as [l r].
  cbv zeta.
  repeat (apply map_Forall_insert_2; [eauto |]).
  apply map_Forall_empty.
Qed.

Lemma reconstruct_skeleton_spine_keys (m : AnthropometricModel) (head_pos : vec3) (q : quat)
    (lw rw lf rf : vec3) :
  let joints := CalcJoin.reconstruct_skeleton m head_pos q lw rw lf rf in
  let nk := CalcBody.estimate_neck_position head_pos q m in
  let sp := CalcBody.estimate_spine_positions nk q m in
  joints !! "neck" = Some (Some nk) /\
  joints !! "mid_spine" = Some (Some sp.1.2) /\
  joints !! "lower_spine" = Some (Some sp.2).
Proof.
  cbv zeta. unfold CalcJoin.reconstruct_skeleton.
  change (CalcJoin.estimate_neck_position m head_pos q)
    with (CalcBody.estimate_neck_position head_pos q m).
  rewrite CalcJoin_spine_same.
  destruct (CalcBody.estimate_spine_positions _ _ _) as [[upper mid] lower].
  destruct (CalcJoin.estimate_shoulder_positions _ _ _) as [l r].
  cbv zeta. cbn [fst snd].
  repeat split; dict_lookup.
Qed.

Lemma no_failure_without_none (joints : gmap string pyvec) (sp : AngleSpec) :
  map_Forall (fun _ v => is_Some v) joints -> ~ fails joints sp.
Proof.
  intros Hall Hf. apply fails_iff_none_value in Hf
    as (p1 & p2 & p3 & H1 & H2 & H3 & Hnone).
  apply Hall in H1 as [? ->], H2 as [? ->], H3 as [? ->].
  destruct Hnone as [? | [? | ?]]; discriminate.
Qed.

(** C10. In a frame reconstructed from a unit head quaternion and the
    model of a non-zero height, neck, mid spine and lower spine lie on the
    line through the neck along the single down vector [d] of the frame,
    the mid spine strictly between the two others, and
    [calculate_skeleton_angles] returns exactly 180 for
    ["spine_bend_angle"], whatever the head pose and the hand landmarks. *)
Theorem C10_spine_bend_angle_is_180 (height_m : R) (head_pos : vec3) (head_quat : quat)
    (lw rw lf rf : vec3) :
  height_m <> 0%R -> quat_norm2 head_quat = 1%R ->
  let m := AnthropometricModel_init height_m in
  let joints := CalcJoin.reconstruct_skeleton m head_pos head_quat lw rw lf rf in
  let d := CalcJoin.get_down_vector head_quat in
  exists nk mid lower,
    joints !! "neck" = Some (Some nk) /\
    joints !! "mid_spine" = Some (Some mid) /\
    joints !! "lower_spine" = Some (Some lower) /\
    norm d = 1%R /\
    vsub nk mid = vscale d (- (20 / 100 * height_m)) /\
    vsub lower mid = vscale d (10 / 100 * height_m) /\
    CalcJoin.calculate_skeleton_angles joints !! "spine_bend_angle" = Some (Finite 180).
Proof.
  intros Hh Hq m joints d.
  destruct (reconstruct_skeleton_spine_keys m head_pos head_quat lw rw lf rf)
    as (Hnk & Hmid & Hlow).
  fold joints in Hnk, Hmid, Hlow.
  set (nk := CalcBody.estimate_neck_position head_pos head_quat m) in *.
  pose proof (spine_chain_offsets m nk head_quat) as Hoff.
  pose proof (spine_bend_is_180 height_m nk head_quat Hh Hq) as H180.
  cbv zeta in Hoff, H180. fold m in H180.
  destruct (CalcBody.estimate_spine_positions nk head_quat m) as [[upper mid] lower].
  cbn [fst snd] in Hmid, Hlow. destruct Hoff as [H1 H3].
  exists nk, mid, lower.
  split; [exact Hnk |]. split; [exact Hmid |]. split; [exact Hlow |].
  split; [apply down_vector_unit, Hq |].
  split; [rewrite H1; f_equal; simpl; lra |].
  split; [rewrite H3; f_equal |].
  rewrite calculate_skeleton_angles_run.
  apply (run_try_computed joints angle_specs ∅
           (mkAngleSpec "spine_bend_angle" "neck" "mid_spine" "lower_spine")).
  - apply angle_specs_names_NoDup.
  - apply Forall_forall. intros s _.
    apply no_failure_without_none, reconstruct_skeleton_values.
  - set_solver.
  - unfold outcome. cbn [a_p1 a_p2 a_p3]. rewrite Hnk, Hmid, Hlow.
    unfold CalcJoin.calculate_angle_3_points. now rewrite H180.
Qed.

Lemma C10_spine_bend_angle_is_180_witness :
  (7 / 4 <> 0)%R /\ quat_norm2 (mkQuat 0 0 0 1) = 1%R /\
  let m := AnthropometricModel_init (7 / 4) in
  let joints := CalcJoin.reconstruct_skeleton m (mk3 0 0 0) (mkQuat 0 0 0 1)
                  (mk3 (-1) 0 1) (mk3 1 0 1) (mk3 (-1) 0 0) (mk3 1 0 0) in
  let d := CalcJoin.get_down_vector (mkQuat 0 0 0 1) in
  exists nk mid lower,
    joints !! "neck" = Some (Some nk) /\
    joints !! "mid_spine" = Some (Some mid) /\
    joints !! "lower_spine" = Some (Some lower) /\
    norm d = 1%R /\
    vsub nk mid = vscale d (- (20 / 100 * (7 / 4))) /\
    vsub lower mid = vscale d (10 / 100 * (7 / 4)) /\
    CalcJoin.calculate_skeleton_angles joints !! "spine_bend_angle" = Some (Finite 180).
Proof.
  assert (Hh : (7 / 4 <> 0)%R) by lra.
  assert (Hq : quat_norm2 (mkQuat 0 0 0 1) = 1%R) by (unfold quat_norm2; simpl; lra).
  split; [exact Hh |]. split; [exact Hq |].
  exact (C10_spine_bend_angle_is_180 (7 / 4) (mk3 0 0 0) (mkQuat 0 0 0 1)
           (mk3 (-1) 0 1) (mk3 1 0 1) (mk3 (-1) 0 0) (mk3 1 0 0) Hh Hq).
Defined.

(** ** Clipping and the order of timestamps *)

(** Order goals on canonical rationals, through the rationals under them. *)
Ltac qc_order :=
  try apply Qc_is_canon; unfold Qcle, Qclt in *; Lqa.lra.

Section Timestamps.
Local Open Scope Qc_scope.

Lemma qc_min_spec (a b : Qc) : (a ≤ b ∧ qc_min a b = a) ∨ (b < a ∧ qc_min a b = b).
Proof.
  unfold qc_min. case_decide; [left | right]; split; auto.
  now apply Qcnot_le_lt.
Qed.

Lemma qc_max_spec (a b : Qc) : (a ≤ b ∧ qc_max a b = b) ∨ (b < a ∧ qc_max a b = a).
Proof.
  unfold qc_max. case_decide; [left | right]; split; auto.
  now apply Qcnot_le_lt.
Qed.

Lemma clip_in_range (lo hi t : Qc) :
  lo ≤ hi -> lo ≤ qc_min hi (qc_max t lo) ∧ qc_min hi (qc_max t lo) ≤ hi.
Proof.
  intros Hr.
  destruct (qc_max_spec t lo) as [[H1 ->] | [H1 ->]];
    [destruct (qc_min_spec hi lo) as [[H2 ->] | [H2 ->]]
    | destruct (qc_min_spec hi t) as [[H2 ->] | [H2 ->]]];
    split; qc_order.
Qed.

(** [np.clip] sends a time to the nearest time of the range. *)
Lemma clip_nearest (lo hi t : Qc) :
  lo ≤ hi -> qc_min hi (qc_max t lo) = nearest_in_range lo hi t.
Proof.
  intros Hr. unfold nearest_in_range.
  destruct (qc_max_spec t lo) as [[H1 ->] | [H1 ->]];
    [destruct (qc_min_spec hi lo) as [[H2 ->] | [H2 ->]]
    | destruct (qc_min_spec hi t) as [[H2 ->] | [H2 ->]]];
    repeat case_decide; qc_order.
Qed.

Lemma nearest_in_range_idem (lo hi t : Qc) :
  lo ≤ hi -> nearest_in_range lo hi (nearest_in_range lo hi t) = nearest_in_range lo hi t.
Proof. intros Hr. unfold nearest_in_range. repeat case_decide; qc_order. Qed.

Lemma np_clip_times_nearest (lo hi : Qc) (a : list Qc) :
  lo ≤ hi -> np_clip_times a lo hi = nearest_in_range lo hi <$> a.
Proof.
  intros Hr. unfold np_clip_times. apply list_fmap_ext.
  intros _ t _. now apply clip_nearest.
Qed.

Lemma foldl_qc_min_le (x : Qc) (rest : list Qc) : foldl qc_min x rest ≤ x.
Proof.
  revert x. induction rest as [| y rest IH]; intros x; cbn; [apply Qcle_refl |].
  eapply Qcle_trans; [apply IH |].
  destruct (qc_min_spec x y) as [[H ->] | [H ->]]; qc_order.
Qed.

Lemma foldl_qc_max_ge (x : Qc) (rest : list Qc) : x ≤ foldl qc_max x rest.
Proof.
  revert x. induction rest as [| y rest IH]; intros x; cbn; [apply Qcle_refl |].
  eapply Qcle_trans; [| apply IH].
  destruct (qc_max_spec x y) as [[H ->] | [H ->]]; qc_order.
Qed.

Lemma min_le_max (a : list Qc) (lo hi : Qc) :
  ndarray_min a = Ok lo -> ndarray_max a = Ok hi -> lo ≤ hi.
Proof.
  destruct a as [| x rest]; [discriminate |]. cbn. intros [= <-] [= <-].
  eapply Qcle_trans; [apply foldl_qc_min_le | apply foldl_qc_max_ge].
Qed.

(** On strictly increasing times the minimum is the first time and the
    maximum the last one. *)
Lemma sorted_min_first (x : Qc) (rest : list Qc) :
  StronglySorted Qclt (x :: rest) -> foldl qc_min x rest = x.
Proof.
  intros H. apply StronglySorted_inv in H as [_ Hx].
  induction rest as [| y rest IH]; [reflexivity |].
  apply Forall_cons in Hx as [Hy Hx]. cbn.
  destruct (qc_min_spec x y) as [[_ ->] | [H' _]]; [auto | qc_order].
Qed.

Lemma last_nonempty_default {A : Type} (z : A) (r : list A) (a b : A) :
  List.last (z :: r) a = List.last (z :: r) b.
Proof. revert z. induction r as [| y r IH]; intros z; [reflexivity | apply (IH y)]. Qed.

Lemma sorted_max_last (x : Qc) (rest : list Qc) :
  StronglySorted Qclt (x :: rest) -> foldl qc_max x rest = List.last rest x.
Proof.
  revert x. induction rest as [| y rest IH]; intros x H; [reflexivity |].
  apply StronglySorted_inv in H as [Hs Hx].
  apply Forall_cons in Hx as [Hy _]. cbn [foldl].
  destruct (qc_max_spec x y) as [[_ ->] | [H' _]]; [| qc_order].
  rewrite IH by assumption.
  destruct rest as [| z r]; [reflexivity |].
  change (List.last (y :: z :: r) x) with (List.last (z :: r) x).
  apply last_nonempty_default.
Qed.

Lemma any_step_not_positive_false (times : list Qc) :
  any_step_not_positive times = false <-> Sorted Qclt times.
Proof.
  induction times as [| x [| y rest] IH]; cbn.
  - split; auto.
  - split; auto.
  - rewrite orb_false_iff, bool_decide_eq_false, IH. split.
    + intros [Hxy Hs]. constructor; [exact Hs |]. constructor. now apply Qcnot_le_lt.
    + intros H. apply Sorted_inv in H as [Hs Hhd]. split; [| exact Hs].
      apply HdRel_inv in Hhd. now apply Qclt_not_le.
Qed.

Lemma sorted_times_NoDup (times : list Qc) : Sorted Qclt times -> NoDup times.
Proof.
  intros H. apply Sorted_StronglySorted in H; [| apply _].
  induction H as [| x l _ IH Hx]; constructor; auto.
  intros Hin. rewrite Forall_forall in Hx. specialize (Hx x Hin). qc_order.
Qed.
End Timestamps.

(** ** Resampling ([interpolate_head_data]) *)

Section ResamplerFacts.
Local Open Scope Qc_scope.
Variable cubic_spline : list (Qc * R) -> Qc -> R.
Variable slerp : list (Qc * quat) -> Qc -> quat.

(** Every exception of the function is a [ValueError]. *)
Lemma interpolate_head_data_raises_ValueError (dev : list DeviceRow) (hs : list Qc) (e : exn) :
  interpolate_head_data cubic_spline slerp dev hs = Raise e -> e = ValueError.
Proof.
  unfold interpolate_head_data, interp1d_cubic, Rotation_from_quat, Slerp, Slerp_call.
  destruct (ndarray_min _) as [lo | e1] eqn:Emin;
    [| destruct (d_t_mono <$> dev); [cbn in *; congruence | discriminate]].
  destruct (ndarray_max _) as [hi | e2] eqn:Emax;
    [| destruct (d_t_mono <$> dev); [cbn in *; congruence | discriminate]].
  cbn.
  repeat (case_decide; cbn; try congruence).
  destruct (any_step_not_positive _); cbn; try congruence.
  destruct (d_t_mono <$> dev); cbn; try congruence.
  case_decide; cbn; congruence.
Qed.

(** A stream the library calls accept is resampled, one pose per query. *)
Lemma interpolate_head_data_accepted (dev : list DeviceRow) (hs : list Qc) :
  stream_accepted dev ->
  exists ps os, interpolate_head_data cubic_spline slerp dev hs = Ok (ps, os) /\
                length ps = length hs /\ length os = length hs.
Proof.
  intros (Hlen & Hsorted & Hquat).
  unfold interpolate_head_data, interp1d_cubic, Rotation_from_quat, Slerp, Slerp_call.
  assert (Hlen' : length (d_t_mono <$> dev) = length dev) by apply length_fmap.
  pose proof (sorted_times_NoDup _ Hsorted) as Hnd.
  pose proof (proj2 (any_step_not_positive_false _) Hsorted) as Hstep.
  apply Sorted_StronglySorted in Hsorted; [| apply _].
  destruct (d_t_mono <$> dev) as [| t0 rest] eqn:Ets; rewrite ?Ets in *;
    [cbn in Hlen'; lia |].
  cbn [ndarray_min ndarray_max mbind result_bind].
  rewrite sorted_min_first, sorted_max_last by assumption.
  destruct (decide (length (t0 :: rest) < 4)%nat) as [Hbad | _];
    [rewrite Hlen' in Hbad; lia |].
  destruct (decide (NoDup (t0 :: rest))) as [_ | Hbad]; [| contradiction].
  cbn [mbind result_bind].
  destruct (decide (Forall _ (d_orientation <$> dev))) as [_ | Hbad];
    [| exfalso; apply Hbad; now apply Forall_fmap].
  cbn [mbind result_bind].
  destruct (decide (length (quat_normalize <$> (d_orientation <$> dev)) < 2)%nat)
    as [Hbad | _]; [rewrite !length_fmap in Hbad; lia |].
  rewrite Hstep. cbn [mbind result_bind sl_times sl_rotations].
  assert (Hr : t0 ≤ List.last rest t0).
  { rewrite <- sorted_max_last by assumption. apply foldl_qc_max_ge. }
  destruct (decide (Forall _ (np_clip_times hs t0 (List.last rest t0)))) as [_ | Hbad].
  - eexists _, _. split; [reflexivity |].
    unfold np_clip_times. now rewrite !length_fmap.
  - exfalso. apply Hbad.
    unfold np_clip_times. apply Forall_fmap, Forall_forall. intros t _.
    now apply clip_in_range.
Qed.

(** Conversely a resampled stream passed every check. *)
Lemma interpolate_head_data_ok_inv (dev : list DeviceRow) (hs : list Qc)
    (r : list vec3 * list quat) :
  interpolate_head_data cubic_spline slerp dev hs = Ok r -> stream_accepted dev.
Proof.
  unfold interpolate_head_data, interp1d_cubic, Rotation_from_quat, Slerp, Slerp_call.
  destruct (ndarray_min _) as [lo | e1]; [| discriminate].
  destruct (ndarray_max _) as [hi | e2]; [| discriminate].
  cbn [mbind result_bind].
  destruct (decide (length (d_t_mono <$> dev) < 4)%nat) as [| Hlen]; [discriminate |].
  destruct (decide (NoDup (d_t_mono <$> dev))); [| discriminate].
  cbn [mbind result_bind].
  destruct (decide (Forall _ (d_orientation <$> dev))) as [Hq |]; [| discriminate].
  cbn [mbind result_bind].
  destruct (decide _); [discriminate |].
  destruct (any_step_not_positive _) eqn:Hstep; [discriminate |].
  intros _. rewrite length_fmap in Hlen.
  split; [lia |]. split; [now apply any_step_not_positive_false |].
  apply Forall_forall. intros row Hrow. rewrite Forall_forall in Hq.
  apply Hq, list_elem_of_fmap. eauto.
Qed.

(** The result only depends on the queries through their nearest times
    in the range of the head stream. *)
Lemma interpolate_head_data_clips (dev : list DeviceRow) (hs : list Qc) (lo hi : Qc) :
  ndarray_min (d_t_mono <$> dev) = Ok lo -> ndarray_max (d_t_mono <$> dev) = Ok hi ->
  interpolate_head_data cubic_spline slerp dev hs =
  interpolate_head_data cubic_spline slerp dev (nearest_in_range lo hi <$> hs).
Proof.
  intros Hlo Hhi. pose proof (min_le_max _ _ _ Hlo Hhi) as Hr.
  unfold interpolate_head_data. rewrite Hlo, Hhi. cbn [mbind result_bind].
  rewrite !np_clip_times_nearest by assumption.
  assert (Hc : nearest_in_range lo hi <$> (nearest_in_range lo hi <$> hs)
               = nearest_in_range lo hi <$> hs).
  { rewrite <- list_fmap_compose. apply list_fmap_ext.
    intros _ t _. cbn. now apply nearest_in_range_idem. }
  now rewrite Hc.
Qed.
End ResamplerFacts.

(** The kernels are only evaluated at times of the range: two pairs of
    kernels that agree there give the same result. *)
Lemma interpolate_head_data_no_extrapolation
    (cs1 cs2 : list (Qc * R) -> Qc -> R) (sl1 sl2 : list (Qc * quat) -> Qc -> quat)
    (dev : list DeviceRow) (hs : list Qc) (lo hi : Qc) :
  ndarray_min (d_t_mono <$> dev) = Ok lo -> ndarray_max (d_t_mono <$> dev) = Ok hi ->
  (forall pts t, (lo ≤ t)%Qc -> (t ≤ hi)%Qc -> cs1 pts t = cs2 pts t) ->
  (forall keys t, (lo ≤ t)%Qc -> (t ≤ hi)%Qc -> sl1 keys t = sl2 keys t) ->
  interpolate_head_data cs1 sl1 dev hs = interpolate_head_data cs2 sl2 dev hs.
Proof.
  intros Hlo Hhi Hcs Hsl. pose proof (min_le_max _ _ _ Hlo Hhi) as Hr.
  unfold interpolate_head_data, interp1d_cubic, Rotation_from_quat, Slerp, Slerp_call.
  rewrite Hlo, Hhi. cbn [mbind result_bind].
  repeat (case_decide; cbn [mbind result_bind]; try reflexivity).
  destruct (any_step_not_positive _); cbn [mbind result_bind sl_times sl_rotations];
    try reflexivity.
  destruct (d_t_mono <$> dev) as [| t0 rest]; [reflexivity |].
  case_decide; cbn [mbind result_bind]; [| reflexivity].
  assert (Hin : Forall (fun t => (lo ≤ t)%Qc /\ (t ≤ hi)%Qc) (np_clip_times hs lo hi)).
  { unfold np_clip_times. apply Forall_fmap, Forall_forall. intros t _.
    now apply clip_in_range. }
  do 2 f_equal.
  - apply list_fmap_ext. intros i t Ht.
    apply list_elem_of_lookup_2 in Ht. rewrite Forall_forall in Hin.
    destruct (Hin t Ht). f_equal; now apply Hcs.
  - apply list_fmap_ext. intros i t Ht.
    apply list_elem_of_lookup_2 in Ht. rewrite Forall_forall in Hin.
    destruct (Hin t Ht). now apply Hsl.
Qed.

(** C3, as the script behaves.  [interpolate_head_data] has no check of
    its own: it fails where numpy or scipy refuse the stream, always with
    a [ValueError].  That happens exactly when the head stream has fewer
    than 4 samples (the cubic [interp1d] needs 4), or its timestamps are
    not strictly increasing, or one of its quaternions has norm zero.  In
    every other case it succeeds and returns one position and one
    orientation per query timestamp. *)
Theorem C3_resampler_accepts_exactly
    (cubic_spline : list (Qc * R) -> Qc -> R) (slerp : list (Qc * quat) -> Qc -> quat)
    (dev : list DeviceRow) (hs : list Qc) :
  (((4 <= length dev)%nat /\
    Sorted Qclt (d_t_mono <$> dev) /\
    Forall (fun r => quat_norm2 (d_orientation r) <> 0%R) dev)
   <-> exists ps os, interpolate_head_data cubic_spline slerp dev hs = Ok (ps, os) /\
                     length ps = length hs /\ length os = length hs) /\
  (~ ((4 <= length dev)%nat /\
      Sorted Qclt (d_t_mono <$> dev) /\
      Forall (fun r => quat_norm2 (d_orientation r) <> 0%R) dev)
   <-> interpolate_head_data cubic_spline slerp dev hs = Raise ValueError).
Proof.
  change ((stream_accepted dev
           <-> exists ps os, interpolate_head_data cubic_spline slerp dev hs = Ok (ps, os) /\
                             length ps = length hs /\ length os = length hs) /\
          (~ stream_accepted dev
           <-> interpolate_head_data cubic_spline slerp dev hs = Raise ValueError)).
  split; split.
  - apply interpolate_head_data_accepted.
  - intros (ps & os & Hok & _). eapply interpolate_head_data_ok_inv, Hok.
  - intros Hno.
    destruct (interpolate_head_data cubic_spline slerp dev hs) as [r | e] eqn:E.
    + exfalso. eapply Hno, interpolate_head_data_ok_inv, E.
    + f_equal. eapply interpolate_head_data_raises_ValueError, E.
  - intros Hraise Hacc.
    destruct (interpolate_head_data_accepted cubic_spline slerp dev hs Hacc)
      as (ps & os & Hok & _).
    congruence.
Qed.

(** C3 as stated fails: the two-sample stream of the end-to-end scenario
    has at least 2 strictly increasing timestamps and is refused. *)
Lemma C3_two_samples_rejected :
  (2 <= length two_sample_stream)%nat /\
  Sorted Qclt (d_t_mono <$> two_sample_stream) /\
  forall cubic_spline slerp hs,
    interpolate_head_data cubic_spline slerp two_sample_stream hs = Raise ValueError.
Proof.
  split; [cbn; lia |]. split.
  - cbn. repeat constructor.
  - intros cs sl hs.
    unfold interpolate_head_data, interp1d_cubic. cbn [two_sample_stream fmap list_fmap].
    cbn [ndarray_min ndarray_max mbind result_bind].
    destruct (decide (length _ < 4)%nat) as [_ | Hbad]; [reflexivity |].
    exfalso. apply Hbad. cbn. lia.
Qed.

(** ** Aligning the hands ([load_and_organize_data]) *)

(** The union-of-timestamps scenario: records at 1, 2 and 3, with only
    left cells at 1, both hands at 2 and only right cells at 3. *)
Lemma union_scenario_aligned :
  load_and_organize_data union_scenario =
  Ok [ mkOrganizedRow (Qc_of_Z 1)
         (<["forearmWrist_px_left" := "wristL1"]>
          (<["forearmArm_px_left" := "armL1"]> ∅));
       mkOrganizedRow (Qc_of_Z 2)
         (<["forearmWrist_px_right" := "wristR2"]>
          (<["forearmArm_px_right" := "armR2"]>
          (<["forearmWrist_px_left" := "wristL2"]>
          (<["forearmArm_px_left" := "armL2"]> ∅))));
       mkOrganizedRow (Qc_of_Z 3)
         (<["forearmWrist_px_right" := "wristR3"]>
          (<["forearmArm_px_right" := "armR3"]> ∅)) ].
Proof. vm_compute. reflexivity. Qed.

(** C6 on a capture in which the right hand is never tracked: the list of
    organized rows is built, then the summary lines select the column
    ['forearmWrist_px_right'], which the table does not have, and the
    function raises [KeyError] instead of returning the rows. *)
Theorem C6_left_only_stream_raises_KeyError :
  load_and_organize_data left_only_scenario = Raise KeyError.
Proof. vm_compute. reflexivity. Qed.

(** ** Resampling at a sample time *)

Section SampleTimes.
Local Open Scope Qc_scope.

Lemma foldl_qc_min_lower (x : Qc) (rest : list Qc) (t : Qc) :
  t ∈ x :: rest -> foldl qc_min x rest ≤ t.
Proof.
  revert x. induction rest as [| y rest IH]; intros x Ht.
  - apply list_elem_of_singleton in Ht as ->. apply Qcle_refl.
  - cbn [foldl].
    assert (Hxy : qc_min x y ≤ x ∧ qc_min x y ≤ y).
    { destruct (qc_min_spec x y) as [[H ->] | [H ->]]; split; qc_order. }
    destruct Hxy as [Hx Hy].
    apply elem_of_cons in Ht as [-> | Ht];
      [eapply Qcle_trans; [apply foldl_qc_min_le | exact Hx] |].
    apply elem_of_cons in Ht as [-> | Ht];
      [eapply Qcle_trans; [apply foldl_qc_min_le | exact Hy] |].
    apply IH. now apply elem_of_cons; right.
Qed.

Lemma foldl_qc_max_upper (x : Qc) (rest : list Qc) (t : Qc) :
  t ∈ x :: rest -> t ≤ foldl qc_max x rest.
Proof.
  revert x. induction rest as [| y rest IH]; intros x Ht.
  - apply list_elem_of_singleton in Ht as ->. apply Qcle_refl.
  - cbn [foldl].
    assert (Hxy : x ≤ qc_max x y ∧ y ≤ qc_max x y).
    { destruct (qc_max_spec x y) as [[H ->] | [H ->]]; split; qc_order. }
    destruct Hxy as [Hx Hy].
    apply elem_of_cons in Ht as [-> | Ht];
      [eapply Qcle_trans; [exact Hx | apply foldl_qc_max_ge] |].
    apply elem_of_cons in Ht as [-> | Ht];
      [eapply Qcle_trans; [exact Hy | apply foldl_qc_max_ge] |].
    apply IH. now apply elem_of_cons; right.
Qed.

(** A time of the array lies between its minimum and its maximum. *)
Lemma ndarray_min_max_bounds (a : list Qc) (lo hi t : Qc) :
  ndarray_min a = Ok lo -> ndarray_max a = Ok hi -> t ∈ a -> lo ≤ t ∧ t ≤ hi.
Proof.
  destruct a as [| x rest]; [discriminate |]. cbn. intros [= <-] [= <-] Ht.
  split; [now apply foldl_qc_min_lower | now apply foldl_qc_max_upper].
Qed.

Lemma nearest_in_range_inside (lo hi t : Qc) :
  lo ≤ t -> t ≤ hi -> nearest_in_range lo hi t = t.
Proof. intros H1 H2. unfold nearest_in_range. repeat case_decide; qc_order. Qed.
End SampleTimes.

(** A unit quaternion is stored unchanged by [Rotation.from_quat]. *)
Lemma quat_normalize_unit (q : quat) : quat_norm2 q = 1%R -> quat_normalize q = q.
Proof.
  intros Hq. unfold quat_normalize. rewrite Hq, sqrt_1. cbv zeta.
  destruct q. simpl. f_equal; field.
Qed.

(** The value returned for an accepted stream. *)
Lemma interpolate_head_data_value
    (cubic_spline : list (Qc * R) -> Qc -> R) (slerp : list (Qc * quat) -> Qc -> quat)
    (dev : list DeviceRow) (hs : list Qc) (lo hi : Qc) :
  stream_accepted dev ->
  ndarray_min (d_t_mono <$> dev) = Ok lo -> ndarray_max (d_t_mono <$> dev) = Ok hi ->
  let ts := d_t_mono <$> dev in
  let axis (f : vec3 -> R) :=
    cubic_spline (merge_sort by_time (zip ts (f <$> (d_position <$> dev)))) in
  let keys := zip ts (quat_normalize <$> (d_orientation <$> dev)) in
  interpolate_head_data cubic_spline slerp dev hs =
  Ok ((fun t => mk3 (axis vx t) (axis vy t) (axis vz t)) <$> (nearest_in_range lo hi <$> hs),
      slerp keys <$> (nearest_in_range lo hi <$> hs)).
Proof.
  intros (Hlen & Hsorted & Hquat) Hlo Hhi ts axis keys.
  pose proof (min_le_max _ _ _ Hlo Hhi) as Hr.
  unfold interpolate_head_data, interp1d_cubic, Rotation_from_quat, Slerp, Slerp_call.
  rewrite Hlo, Hhi. cbn [mbind result_bind].
  rewrite np_clip_times_nearest by assumption.
  assert (Hlen' : length (d_t_mono <$> dev) = length dev) by apply length_fmap.
  pose proof (sorted_times_NoDup _ Hsorted) as Hnd.
  pose proof (proj2 (any_step_not_positive_false _) Hsorted) as Hstep.
  apply Sorted_StronglySorted in Hsorted; [| apply _].
  fold ts in Hlo, Hhi, Hlen', Hnd, Hstep, Hsorted |- *.
  destruct (decide (length ts < 4)%nat) as [Hbad | _]; [rewrite Hlen' in Hbad; lia |].
  destruct (decide (NoDup ts)) as [_ | Hbad]; [| contradiction].
  cbn [mbind result_bind].
  destruct (decide (Forall _ (d_orientation <$> dev))) as [_ | Hbad];
    [| exfalso; apply Hbad; now apply Forall_fmap].
  cbn [mbind result_bind].
  destruct (decide (length (quat_normalize <$> (d_orientation <$> dev)) < 2)%nat)
    as [Hbad | _]; [rewrite !length_fmap in Hbad; lia |].
  rewrite Hstep. cbn [mbind result_bind sl_times sl_rotations].
  destruct ts as [| t0 rest] eqn:Ets; [cbn in Hlen'; lia |].
  cbn in Hlo, Hhi. injection Hlo as Hlo. injection Hhi as Hhi.
  rewrite sorted_min_first in Hlo by assumption.
  rewrite sorted_max_last in Hhi by assumption. subst lo hi.
  destruct (decide (Forall _ (nearest_in_range t0 (List.last rest t0) <$> hs)))
    as [_ | Hbad]; [reflexivity |].
  exfalso. apply Hbad. apply Forall_fmap, Forall_forall. intros t _. cbn.
  rewrite <- clip_nearest by assumption. now apply clip_in_range.
Qed.

Lemma zip_fmap_diag {A B C : Type} (g1 : A -> B) (g2 : A -> C) (l : list A) :
  zip (g1 <$> l) (g2 <$> l) = (fun x => (g1 x, g2 x)) <$> l.
Proof. induction l as [| x l IH]; [reflexivity | cbn; now rewrite <- IH]. Qed.

Lemma key_value_at_key {V : Type} (default : V) (keys : list (Qc * V)) (t : Qc) (v : V) :
  NoDup keys.*1 -> (t, v) ∈ keys -> key_value default keys t = v.
Proof.
  induction keys as [| [t' v'] keys IH]; intros Hnd Hin; [by apply elem_of_nil in Hin |].
  cbn in Hnd. apply NoDup_cons in Hnd as [Hfresh Hnd]. cbn.
  apply elem_of_cons in Hin as [[= <- <-] | Hin].
  - now rewrite decide_True.
  - rewrite decide_False; [now apply IH |].
    intros ->. apply Hfresh. change t with ((t, v).1). now apply list_elem_of_fmap_2.
Qed.

(** Sorting points whose times are already strictly increasing leaves
    them in place. *)
Lemma sorted_points_times (pts : list (Qc * R)) :
  Sorted Qclt pts.*1 ->
  Sorted Qclt (merge_sort by_time pts).*1.
Proof.
  intros Hs.
  assert (Hle : Sorted by_time pts).
  { induction pts as [| p pts IH]; [constructor |].
    cbn in Hs. apply Sorted_inv in Hs as [Hs Hhd].
    constructor; [now apply IH |].
    destruct pts as [| p' pts]; constructor.
    apply HdRel_inv in Hhd. now apply Qclt_le_weak. }
  assert (Htr : Transitive by_time).
  { intros a b c. apply Qcle_trans. }
  assert (Htot : Total by_time).
  { intros a b. destruct (Qclt_le_dec a.1 b.1); [left; now apply Qclt_le_weak | now right]. }
  assert (Hnd : NoDup pts.*1) by now apply sorted_times_NoDup.
  assert (Heq : merge_sort by_time pts = pts).
  { apply (Sorted_unique_strong by_time).
    - intros p q Hp Hq Hpq Hqp.
      eapply (NoDup_fmap_elem_inj fst pts); eauto.
      + now rewrite merge_sort_Permutation in Hp.
      + now apply Qcle_antisym.
    - now apply Sorted_merge_sort.
    - exact Hle.
    - apply merge_sort_Permutation. }
  now rewrite Heq.
Qed.

Lemma four_sample_stream_accepted : stream_accepted four_sample_stream.
Proof.
  split; [cbn; lia |]. split; [cbn; repeat constructor |].
  repeat (apply Forall_cons; split; [unfold quat_norm2; simpl; lra |]).
  apply Forall_nil_2.
Qed.

(** C4. On a head stream that the library calls accept, every query gets
    a pose, and it is the pose at the nearest time of the range
    [[min, max]] of the head timestamps: each coordinate of the position
    is the cubic fit and the orientation the SLERP, both evaluated at the
    clamped time.  So a query below the range returns the position and
    orientation of a query at [min], a query above it those of a query
    at [max], the kernels are only ever evaluated at times of the range,
    and the result does not depend on what they would return outside
    it. *)
Theorem C4_queries_are_clamped
    (cubic_spline : list (Qc * R) -> Qc -> R) (slerp : list (Qc * quat) -> Qc -> quat)
    (dev : list DeviceRow) (hs : list Qc) (lo hi : Qc) :
  stream_accepted dev ->
  ndarray_min (d_t_mono <$> dev) = Ok lo ->
  ndarray_max (d_t_mono <$> dev) = Ok hi ->
  let ts := d_t_mono <$> dev in
  let axis (f : vec3 -> R) :=
    cubic_spline (merge_sort by_time (zip ts (f <$> (d_position <$> dev)))) in
  let position t := mk3 (axis vx t) (axis vy t) (axis vz t) in
  let orientation t := slerp (zip ts (quat_normalize <$> (d_orientation <$> dev))) t in
  interpolate_head_data cubic_spline slerp dev hs =
    Ok ((fun t => position (nearest_in_range lo hi t)) <$> hs,
        (fun t => orientation (nearest_in_range lo hi t)) <$> hs) /\
  (forall t, (lo ≤ nearest_in_range lo hi t)%Qc /\ (nearest_in_range lo hi t ≤ hi)%Qc) /\
  (forall t, (t < lo)%Qc ->
     interpolate_head_data cubic_spline slerp dev [t] = Ok ([position lo], [orientation lo]) /\
     interpolate_head_data cubic_spline slerp dev [lo] = Ok ([position lo], [orientation lo])) /\
  (forall t, (hi < t)%Qc ->
     interpolate_head_data cubic_spline slerp dev [t] = Ok ([position hi], [orientation hi]) /\
     interpolate_head_data cubic_spline slerp dev [hi] = Ok ([position hi], [orientation hi])) /\
  (forall cs' sl',
     (forall pts t, (lo ≤ t)%Qc -> (t ≤ hi)%Qc -> cs' pts t = cubic_spline pts t) ->
     (forall keys t, (lo ≤ t)%Qc -> (t ≤ hi)%Qc -> sl' keys t = slerp keys t) ->
     interpolate_head_data cs' sl' dev hs = interpolate_head_data cubic_spline slerp dev hs).
Proof.
  intros Hacc Hlo Hhi ts axis position orientation.
  pose proof (min_le_max _ _ _ Hlo Hhi) as Hr.
  assert (Hval : forall qs,
            interpolate_head_data cubic_spline slerp dev qs =
            Ok ((fun t => position (nearest_in_range lo hi t)) <$> qs,
                (fun t => orientation (nearest_in_range lo hi t)) <$> qs)).
  { intros qs.
    rewrite (interpolate_head_data_value cubic_spline slerp dev qs lo hi Hacc Hlo Hhi).
    cbv zeta. rewrite <- !(list_fmap_compose (nearest_in_range lo hi)). reflexivity. }
  assert (Hnear : forall t,
            (lo ≤ nearest_in_range lo hi t)%Qc /\ (nearest_in_range lo hi t ≤ hi)%Qc).
  { intros t. rewrite <- (clip_nearest lo hi t Hr). now apply clip_in_range. }
  assert (Hlo' : nearest_in_range lo hi lo = lo)
    by (apply nearest_in_range_inside; [apply Qcle_refl | exact Hr]).
  assert (Hhi' : nearest_in_range lo hi hi = hi)
    by (apply nearest_in_range_inside; [exact Hr | apply Qcle_refl]).
  split; [apply Hval |]. split; [exact Hnear |]. split; [| split].
  - intros t Ht. rewrite !Hval. cbn [fmap list_fmap]. rewrite Hlo'.
    assert (Hn : nearest_in_range lo hi t = lo)
      by (unfold nearest_in_range; now rewrite decide_True).
    now rewrite Hn.
  - intros t Ht. rewrite !Hval. cbn [fmap list_fmap]. rewrite Hhi'.
    assert (Hn : nearest_in_range lo hi t = hi).
    { unfold nearest_in_range. rewrite decide_False by qc_order. now rewrite decide_True. }
    now rewrite Hn.
  - intros cs' sl' Hcs Hsl.
    now apply (interpolate_head_data_no_extrapolation cs' cubic_spline sl' slerp dev hs lo hi).
Qed.

Lemma C4_queries_are_clamped_witness :
  let cs : list (Qc * R) -> Qc -> R := fun _ _ => 0%R in
  let sl : list (Qc * quat) -> Qc -> quat := fun _ _ => mkQuat 0 0 0 1 in
  let dev := four_sample_stream in
  let hs := [Qc_of_Z (-1); Qc_of_Z 2; Qc_of_Z 5] in
  let lo := Qc_of_Z 0 in
  let hi := Qc_of_Z 3 in
  stream_accepted dev /\
  ndarray_min (d_t_mono <$> dev) = Ok lo /\
  ndarray_max (d_t_mono <$> dev) = Ok hi /\
  let ts := d_t_mono <$> dev in
  let axis (f : vec3 -> R) :=
    cs (merge_sort by_time (zip ts (f <$> (d_position <$> dev)))) in
  let position t := mk3 (axis vx t) (axis vy t) (axis vz t) in
  let orientation t := sl (zip ts (quat_normalize <$> (d_orientation <$> dev))) t in
  interpolate_head_data cs sl dev hs =
    Ok ((fun t => position (nearest_in_range lo hi t)) <$> hs,
        (fun t => orientation (nearest_in_range lo hi t)) <$> hs) /\
  (forall t, (lo ≤ nearest_in_range lo hi t)%Qc /\ (nearest_in_range lo hi t ≤ hi)%Qc) /\
  (forall t, (t < lo)%Qc ->
     interpolate_head_data cs sl dev [t] = Ok ([position lo], [orientation lo]) /\
     interpolate_head_data cs sl dev [lo] = Ok ([position lo], [orientation lo])) /\
  (forall t, (hi < t)%Qc ->
     interpolate_head_data cs sl dev [t] = Ok ([position hi], [orientation hi]) /\
     interpolate_head_data cs sl dev [hi] = Ok ([position hi], [orientation hi])) /\
  (forall cs' sl',
     (forall pts t, (lo ≤ t)%Qc -> (t ≤ hi)%Qc -> cs' pts t = cs pts t) ->
     (forall keys t, (lo ≤ t)%Qc -> (t ≤ hi)%Qc -> sl' keys t = sl keys t) ->
     interpolate_head_data cs' sl' dev hs = interpolate_head_data cs sl dev hs).
Proof.
  intros cs sl dev hs lo hi.
  assert (Hlo : ndarray_min (d_t_mono <$> dev) = Ok lo) by reflexivity.
  assert (Hhi : ndarray_max (d_t_mono <$> dev) = Ok hi) by reflexivity.
  split; [exact four_sample_stream_accepted |]. split; [exact Hlo |]. split; [exact Hhi |].
  exact (C4_queries_are_clamped cs sl dev hs lo hi four_sample_stream_accepted Hlo Hhi).
Defined.

(** ** The modelled Slerp at its key times *)

Section SlerpAlgebra.
Local Open Scope R_scope.

Lemma quat_mul_identity (q : quat) : quat_mul q (mkQuat 0 0 0 1) = q.
Proof. destruct q. unfold quat_mul. simpl. f_equal; ring. Qed.

Lemma quat_mul_neg_r (p q : quat) : quat_mul p (quat_neg q) = quat_neg (quat_mul p q).
Proof. unfold quat_mul, quat_neg. simpl. f_equal; ring. Qed.

Lemma quat_mul_inv_cancel (a b : quat) :
  quat_norm2 a = 1 -> quat_mul a (quat_mul (quat_inv a) b) = b.
Proof.
  intros Ha. destruct a as [ax ay az aw], b as [bx b_y bz bw].
  unfold quat_norm2 in Ha. simpl in Ha.
  unfold quat_mul, quat_inv. simpl. f_equal.
  - replace (_ - _) with ((ax * ax + ay * ay + az * az + aw * aw) * bx) by ring.
    rewrite Ha. ring.
  - replace (_ + _) with ((ax * ax + ay * ay + az * az + aw * aw) * b_y) by ring.
    rewrite Ha. ring.
  - replace (_ + _) with ((ax * ax + ay * ay + az * az + aw * aw) * bz) by ring.
    rewrite Ha. ring.
  - replace (_ - _) with ((ax * ax + ay * ay + az * az + aw * aw) * bw) by ring.
    rewrite Ha. ring.
Qed.

Lemma quat_mul_inv_w (a b : quat) : qw (quat_mul (quat_inv a) b) = quat_dot a b.
Proof. unfold quat_mul, quat_inv, quat_dot. simpl. ring. Qed.

Lemma quat_mul_norm2 (a b : quat) :
  quat_norm2 (quat_mul a b) = quat_norm2 a * quat_norm2 b.
Proof. unfold quat_norm2, quat_mul. simpl. ring. Qed.

Lemma quat_inv_norm2 (a : quat) : quat_norm2 (quat_inv a) = quat_norm2 a.
Proof. unfold quat_norm2, quat_inv. simpl. ring. Qed.

Lemma quat_neg_norm2 (a : quat) : quat_norm2 (quat_neg a) = quat_norm2 a.
Proof. unfold quat_norm2, quat_neg. simpl. ring. Qed.

Lemma from_rotvec_zero (r : vec3) : from_rotvec (vscale r 0) = mkQuat 0 0 0 1.
Proof.
  unfold from_rotvec. rewrite norm_vscale, Rabs_R0, Rmult_0_r. cbv zeta.
  destruct (Req_dec_T 0 0) as [_ | H]; [| contradiction].
  unfold vscale. simpl. replace (0 / 2) with 0 by field. rewrite cos_0.
  f_equal; ring.
Qed.

Lemma vscale_1 (r : vec3) : vscale r 1 = r.
Proof. destruct r. unfold vscale. simpl. f_equal; ring. Qed.

(** Going to the rotation vector and back gives the quaternion with
    [w >= 0] of the same rotation. *)
Lemma from_rotvec_as_rotvec (p : quat) :
  quat_norm2 p = 1 -> from_rotvec (as_rotvec p) = canonical p.
Proof.
  intros Hp.
  assert (Hc : quat_norm2 (canonical p) = 1 /\ 0 <= qw (canonical p)).
  { unfold canonical. destruct (Rlt_dec (qw p) 0) as [H | H].
    - rewrite quat_neg_norm2. split; [exact Hp |]. simpl. lra.
    - split; [exact Hp | lra]. }
  unfold as_rotvec. cbv zeta.
  destruct (canonical p) as [x y z w]. destruct Hc as [Hn Hw].
  unfold quat_norm2 in Hn. simpl in Hn, Hw. cbn [qx qy qz qw].
  assert (Hw1 : -1 <= w <= 1) by nra.
  pose proof (acos_bound w) as Hb.
  pose proof (cos_acos w Hw1) as Hcos.
  pose proof (sin_acos w Hw1) as Hsin.
  assert (Hv : x * x + y * y + z * z = 1 - w²) by (unfold Rsqr; lra).
  destruct (Req_dec_T (2 * acos w) 0) as [H0 | H0].
  - assert (Ha : acos w = 0) by lra.
    assert (w = 1) by (rewrite <- Hcos, Ha; apply cos_0). subst w.
    assert (x = 0 /\ y = 0 /\ z = 0) as (-> & -> & ->).
    { unfold Rsqr in Hv. repeat split; nra. }
    unfold from_rotvec. cbn [vx vy vz].
    assert (Hnorm : norm (mk3 (2 * 0) (2 * 0) (2 * 0)) = 0).
    { unfold norm, dot. simpl. replace (_ + _) with 0 by ring. apply sqrt_0. }
    rewrite Hnorm. cbv zeta.
    destruct (Req_dec_T 0 0) as [_ | H]; [| contradiction].
    replace (0 / 2) with 0 by field. rewrite cos_0. f_equal; ring.
  - set (n := sqrt (1 - w²)) in *.
    assert (Hn0 : 0 <= n) by apply sqrt_pos.
    assert (Hnn : n * n = 1 - w²).
    { apply sqrt_sqrt. unfold Rsqr. nra. }
    assert (Hnpos : n <> 0).
    { intros Hz. rewrite Hz in Hnn.
      assert (w = 1) by (unfold Rsqr in Hnn; nra). subst w.
      rewrite acos_1 in H0. lra. }
    replace (2 * acos w / 2) with (acos w) by field.
    rewrite Hsin. fold n.
    assert (Hapos : 0 < 2 * acos w) by lra.
    set (a := 2 * acos w) in *.
    unfold from_rotvec. cbn [vx vy vz].
    assert (Hnorm : norm (mk3 (a / n * x) (a / n * y) (a / n * z)) = a).
    { unfold norm, dot. simpl.
      replace (_ + _) with ((a / n) * (a / n) * (x * x + y * y + z * z)) by ring.
      rewrite Hv, <- Hnn.
      replace (a / n * (a / n) * (n * n)) with (a * a) by (field; exact Hnpos).
      apply sqrt_square. lra. }
    rewrite Hnorm. cbv zeta.
    destruct (Req_dec_T a 0) as [Hz | _]; [lra |].
    assert (Hhalf : a / 2 = acos w) by (unfold a; field).
    rewrite Hhalf, Hsin, Hcos.
    f_equal; field; split; assumption || lra.
Qed.
End SlerpAlgebra.

Section SlerpModel.
Local Open Scope R_scope.

Lemma Q2R_Qcminus (a b : Qc) : Q2R (a - b)%Qc = Q2R a - Q2R b.
Proof.
  rewrite <- Q2R_minus. apply Qeq_eqR.
  unfold Qcminus, Qcplus, Qcopp. cbn [this Q2Qc].
  rewrite Qred_correct. unfold Qminus. apply Qplus_comp; [reflexivity |].
  apply Qred_correct.
Qed.

Lemma Q2R_Qclt (a b : Qc) : (a < b)%Qc -> Q2R a < Q2R b.
Proof. intros H. now apply Qlt_Rlt. Qed.

Lemma sorted_consecutive (l : list Qc) (j : nat) (a b : Qc) :
  Sorted Qclt l -> l !! j = Some a -> l !! S j = Some b -> (a < b)%Qc.
Proof.
  intros Hs. revert j. induction Hs as [| x l Hs IH Hx]; intros j Ha Hb; [discriminate |].
  destruct j as [| j].
  - cbn in Ha, Hb. injection Ha as <-.
    destruct l as [| y l]; [discriminate |]. cbn in Hb. injection Hb as <-.
    now apply HdRel_inv in Hx.
  - cbn in Ha, Hb. now apply (IH j).
Qed.

(** On strictly increasing times, [searchsorted] finds a key time at its
    own index. *)
Lemma searchsorted_key (times : list Qc) (k : nat) (t : Qc) :
  Sorted Qclt times -> times !! k = Some t -> searchsorted times t = k.
Proof.
  intros Hs. apply Sorted_StronglySorted in Hs; [| apply _].
  revert k. induction Hs as [| x l Hs IH Hx]; intros k Hk; [discriminate |].
  unfold searchsorted in *. rewrite filter_cons.
  destruct k as [| k].
  - cbn in Hk. injection Hk as <-.
    rewrite decide_False by (intros H; qc_order).
    assert (Hnone : filter (fun y : Qc => (y < x)%Qc) l = []).
    { clear IH Hs. induction Hx as [| y l Hy Hx IH]; [reflexivity |].
      rewrite filter_cons, decide_False by qc_order. exact IH. }
    now rewrite Hnone.
  - cbn in Hk. rewrite decide_True.
    + cbn. f_equal. now apply IH.
    + rewrite Forall_forall in Hx. apply Hx. now apply list_elem_of_lookup_2 in Hk.
Qed.

Lemma scipy_slerp_first (keys : list (Qc * quat)) (t0 t1 : Qc) (q0 q1 : quat) :
  Sorted Qclt keys.*1 -> keys !! 0%nat = Some (t0, q0) -> keys !! 1%nat = Some (t1, q1) ->
  scipy_slerp keys t0 = q0.
Proof.
  intros Hs H0 H1. unfold scipy_slerp. cbv zeta.
  rewrite (searchsorted_key keys.*1 0 t0 Hs) by (rewrite list_lookup_fmap, H0; reflexivity).
  cbn [Nat.sub]. rewrite H0, H1.
  rewrite Q2R_Qcminus.
  replace ((Q2R t0 - Q2R t0) / Q2R (t1 - t0)%Qc) with 0 by (unfold Rdiv; ring).
  rewrite from_rotvec_zero. apply quat_mul_identity.
Qed.

Lemma scipy_slerp_next (keys : list (Qc * quat)) (j : nat) (tj tk : Qc) (qj qk : quat) :
  Sorted Qclt keys.*1 -> keys !! j = Some (tj, qj) -> keys !! S j = Some (tk, qk) ->
  quat_norm2 qj = 1 -> quat_norm2 qk = 1 ->
  scipy_slerp keys tk = if Rlt_dec (quat_dot qj qk) 0 then quat_neg qk else qk.
Proof.
  intros Hs Hj Hk Hnj Hnk. unfold scipy_slerp. cbv zeta.
  rewrite (searchsorted_key keys.*1 (S j) tk Hs) by (rewrite list_lookup_fmap, Hk; reflexivity).
  replace (S j - 1)%nat with j by lia. rewrite Hj, Hk.
  assert (Hlt : (tj < tk)%Qc).
  { apply (sorted_consecutive keys.*1 j); [exact Hs | |];
      rewrite list_lookup_fmap; [rewrite Hj | rewrite Hk]; reflexivity. }
  apply Q2R_Qclt in Hlt.
  rewrite Q2R_Qcminus.
  replace ((Q2R tk - Q2R tj) / (Q2R tk - Q2R tj)) with 1 by (field; lra).
  rewrite vscale_1, from_rotvec_as_rotvec
    by (rewrite quat_mul_norm2, quat_inv_norm2, Hnj, Hnk; ring).
  unfold canonical. rewrite quat_mul_inv_w.
  destruct (Rlt_dec (quat_dot qj qk) 0).
  - rewrite quat_mul_neg_r. f_equal. now apply quat_mul_inv_cancel.
  - now apply quat_mul_inv_cancel.
Qed.

Lemma quat_normalize_norm2 (q : quat) :
  quat_norm2 q <> 0 -> quat_norm2 (quat_normalize q) = 1.
Proof.
  intros Hq.
  assert (Hpos : 0 < quat_norm2 q).
  { unfold quat_norm2 in *. nra. }
  assert (Hs : sqrt (quat_norm2 q) * sqrt (quat_norm2 q) = quat_norm2 q)
    by (apply sqrt_sqrt; lra).
  assert (Hs0 : sqrt (quat_norm2 q) <> 0).
  { intros H0. rewrite H0 in Hs. lra. }
  unfold quat_normalize. cbv zeta.
  set (n := sqrt (quat_norm2 q)) in *.
  unfold quat_norm2 at 1. cbn [qx qy qz qw].
  replace (_ + _) with ((qx q * qx q + qy q * qy q + qz q * qz q + qw q * qw q) / (n * n))
    by (field; exact Hs0).
  fold (quat_norm2 q). rewrite Hs. field. exact Hq.
Qed.

(** Normalising two quaternions does not change the sign of their dot
    product. *)
Lemma quat_dot_normalize (a b : quat) :
  quat_norm2 a <> 0 -> quat_norm2 b <> 0 ->
  exists c, 0 < c /\
    quat_dot (quat_normalize a) (quat_normalize b) = c * quat_dot a b.
Proof.
  intros Ha Hb.
  assert (Hpa : 0 < sqrt (quat_norm2 a)).
  { apply sqrt_lt_R0. unfold quat_norm2 in *. nra. }
  assert (Hpb : 0 < sqrt (quat_norm2 b)).
  { apply sqrt_lt_R0. unfold quat_norm2 in *. nra. }
  exists (/ (sqrt (quat_norm2 a) * sqrt (quat_norm2 b))). split.
  - apply Rinv_0_lt_compat. nra.
  - unfold quat_normalize, quat_dot. cbv zeta. cbn [qx qy qz qw]. field. lra.
Qed.

End SlerpModel.

Section SampleTimesMore.

(** At the timestamp of a source sample the two kernels are evaluated at
    that very time. *)
Lemma interpolate_head_data_at_sample
    (cubic_spline : list (Qc * R) -> Qc -> R) (slerp : list (Qc * quat) -> Qc -> quat)
    (dev : list DeviceRow) (hs : list Qc) (i : nat) (row : DeviceRow) :
  stream_accepted dev -> row ∈ dev -> hs !! i = Some (d_t_mono row) ->
  let ts := d_t_mono <$> dev in
  let axis (f : vec3 -> R) :=
    cubic_spline (merge_sort by_time (zip ts (f <$> (d_position <$> dev)))) in
  let keys := (fun r => (d_t_mono r, quat_normalize (d_orientation r))) <$> dev in
  let t := d_t_mono row in
  exists ps os,
    interpolate_head_data cubic_spline slerp dev hs = Ok (ps, os) /\
    ps !! i = Some (mk3 (axis vx t) (axis vy t) (axis vz t)) /\
    os !! i = Some (slerp keys t).
Proof.
  intros Hacc Hrow Hq.
  assert (Hts : d_t_mono row ∈ d_t_mono <$> dev) by now apply list_elem_of_fmap_2.
  destruct (ndarray_min (d_t_mono <$> dev)) as [lo | e] eqn:Hlo;
    [| destruct (d_t_mono <$> dev); [by apply elem_of_nil in Hts | discriminate]].
  destruct (ndarray_max (d_t_mono <$> dev)) as [hi | e] eqn:Hhi;
    [| destruct (d_t_mono <$> dev); [by apply elem_of_nil in Hts | discriminate]].
  destruct (ndarray_min_max_bounds _ _ _ _ Hlo Hhi Hts) as [Hge Hle].
  pose proof (interpolate_head_data_value cubic_spline slerp dev hs lo hi Hacc Hlo Hhi)
    as Hval. cbv zeta in Hval.
  cbv zeta. eexists _, _. split; [exact Hval |].
  rewrite !list_lookup_fmap, Hq. cbn [fmap option_fmap option_map].
  rewrite nearest_in_range_inside by assumption.
  split; [reflexivity |].
  f_equal. now rewrite <- list_fmap_compose, zip_fmap_diag.
Qed.

(** A kernel that passes through its data points returns, at the
    timestamp of a sample, the coordinate of that sample: the points
    handed to it are the pairs (timestamp, coordinate) of the samples. *)
Lemma cubic_fit_at_sample (cubic_spline : list (Qc * R) -> Qc -> R)
    (dev : list DeviceRow) (row : DeviceRow) (f : vec3 -> R) :
  (forall pts t y, (4 <= length pts)%nat -> Sorted Qclt pts.*1 ->
                   (t, y) ∈ pts -> cubic_spline pts t = y) ->
  stream_accepted dev -> row ∈ dev ->
  cubic_spline (merge_sort by_time (zip (d_t_mono <$> dev) (f <$> (d_position <$> dev))))
    (d_t_mono row) = f (d_position row).
Proof.
  intros Hcs (Hlen & Hsorted & _) Hrow.
  rewrite <- list_fmap_compose, zip_fmap_diag. apply Hcs.
  - rewrite merge_sort_Permutation, length_fmap. exact Hlen.
  - apply sorted_points_times. rewrite <- list_fmap_compose. exact Hsorted.
  - rewrite merge_sort_Permutation.
    apply (list_elem_of_fmap_2 (fun x => (d_t_mono x, (f ∘ d_position) x))), Hrow.
Qed.

(** The modelled Slerp at the timestamp of sample [k]: the normalised
    quaternion of the first sample, and for a later sample the normalised
    quaternion or its negative, by the sign of the dot product with the
    sample before it. *)
Lemma scipy_slerp_at_sample (dev : list DeviceRow) (k : nat) (row : DeviceRow) :
  stream_accepted dev -> dev !! k = Some row ->
  let keys := (fun r => (d_t_mono r, quat_normalize (d_orientation r))) <$> dev in
  let q := quat_normalize (d_orientation row) in
  match k with
  | O => scipy_slerp keys (d_t_mono row) = q
  | S j =>
      exists prev, dev !! j = Some prev /\
        scipy_slerp keys (d_t_mono row) =
        if Rlt_dec (quat_dot (d_orientation prev) (d_orientation row)) 0
        then quat_neg q else q
  end.
Proof.
  intros (Hlen & Hsorted & Hquat) Hrow keys q.
  assert (Hkeys : Sorted Qclt keys.*1).
  { unfold keys. rewrite <- list_fmap_compose. exact Hsorted. }
  assert (Hkey : forall n r, dev !! n = Some r ->
            keys !! n = Some (d_t_mono r, quat_normalize (d_orientation r)))
    by (intros n r Hr; unfold keys; now rewrite list_lookup_fmap, Hr).
  rewrite Forall_forall in Hquat.
  destruct k as [| j].
  - destruct (lookup_lt_is_Some_2 dev 1) as [r1 Hr1]; [lia |].
    exact (scipy_slerp_first keys _ _ _ _ Hkeys (Hkey _ _ Hrow) (Hkey _ _ Hr1)).
  - destruct (lookup_lt_is_Some_2 dev j) as [prev Hprev];
      [apply lookup_lt_Some in Hrow; lia |].
    exists prev. split; [exact Hprev |].
    assert (Hnp : quat_norm2 (d_orientation prev) <> 0%R)
      by (apply Hquat; eapply list_elem_of_lookup_2; exact Hprev).
    assert (Hnr : quat_norm2 (d_orientation row) <> 0%R)
      by (apply Hquat; eapply list_elem_of_lookup_2; exact Hrow).
    rewrite (scipy_slerp_next keys j _ _ _ _ Hkeys (Hkey _ _ Hprev) (Hkey _ _ Hrow))
      by (apply quat_normalize_norm2; assumption).
    destruct (quat_dot_normalize _ _ Hnp Hnr) as (c & Hc & ->).
    fold q.
    destruct (Rlt_dec (c * _) 0) as [H1 | H1], (Rlt_dec (quat_dot _ _) 0) as [H2 | H2];
      try reflexivity; exfalso; nra.
Qed.

End SampleTimesMore.

(** C5. At a query timestamp equal to the timestamp of a source sample
    the resampler returns that sample's position, provided the cubic
    kernel passes through its data points, and as orientation a unit
    quaternion of the sample's rotation, with scipy's Slerp modelled on
    its keyframes ([scipy_slerp]): the normalised quaternion [q] of the
    sample, which is the stored one when that has norm 1, or its
    negative.  It is [q] for the first sample and for a sample whose
    quaternion has a positive dot product with that of the sample before
    it, and [-q] when the dot product is negative.  The stream is one the
    library calls accept and arithmetic is exact. *)
Theorem C5_sample_times_return_the_sample
    (cubic_spline : list (Qc * R) -> Qc -> R)
    (dev : list DeviceRow) (hs : list Qc) (i k : nat) (row : DeviceRow) :
  (forall pts t y, (4 <= length pts)%nat -> Sorted Qclt pts.*1 ->
                   (t, y) ∈ pts -> cubic_spline pts t = y) ->
  stream_accepted dev ->
  dev !! k = Some row ->
  hs !! i = Some (d_t_mono row) ->
  let q := quat_normalize (d_orientation row) in
  exists ps os,
    interpolate_head_data cubic_spline scipy_slerp dev hs = Ok (ps, os) /\
    ps !! i = Some (d_position row) /\
    (os !! i = Some q \/ os !! i = Some (quat_neg q)) /\
    (quat_norm2 (d_orientation row) = 1%R -> q = d_orientation row) /\
    (k = 0%nat -> os !! i = Some q) /\
    (forall j prev, k = S j -> dev !! j = Some prev ->
       ((0 < quat_dot (d_orientation prev) (d_orientation row))%R -> os !! i = Some q) /\
       ((quat_dot (d_orientation prev) (d_orientation row) < 0)%R ->
        os !! i = Some (quat_neg q))).
Proof.
  intros Hcs Hacc Hrow Hq q.
  assert (Hin : row ∈ dev) by (eapply list_elem_of_lookup_2; exact Hrow).
  destruct (interpolate_head_data_at_sample cubic_spline scipy_slerp dev hs i row
              Hacc Hin Hq) as (ps & os & Hval & Hps & Hos).
  exists ps, os. split; [exact Hval |].
  split.
  { rewrite Hps, !(cubic_fit_at_sample cubic_spline dev row _ Hcs Hacc Hin).
    now destruct (d_position row). }
  pose proof (scipy_slerp_at_sample dev k row Hacc Hrow) as Hsl. cbv zeta in Hsl.
  fold q in Hsl. rewrite Hos.
  split; [| split; [apply quat_normalize_unit | split]].
  - destruct k as [| j]; [left; now rewrite Hsl |].
    destruct Hsl as (prev & _ & ->). destruct (Rlt_dec _ _); auto.
  - intros ->. now rewrite Hsl.
  - intros j prev -> Hprev. destruct Hsl as (prev' & Hprev' & ->).
    rewrite Hprev in Hprev'. injection Hprev' as <-.
    destruct (Rlt_dec _ _); split; intros H; try reflexivity; exfalso; lra.
Qed.

Lemma C5_sample_times_return_the_sample_witness :
  let cs := key_value 0%R in
  let row := mkDeviceRow (Qc_of_Z 2) (mk3 0 0 2) (mkQuat 0 0 0 1) in
  let hs := [Qc_of_Z 7; Qc_of_Z 2] in
  (forall pts t y, (4 <= length pts)%nat -> Sorted Qclt pts.*1 ->
                   (t, y) ∈ pts -> cs pts t = y) /\
  stream_accepted four_sample_stream /\
  four_sample_stream !! 2%nat = Some row /\
  hs !! 1%nat = Some (d_t_mono row) /\
  let q := quat_normalize (d_orientation row) in
  exists ps os,
    interpolate_head_data cs scipy_slerp four_sample_stream hs = Ok (ps, os) /\
    ps !! 1%nat = Some (d_position row) /\
    (os !! 1%nat = Some q \/ os !! 1%nat = Some (quat_neg q)) /\
    (quat_norm2 (d_orientation row) = 1%R -> q = d_orientation row) /\
    (2%nat = 0%nat -> os !! 1%nat = Some q) /\
    (forall j prev, 2%nat = S j -> four_sample_stream !! j = Some prev ->
       ((0 < quat_dot (d_orientation prev) (d_orientation row))%R ->
        os !! 1%nat = Some q) /\
       ((quat_dot (d_orientation prev) (d_orientation row) < 0)%R ->
        os !! 1%nat = Some (quat_neg q))).
Proof.
  intros cs row hs.
  assert (H1 : forall pts t y, (4 <= length pts)%nat -> Sorted Qclt pts.*1 ->
                               (t, y) ∈ pts -> cs pts t = y).
  { intros pts t y _ Hs Hin. apply key_value_at_key; [now apply sorted_times_NoDup | exact Hin]. }
  assert (H3 : four_sample_stream !! 2%nat = Some row) by reflexivity.
  assert (H4 : hs !! 1%nat = Some (d_t_mono row)) by reflexivity.
  split; [exact H1 |]. split; [exact four_sample_stream_accepted |].
  split; [exact H3 |]. split; [exact H4 |].
  exact (C5_sample_times_return_the_sample cs four_sample_stream hs 1 2 row
           H1 four_sample_stream_accepted H3 H4).
Defined.

Lemma flipped_stream_accepted : stream_accepted flipped_stream.
Proof.
  split; [cbn; lia |]. split; [cbn; repeat constructor |].
  repeat (apply Forall_cons; split; [unfold quat_norm2; simpl; lra |]).
  apply Forall_nil_2.
Qed.

(** The second sample of [flipped_stream] has the quaternion [(0,0,0,-1)]
    after [(0,0,0,1)], two unit quaternions of the same rotation: a query
    at its timestamp returns [(0,0,0,1)], not the sample's quaternion,
    whatever the cubic kernel. *)
Lemma C5_flipped_sample_returns_negated :
  let row := mkDeviceRow (Qc_of_Z 1) (mk3 0 0 1) (mkQuat 0 0 0 (-1)) in
  stream_accepted flipped_stream /\
  row ∈ flipped_stream /\
  quat_norm2 (d_orientation row) = 1%R /\
  forall cubic_spline, exists ps os,
    interpolate_head_data cubic_spline scipy_slerp flipped_stream [d_t_mono row]
    = Ok (ps, os) /\
    os !! 0%nat = Some (mkQuat 0 0 0 1) /\
    os !! 0%nat <> Some (d_orientation row).
Proof.
  intros row.
  assert (Hrow : flipped_stream !! 1%nat = Some row) by reflexivity.
  assert (Hin : row ∈ flipped_stream) by (eapply list_elem_of_lookup_2; exact Hrow).
  assert (Hunit : quat_norm2 (d_orientation row) = 1%R) by (unfold quat_norm2; simpl; lra).
  split; [exact flipped_stream_accepted |]. split; [exact Hin |]. split; [exact Hunit |].
  intros cs.
  destruct (interpolate_head_data_at_sample cs scipy_slerp flipped_stream
              [d_t_mono row] 0 row flipped_stream_accepted Hin eq_refl)
    as (ps & os & Hval & _ & Hos).
  exists ps, os. split; [exact Hval |].
  pose proof (scipy_slerp_at_sample flipped_stream 1 row flipped_stream_accepted Hrow)
    as Hsl. cbv zeta in Hsl.
  destruct Hsl as (prev & Hprev & Hsl). injection Hprev as <-.
  rewrite (quat_normalize_unit _ Hunit) in Hsl.
  destruct (Rlt_dec _ _) as [_ | Hge];
    [| exfalso; apply Hge; unfold quat_dot; simpl; lra].
  rewrite Hos, Hsl.
  assert (Hneg : quat_neg (d_orientation row) = mkQuat 0 0 0 1).
  { unfold quat_neg. simpl. f_equal; lra. }
  rewrite Hneg. split; [reflexivity |].
  intros [= H]. lra.
Qed.

(** ** The organized table in general *)

Section Strings.
Lemma string_app_nil (y : string) : "" +:+ y = y.
Proof. reflexivity. Qed.

Lemma string_app_cons (a : Ascii.ascii) (x y : string) :
  String a x +:+ y = String a (x +:+ y).
Proof. reflexivity. Qed.

Lemma string_length_app (x y : string) :
  String.length (x +:+ y) = (String.length x + String.length y)%nat.
Proof.
  induction x as [| a x IH]; [reflexivity |].
  rewrite string_app_cons. cbn [String.length]. now rewrite IH.
Qed.

(** Appending a suffix is injective. *)
Lemma string_app_suffix_inj (x y sfx : string) : x +:+ sfx = y +:+ sfx -> x = y.
Proof.
  revert y. induction x as [| a x IH]; intros [| b y] H.
  - reflexivity.
  - apply (f_equal String.length) in H. rewrite !string_length_app in H. cbn in H. lia.
  - apply (f_equal String.length) in H. rewrite !string_length_app in H. cbn in H. lia.
  - rewrite !string_app_cons in H. injection H as -> H. f_equal. now apply IH.
Qed.

(** A key of the left hand is never a key of the right hand. *)
Lemma left_key_not_right_key (x y : string) : x +:+ "_left" <> y +:+ "_right".
Proof.
  revert y. induction x as [| a x IH]; intros [| b y] H.
  - discriminate.
  - apply (f_equal String.length) in H. rewrite !string_length_app in H. cbn in H. lia.
  - rewrite string_app_cons, string_app_nil in H. injection H as -> H.
    assert (x = "") as ->.
    { apply (f_equal String.length) in H. rewrite string_length_app in H. cbn in H.
      destruct x; [reflexivity | cbn in H; lia]. }
    discriminate.
  - rewrite !string_app_cons in H. injection H as -> H. now apply (IH y).
Qed.
End Strings.

Section UniqueSorted.
Lemma elem_of_unique (l : list Qc) (x : Qc) : x ∈ unique l <-> x ∈ l.
Proof.
  induction l as [| y l IH]; [reflexivity |]. cbn [unique].
  rewrite !elem_of_cons, list_elem_of_filter, IH.
  destruct (decide (x = y)); tauto.
Qed.

Lemma NoDup_unique (l : list Qc) : NoDup (unique l).
Proof.
  induction l as [| y l IH]; [constructor |]. cbn [unique].
  apply NoDup_cons. split; [| now apply NoDup_filter].
  rewrite list_elem_of_filter. tauto.
Qed.

Lemma sorted_NoDup_strict (l : list Qc) :
  StronglySorted Qcle l -> NoDup l -> StronglySorted Qclt l.
Proof.
  induction 1 as [| x l _ IH Hx]; intros Hnd; constructor.
  - apply IH. now apply NoDup_cons in Hnd.
  - apply NoDup_cons in Hnd as [Hfresh _].
    rewrite Forall_forall in Hx |- *. intros y Hy.
    destruct (Qcle_lt_or_eq _ _ (Hx y Hy)) as [? | ->]; [assumption | contradiction].
Qed.

(** [sorted(unique())]: strictly increasing, with the same members. *)
Lemma all_timestamps_sorted (l : list Qc) :
  StronglySorted Qclt (merge_sort Qcle (unique l)) /\
  forall t, t ∈ merge_sort Qcle (unique l) <-> t ∈ l.
Proof.
  split.
  - apply sorted_NoDup_strict; [apply StronglySorted_merge_sort; apply _ |].
    rewrite merge_sort_Permutation. apply NoDup_unique.
  - intros t. rewrite merge_sort_Permutation. apply elem_of_unique.
Qed.
End UniqueSorted.

Section AlignerFacts.
Context {Cell : Type}.
Implicit Types (hand_data : list (HandRow Cell)) (row : HandRow Cell).

Lemma last_filter_snoc {A : Type} (P : A -> Prop) `{!forall x, Decision (P x)}
    (l : list A) (x : A) :
  last (filter P (l ++ [x])) = if decide (P x) then Some x else last (filter P l).
Proof.
  rewrite filter_app, filter_cons, filter_nil.
  destruct (decide (P x)); [apply last_snoc | now rewrite app_nil_r].
Qed.

(** The two dictionaries hold, for each timestamp, the last row of the
    hand. *)
Lemma hand_dicts_lookup hand_data (t : Qc) :
  (hand_dicts hand_data).1 !! t = last_row "right" t hand_data /\
  (hand_dicts hand_data).2 !! t = last_row "left" t hand_data.
Proof.
  unfold last_row.
  induction hand_data as [| row hand_data IH] using rev_ind; [split; reflexivity |].
  unfold hand_dicts in *. rewrite foldl_snoc, !last_filter_snoc.
  destruct (foldl _ _ hand_data) as [right_hand_dict left_hand_dict].
  cbn [fst snd] in IH. destruct IH as [IHr IHl].
  destruct (decide (h_chirality row = "right")) as [Hr | Hr];
    [| destruct (decide (h_chirality row = "left")) as [Hl | Hl]]; cbn [fst snd].
  - split.
    + destruct (decide (h_t_mono row = t)) as [<- | Hne].
      * rewrite lookup_insert_eq, decide_True; auto.
      * rewrite lookup_insert_ne, decide_False; tauto.
    + rewrite decide_False; [exact IHl |]. intros [_ Hl]. congruence.
  - split.
    + rewrite decide_False; [exact IHr | tauto].
    + destruct (decide (h_t_mono row = t)) as [<- | Hne].
      * rewrite lookup_insert_eq, decide_True; auto.
      * rewrite lookup_insert_ne, decide_False; tauto.
  - split; (rewrite decide_False; [assumption | tauto]).
Qed.

(** A key that does not end in the suffix is left alone. *)
Lemma add_hand_other (sfx : string) row (d : gmap string Cell) (key : string) :
  (forall col, key <> col +:+ sfx) -> add_hand sfx row d !! key = d !! key.
Proof.
  intros Hkey. unfold add_hand.
  induction (h_cells row) as [| [col v] cells IH] using rev_ind; [reflexivity |].
  rewrite foldl_snoc. case_decide; [exact IH |].
  rewrite lookup_insert_ne; [exact IH |]. intros Heq. now apply (Hkey col).
Qed.

(** Under a key of the hand, the last cell of the column when it is a
    copied one. *)
Lemma add_hand_own (sfx : string) row (d : gmap string Cell) (col : string) :
  add_hand sfx row d !! (col +:+ sfx) =
  match (if decide (col ∈ reserved) then None else last_cell col (h_cells row)) with
  | Some v => Some v
  | None => d !! (col +:+ sfx)
  end.
Proof.
  unfold add_hand, last_cell.
  induction (h_cells row) as [| [c v] cells IH] using rev_ind.
  - now case_decide.
  - rewrite foldl_snoc, last_filter_snoc. cbn [fst].
    destruct (decide (c = col)) as [-> | Hne].
    + destruct (decide (col ∈ reserved)) as [Hres | Hres].
      * rewrite decide_True by exact Hres. exact IH.
      * rewrite decide_False by exact Hres. now rewrite lookup_insert_eq.
    + destruct (decide (c ∈ ["t_mono"; "t_wall"; "chirality"])); [exact IH |].
      rewrite lookup_insert_ne; [exact IH |].
      intros Heq. apply Hne. now apply string_app_suffix_inj in Heq.
Qed.

(** The cells of an organized row. *)
Lemma organize_cells hand_data (t : Qc) (col : string) :
  let r := organize (hand_dicts hand_data).1 (hand_dicts hand_data).2 t in
  o_t_mono r = t /\
  o_cells r !! (col +:+ "_right") = hand_cell "right" t col hand_data /\
  o_cells r !! (col +:+ "_left") = hand_cell "left" t col hand_data.
Proof.
  cbv zeta. unfold organize, hand_cell. cbn [o_t_mono o_cells].
  destruct (hand_dicts_lookup hand_data t) as [-> ->].
  split; [reflexivity |]. split.
  - transitivity
      (match last_row "right" t hand_data with
       | Some right_row => add_hand "_right" right_row ∅
       | None => ∅
       end !! (col +:+ "_right")).
    + destruct (last_row "left" t hand_data) as [left_row |]; [| reflexivity].
      apply add_hand_other. intros c Heq. symmetry in Heq.
      now apply left_key_not_right_key in Heq.
    + destruct (last_row "right" t hand_data) as [right_row |]; [| apply lookup_empty].
      rewrite add_hand_own, lookup_empty.
      now destruct (if decide (col ∈ reserved) then None else _).
  - assert (Hright : match last_row "right" t hand_data with
                     | Some right_row => add_hand "_right" right_row (∅ : gmap string Cell)
                     | None => ∅
                     end !! (col +:+ "_left") = None).
    { destruct (last_row "right" t hand_data) as [right_row |]; [| apply lookup_empty].
      rewrite add_hand_other; [apply lookup_empty |].
      intros c. apply left_key_not_right_key. }
    destruct (last_row "left" t hand_data) as [left_row |]; [| exact Hright].
    rewrite add_hand_own, Hright.
    now destruct (if decide (col ∈ reserved) then None else _).
Qed.

(** The function returns the organized rows, unless a summary line
    raises [KeyError]. *)
Lemma load_and_organize_data_outcome hand_data :
  let organized_df :=
    organize (hand_dicts hand_data).1 (hand_dicts hand_data).2
      <$> merge_sort Qcle (unique (h_t_mono <$> hand_data)) in
  load_and_organize_data hand_data =
  if has_column organized_df "forearmWrist_px_right" &&
     has_column organized_df "forearmWrist_px_left"
  then Ok organized_df else Raise KeyError.
Proof.
  cbv zeta. unfold load_and_organize_data, select_columns.
  destruct (hand_dicts hand_data) as [right_hand_dict left_hand_dict]. cbn [fst snd forallb].
  destruct (has_column _ "forearmWrist_px_right"), (has_column _ "forearmWrist_px_left");
    reflexivity.
Qed.
End AlignerFacts.

Lemma last_row_None {Cell : Type} (hand : string) (t : Qc) (hand_data : list (HandRow Cell)) :
  last_row hand t hand_data = None <->
  forall row, row ∈ hand_data -> ~ (h_t_mono row = t /\ h_chirality row = hand).
Proof.
  unfold last_row. rewrite last_None. split.
  - intros Hnil row Hin HP.
    eapply (filter_nil_not_elem_of _ _ row Hnil); [exact HP | exact Hin].
  - intros Hno. destruct (filter _ hand_data) as [| row l] eqn:E; [reflexivity |].
    exfalso. assert (Hin : row ∈ filter (fun row => h_t_mono row = t /\ h_chirality row = hand)
                              hand_data) by (rewrite E; left).
    apply list_elem_of_filter in Hin as [HP Hin]. exact (Hno row Hin HP).
Qed.

(** When [load_and_organize_data] returns, the organized rows are keyed
    by the distinct timestamps of [hand_data] in increasing order, and
    under each key ["<col>_right"] or ["<col>_left"] a row holds the cell
    that hand reported at exactly that timestamp (the last one, should a
    hand and timestamp occur twice), and nothing when the hand reported
    no row at that timestamp. *)
Theorem organized_rows_characterised {Cell : Type}
    (hand_data : list (HandRow Cell)) (out : list (OrganizedRow Cell)) :
  load_and_organize_data hand_data = Ok out ->
  StronglySorted Qclt (o_t_mono <$> out) /\
  (forall t, t ∈ o_t_mono <$> out <-> t ∈ h_t_mono <$> hand_data) /\
  (forall r col, r ∈ out ->
     o_cells r !! (col +:+ "_right") = hand_cell "right" (o_t_mono r) col hand_data /\
     o_cells r !! (col +:+ "_left") = hand_cell "left" (o_t_mono r) col hand_data) /\
  (forall r col hand, r ∈ out -> hand = "right" \/ hand = "left" ->
     (forall row, row ∈ hand_data ->
        ~ (h_t_mono row = o_t_mono r /\ h_chirality row = hand)) ->
     o_cells r !! (col +:+ "_" +:+ hand) = None).
Proof.
  rewrite load_and_organize_data_outcome.
  destruct (_ && _); [| discriminate]. intros [= <-].
  assert (Hkeys : o_t_mono <$>
                    (organize (hand_dicts hand_data).1 (hand_dicts hand_data).2
                       <$> merge_sort Qcle (unique (h_t_mono <$> hand_data)))
                  = merge_sort Qcle (unique (h_t_mono <$> hand_data))).
  { rewrite <- list_fmap_compose. rewrite <- (list_fmap_id (merge_sort _ _)) at 2.
    now apply list_fmap_ext. }
  destruct (all_timestamps_sorted (h_t_mono <$> hand_data)) as [Hsorted Hmem].
  assert (Hcells : forall r col,
            r ∈ organize (hand_dicts hand_data).1 (hand_dicts hand_data).2
                  <$> merge_sort Qcle (unique (h_t_mono <$> hand_data)) ->
            o_cells r !! (col +:+ "_right") = hand_cell "right" (o_t_mono r) col hand_data /\
            o_cells r !! (col +:+ "_left") = hand_cell "left" (o_t_mono r) col hand_data).
  { intros r col Hr. apply list_elem_of_fmap in Hr as (t & -> & _).
    destruct (organize_cells hand_data t col) as (Ht & Hright & Hleft).
    rewrite Ht. now split. }
  rewrite Hkeys. split; [exact Hsorted |]. split; [exact Hmem |]. split; [exact Hcells |].
  intros r col hand Hr Hhand Hno.
  destruct (Hcells r col Hr) as [Hright Hleft].
  apply last_row_None in Hno.
  destruct Hhand as [-> | ->].
  - change (col +:+ "_" +:+ "right") with (col +:+ "_right").
    rewrite Hright. unfold hand_cell. now rewrite Hno.
  - change (col +:+ "_" +:+ "left") with (col +:+ "_left").
    rewrite Hleft. unfold hand_cell. now rewrite Hno.
Qed.

Lemma organized_rows_characterised_witness :
  let out :=
    [ mkOrganizedRow (Qc_of_Z 1)
        (<["forearmWrist_px_left" := "wristL1"]>
         (<["forearmArm_px_left" := "armL1"]> ∅));
      mkOrganizedRow (Qc_of_Z 2)
        (<["forearmWrist_px_right" := "wristR2"]>
         (<["forearmArm_px_right" := "armR2"]>
         (<["forearmWrist_px_left" := "wristL2"]>
         (<["forearmArm_px_left" := "armL2"]> ∅))));
      mkOrganizedRow (Qc_of_Z 3)
        (<["forearmWrist_px_right" := "wristR3"]>
         (<["forearmArm_px_right" := "armR3"]> ∅)) ] in
  load_and_organize_data union_scenario = Ok out /\
  StronglySorted Qclt (o_t_mono <$> out) /\
  (forall t, t ∈ o_t_mono <$> out <-> t ∈ h_t_mono <$> union_scenario) /\
  (forall r col, r ∈ out ->
     o_cells r !! (col +:+ "_right") = hand_cell "right" (o_t_mono r) col union_scenario /\
     o_cells r !! (col +:+ "_left") = hand_cell "left" (o_t_mono r) col union_scenario) /\
  (forall r col hand, r ∈ out -> hand = "right" \/ hand = "left" ->
     (forall row, row ∈ union_scenario ->
        ~ (h_t_mono row = o_t_mono r /\ h_chirality row = hand)) ->
     o_cells r !! (col +:+ "_" +:+ hand) = None).
Proof.
  intros out.
  assert (H : load_and_organize_data union_scenario = Ok out) by (vm_compute; reflexivity).
  split; [exact H |].
  exact (organized_rows_characterised union_scenario out H).
Defined.

(** A vector of length zero is not a failure of the angle computation:
    the quotient [0.0 / 0.0] is NaN and the call returns it. *)
Theorem degenerate_angle_is_nan_not_an_exception (p1 p2 p3 : vec3) :
  p1 = p2 \/ p3 = p2 ->
  CalcJoin.calculate_angle_3_points (Some p1) (Some p2) (Some p3) = Ok NaN.
Proof. apply angle_of_arrays_degenerate. Qed.

Lemma degenerate_angle_is_nan_not_an_exception_witness :
  (mk3 1 2 3 = mk3 1 2 3 \/ mk3 0 0 1 = mk3 1 2 3) /\
  CalcJoin.calculate_angle_3_points (Some (mk3 1 2 3)) (Some (mk3 1 2 3)) (Some (mk3 0 0 1))
  = Ok NaN.
Proof.
  split; [left; reflexivity |].
  apply (degenerate_angle_is_nan_not_an_exception (mk3 1 2 3) (mk3 1 2 3) (mk3 0 0 1)).
  left; reflexivity.
Defined.

(** ** Further properties of a reconstructed frame *)

Lemma estimate_elbow_position_is_Some (sh : vec3) (f w : pyvec) (L : R) :
  is_Some (CalcBody.estimate_elbow_position sh f w L) <-> is_Some f /\ is_Some w.
Proof.
  destruct f as [f |], w as [w |].
  - destruct (estimate_elbow_position_some sh f w L) as [e ->]. split; eauto.
  - split; [intros [? ?]; discriminate | intros [_ [? ?]]; discriminate].
  - split; [intros [? ?]; discriminate | intros [[? ?] _]; discriminate].
  - split; [intros [? ?]; discriminate | intros [[? ?] _]; discriminate].
Qed.

(** An elbow is defined if and only if both the forearm landmark and the
    wrist landmark of its side are present. *)
Theorem elbow_defined_iff_both_landmarks (sd : Side)
    (head_pos : vec3) (head_quat : quat) (lw rw lf rf : pyvec)
    (m : AnthropometricModel) :
  is_Some (elbow_of sd (CalcBody.reconstruct_skeleton head_pos head_quat lw rw lf rf m))
  <-> is_Some (pick sd lf rf) /\ is_Some (pick sd lw rw).
Proof.
  destruct (reconstruct_skeleton_fields head_pos head_quat lw rw lf rf m)
    as (_ & _ & _ & _ & _ & _ & _ & _ & _ & Hle & Hre).
  destruct sd; cbn [elbow_of pick]; [rewrite Hle | rewrite Hre];
    apply estimate_elbow_position_is_Some.
Qed.

(** The spine chain: head, neck, upper, mid and lower spine follow one
    another along the single unit down vector of the frame, each at the
    model's segment length from the previous joint. *)
Theorem spine_chain_along_down_vector
    (height_m : R) (head_pos : vec3) (head_quat : quat) (lw rw lf rf : pyvec) :
  quat_norm2 head_quat = 1%R ->
  let m := AnthropometricModel_init height_m in
  let s := CalcBody.reconstruct_skeleton head_pos head_quat lw rw lf rf m in
  let d := CalcBody.get_down_vector head_quat in
  exists nk up mid low,
    CalcBody.head s = Some head_pos /\ CalcBody.neck s = Some nk /\
    CalcBody.upper_spine s = Some up /\ CalcBody.mid_spine s = Some mid /\
    CalcBody.lower_spine s = Some low /\
    norm d = 1%R /\
    nk = vadd head_pos (vscale d (5 / 100 * height_m)) /\
    up = vadd nk (vscale d (10 / 100 * height_m)) /\
    mid = vadd up (vscale d (10 / 100 * height_m)) /\
    low = vadd mid (vscale d (10 / 100 * height_m)).
Proof.
  intros Hq m s d.
  destruct (reconstruct_skeleton_fields head_pos head_quat lw rw lf rf m)
    as (H1 & H2 & H3 & H4 & H5 & _).
  eexists _, _, _, _.
  split; [exact H1 |]. split; [exact H2 |]. split; [exact H3 |].
  split; [exact H4 |]. split; [exact H5 |].
  split; [now apply down_vector_unit |].
  repeat split.
Qed.

Lemma spine_chain_along_down_vector_witness :
  quat_norm2 (mkQuat 0 0 0 1) = 1%R /\
  let m := AnthropometricModel_init (7 / 4) in
  let s := CalcBody.reconstruct_skeleton (mk3 0 0 0) (mkQuat 0 0 0 1)
             None None None None m in
  let d := CalcBody.get_down_vector (mkQuat 0 0 0 1) in
  exists nk up mid low,
    CalcBody.head s = Some (mk3 0 0 0) /\ CalcBody.neck s = Some nk /\
    CalcBody.upper_spine s = Some up /\ CalcBody.mid_spine s = Some mid /\
    CalcBody.lower_spine s = Some low /\
    norm d = 1%R /\
    nk = vadd (mk3 0 0 0) (vscale d (5 / 100 * (7 / 4))) /\
    up = vadd nk (vscale d (10 / 100 * (7 / 4))) /\
    mid = vadd up (vscale d (10 / 100 * (7 / 4))) /\
    low = vadd mid (vscale d (10 / 100 * (7 / 4))).
Proof.
  assert (Hq : quat_norm2 (mkQuat 0 0 0 1) = 1%R) by (unfold quat_norm2; simpl; lra).
  split; [exact Hq |].
  exact (spine_chain_along_down_vector (7 / 4) (mk3 0 0 0) (mkQuat 0 0 0 1)
           None None None None Hq).
Defined.

(** ** The rotation matrix and the geometry of a frame *)

Section Rotation.
Local Open Scope R_scope.

Lemma col2_dot (q : quat) :
  dot (col2 (CalcBody.quaternion_to_rotation_matrix q))
      (col2 (CalcBody.quaternion_to_rotation_matrix q))
  = 1 + 4 * (qx q * qx q + qy q * qy q) * (quat_norm2 q - 1).
Proof. destruct q. unfold dot, quat_norm2. simpl. ring. Qed.

Lemma col01_dot (q : quat) :
  dot (col0 (CalcBody.quaternion_to_rotation_matrix q))
      (col1 (CalcBody.quaternion_to_rotation_matrix q))
  = 4 * (qx q * qy q) * (1 - quat_norm2 q).
Proof. destruct q. unfold dot, quat_norm2. simpl. ring. Qed.

Lemma col02_dot (q : quat) :
  dot (col0 (CalcBody.quaternion_to_rotation_matrix q))
      (col2 (CalcBody.quaternion_to_rotation_matrix q))
  = 4 * (qx q * qz q) * (1 - quat_norm2 q).
Proof. destruct q. unfold dot, quat_norm2. simpl. ring. Qed.

Lemma col12_dot (q : quat) :
  dot (col1 (CalcBody.quaternion_to_rotation_matrix q))
      (col2 (CalcBody.quaternion_to_rotation_matrix q))
  = 4 * (qy q * qz q) * (1 - quat_norm2 q).
Proof. destruct q. unfold dot, quat_norm2. simpl. ring. Qed.

Lemma rotation_matrix_neg (q : quat) :
  CalcBody.quaternion_to_rotation_matrix (quat_neg q) =
  CalcBody.quaternion_to_rotation_matrix q.
Proof.
  destruct q. unfold CalcBody.quaternion_to_rotation_matrix, quat_neg. simpl.
  f_equal; f_equal; ring.
Qed.

Lemma dot_vscale_vscale (a b : vec3) (k l : R) :
  dot (vscale a k) (vscale b l) = k * l * dot a b.
Proof. unfold dot, vscale. simpl. ring. Qed.

Lemma dot_vdiv_l (a b : vec3) (k : R) : dot (vdiv a k) b = dot a b / k.
Proof. unfold dot, vdiv, Rdiv. simpl. ring. Qed.

Lemma dot_vneg_r (a b : vec3) : dot a (vneg b) = - dot a b.
Proof. unfold dot, vneg. simpl. ring. Qed.
End Rotation.

(** For a unit quaternion the matrix of [quaternion_to_rotation_matrix]
    is orthogonal: its columns have length 1 and are perpendicular to one
    another. *)
Theorem rotation_matrix_columns_orthonormal (q : quat) :
  quat_norm2 q = 1%R ->
  let m := CalcBody.quaternion_to_rotation_matrix q in
  dot (col0 m) (col0 m) = 1%R /\ dot (col1 m) (col1 m) = 1%R /\
  dot (col2 m) (col2 m) = 1%R /\
  dot (col0 m) (col1 m) = 0%R /\ dot (col0 m) (col2 m) = 0%R /\
  dot (col1 m) (col2 m) = 0%R.
Proof.
  intros Hq m. subst m.
  rewrite col0_dot, col1_dot, col2_dot, col01_dot, col02_dot, col12_dot, Hq.
  repeat split; ring.
Qed.

Lemma rotation_matrix_columns_orthonormal_witness :
  quat_norm2 (mkQuat (3 / 5) 0 0 (4 / 5)) = 1%R /\
  let m := CalcBody.quaternion_to_rotation_matrix (mkQuat (3 / 5) 0 0 (4 / 5)) in
  dot (col0 m) (col0 m) = 1%R /\ dot (col1 m) (col1 m) = 1%R /\
  dot (col2 m) (col2 m) = 1%R /\
  dot (col0 m) (col1 m) = 0%R /\ dot (col0 m) (col2 m) = 0%R /\
  dot (col1 m) (col2 m) = 0%R.
Proof.
  assert (Hq : quat_norm2 (mkQuat (3 / 5) 0 0 (4 / 5)) = 1%R)
    by (unfold quat_norm2; simpl; lra).
  split; [exact Hq |].
  exact (rotation_matrix_columns_orthonormal (mkQuat (3 / 5) 0 0 (4 / 5)) Hq).
Defined.

(** In a frame reconstructed from a unit head quaternion the line through
    the two shoulders is perpendicular to the spine. *)
Theorem shoulder_line_perpendicular_to_spine
    (head_pos : vec3) (head_quat : quat) (lw rw lf rf : pyvec) (m : AnthropometricModel) :
  quat_norm2 head_quat = 1%R ->
  let s := CalcBody.reconstruct_skeleton head_pos head_quat lw rw lf rf m in
  exists nk low l r,
    CalcBody.neck s = Some nk /\ CalcBody.lower_spine s = Some low /\
    CalcBody.left_shoulder s = Some l /\ CalcBody.right_shoulder s = Some r /\
    dot (vsub r l) (vsub low nk) = 0%R.
Proof.
  intros Hq s.
  destruct (reconstruct_skeleton_fields head_pos head_quat lw rw lf rf m)
    as (_ & H2 & _ & _ & H5 & H6 & H7 & _).
  eexists _, _, _, _.
  split; [exact H2 |]. split; [exact H5 |]. split; [exact H6 |]. split; [exact H7 |].
  set (nk := CalcBody.estimate_neck_position head_pos head_quat m).
  pose proof (shoulders_offsets
                (CalcBody.estimate_spine_positions nk head_quat m).1.1 head_quat m Hq)
    as Hoff. cbv zeta in Hoff.
  destruct (CalcBody.estimate_shoulder_positions _ head_quat m) as [l r].
  destruct Hoff as (-> & -> & _). cbn [fst snd].
  unfold CalcBody.estimate_spine_positions. cbv zeta. cbn [fst snd].
  unfold CalcBody.get_down_vector. cbv zeta.
  rewrite norm_vneg, (col1_unit _ Hq), vdiv_1.
  pose proof (col01_dot head_quat) as H01. rewrite Hq in H01.
  set (c0 := col0 (CalcBody.quaternion_to_rotation_matrix head_quat)) in *.
  set (c1 := col1 (CalcBody.quaternion_to_rotation_matrix head_quat)) in *.
  replace (dot _ _) with
    (- (shoulder_width m * (upper_spine_length m + mid_spine_length m + lower_spine_length m))
       * dot c0 c1)%R.
  - rewrite H01. ring.
  - clearbody nk c0 c1. clear. destruct nk, c0, c1.
    unfold dot, vsub, vadd, vscale, vneg. simpl. field.
Qed.

Lemma shoulder_line_perpendicular_to_spine_witness :
  quat_norm2 (mkQuat (3 / 5) 0 0 (4 / 5)) = 1%R /\
  let s := CalcBody.reconstruct_skeleton (mk3 0 0 0) (mkQuat (3 / 5) 0 0 (4 / 5))
             None None None None (AnthropometricModel_init (7 / 4)) in
  exists nk low l r,
    CalcBody.neck s = Some nk /\ CalcBody.lower_spine s = Some low /\
    CalcBody.left_shoulder s = Some l /\ CalcBody.right_shoulder s = Some r /\
    dot (vsub r l) (vsub low nk) = 0%R.
Proof.
  assert (Hq : quat_norm2 (mkQuat (3 / 5) 0 0 (4 / 5)) = 1%R)
    by (unfold quat_norm2; simpl; lra).
  split; [exact Hq |].
  exact (shoulder_line_perpendicular_to_spine (mk3 0 0 0) (mkQuat (3 / 5) 0 0 (4 / 5))
           None None None None (AnthropometricModel_init (7 / 4)) Hq).
Defined.

(** [q] and [-q] give the same frame: the sign of the quaternion that a
    resampler happens to return does not matter. *)
Theorem reconstruct_skeleton_quaternion_sign
    (head_pos : vec3) (head_quat : quat) (lw rw lf rf : pyvec) (m : AnthropometricModel) :
  CalcBody.reconstruct_skeleton head_pos (quat_neg head_quat) lw rw lf rf m =
  CalcBody.reconstruct_skeleton head_pos head_quat lw rw lf rf m.
Proof.
  unfold CalcBody.reconstruct_skeleton, CalcBody.estimate_neck_position,
    CalcBody.estimate_spine_positions, CalcBody.estimate_shoulder_positions,
    CalcBody.get_down_vector.
  now rewrite !rotation_matrix_neg.
Qed.

(** ** Moving the whole scene *)

Section Translation.
Local Open Scope R_scope.
Import CalcBody.

Lemma vadd_swap (a v b : vec3) : vadd (vadd a v) b = vadd (vadd a b) v.
Proof. destruct a, v, b. unfold vadd. simpl. f_equal; ring. Qed.

Lemma vsub_vadd_swap (a v b : vec3) : vsub (vadd a v) b = vadd (vsub a b) v.
Proof. destruct a, v, b. unfold vadd, vsub. simpl. f_equal; ring. Qed.

Lemma vsub_translated (a b v : vec3) : vsub (vadd a v) (vadd b v) = vsub a b.
Proof. destruct a, v, b. unfold vadd, vsub. simpl. f_equal; ring. Qed.

Lemma estimate_neck_position_translated (v head_pos : vec3) (q : quat)
    (m : AnthropometricModel) :
  estimate_neck_position (vadd head_pos v) q m = vadd (estimate_neck_position head_pos q m) v.
Proof. unfold estimate_neck_position. apply vadd_swap. Qed.

Lemma estimate_spine_positions_translated (v neck_pos : vec3) (q : quat)
    (m : AnthropometricModel) :
  estimate_spine_positions (vadd neck_pos v) q m =
  let '(u, md, lo) := estimate_spine_positions neck_pos q m in
  (vadd u v, vadd md v, vadd lo v).
Proof.
  unfold estimate_spine_positions. cbv zeta.
  now rewrite 3!(vadd_swap _ v).
Qed.

Lemma estimate_shoulder_positions_translated (v upper : vec3) (q : quat)
    (m : AnthropometricModel) :
  estimate_shoulder_positions (vadd upper v) q m =
  let '(l, r) := estimate_shoulder_positions upper q m in (vadd l v, vadd r v).
Proof.
  unfold estimate_shoulder_positions. cbv zeta.
  now rewrite (vadd_swap _ v), vsub_vadd_swap.
Qed.

Lemma estimate_elbow_position_translated (v sh : vec3) (f w : pyvec) (L : R) :
  estimate_elbow_position (vadd sh v) (translate v f) (translate v w) L =
  translate v (estimate_elbow_position sh f w L).
Proof.
  destruct f as [f |], w as [w |]; try reflexivity.
  unfold estimate_elbow_position, translate. cbn [fmap option_fmap option_map].
  rewrite vsub_translated.
  destruct (Rlt_dec _ _); cbn [option_map]; now rewrite (vadd_swap _ v).
Qed.
End Translation.

(** Moving the head and every landmark by the same vector moves every
    joint of the frame by that vector (absent joints stay absent): the
    reconstruction does not depend on where the origin of the tracking
    space is. *)
Theorem reconstruct_skeleton_translation
    (v head_pos : vec3) (head_quat : quat) (lw rw lf rf : pyvec) (m : AnthropometricModel) :
  CalcBody.reconstruct_skeleton (vadd head_pos v) head_quat
    (translate v lw) (translate v rw) (translate v lf) (translate v rf) m =
  translate_skeleton v (CalcBody.reconstruct_skeleton head_pos head_quat lw rw lf rf m).
Proof.
  unfold CalcBody.reconstruct_skeleton.
  rewrite estimate_neck_position_translated, estimate_spine_positions_translated.
  destruct (CalcBody.estimate_spine_positions _ head_quat m) as [[u md] lo].
  rewrite estimate_shoulder_positions_translated.
  destruct (CalcBody.estimate_shoulder_positions u head_quat m) as [l r].
  unfold translate_skeleton.
  cbn [CalcBody.head CalcBody.neck CalcBody.upper_spine CalcBody.mid_spine
       CalcBody.lower_spine CalcBody.left_shoulder CalcBody.right_shoulder
       CalcBody.left_elbow CalcBody.right_elbow CalcBody.left_wrist CalcBody.right_wrist].
  rewrite !estimate_elbow_position_translated. reflexivity.
Qed.

(** ** The elbow of calculate_and_join_skeleton_data.py *)

(** With the forearm landmark away from the shoulder, the elbow of
    [SkeletonCalculator.estimate_elbow_position] lies on the ray from the
    shoulder through the forearm landmark, at the upper-arm length from
    the shoulder; the wrist position plays no part. *)
Theorem CalcJoin_elbow_on_forearm_ray (m : AnthropometricModel) (sh f w : vec3) :
  f <> sh -> (0 <= upper_arm_length m)%R ->
  let e := CalcJoin.estimate_elbow_position m sh f w in
  let k := (upper_arm_length m / norm (vsub f sh))%R in
  (0 <= k)%R /\ vsub e sh = vscale (vsub f sh) k /\
  norm (vsub e sh) = upper_arm_length m /\
  forall w', CalcJoin.estimate_elbow_position m sh f w' = e.
Proof.
  intros Hne HL e k.
  pose proof (norm_vsub_nonzero f sh Hne) as Hn.
  pose proof (norm_nonneg (vsub f sh)) as Hpos.
  subst e k. unfold CalcJoin.estimate_elbow_position. cbv zeta.
  rewrite vadd_vsub_cancel.
  split; [| split; [| split; [| reflexivity]]].
  - apply Rmult_le_pos; [exact HL |]. left. apply Rinv_0_lt_compat. lra.
  - destruct (vsub f sh) as [x y z] eqn:E. unfold vscale, vdiv. cbn [vx vy vz].
    f_equal; field; exact Hn.
  - rewrite norm_vscale, norm_normalized, Rabs_pos_eq by assumption. ring.
Qed.

Lemma CalcJoin_elbow_on_forearm_ray_witness :
  mk3 0 0 2 <> mk3 0 0 0 /\
  (0 <= upper_arm_length (AnthropometricModel_init 1))%R /\
  let m := AnthropometricModel_init 1 in
  let e := CalcJoin.estimate_elbow_position m (mk3 0 0 0) (mk3 0 0 2) (mk3 5 5 5) in
  let k := (upper_arm_length m / norm (vsub (mk3 0 0 2) (mk3 0 0 0)))%R in
  (0 <= k)%R /\ vsub e (mk3 0 0 0) = vscale (vsub (mk3 0 0 2) (mk3 0 0 0)) k /\
  norm (vsub e (mk3 0 0 0)) = upper_arm_length m /\
  forall w', CalcJoin.estimate_elbow_position m (mk3 0 0 0) (mk3 0 0 2) w' = e.
Proof.
  assert (H1 : mk3 0 0 2 <> mk3 0 0 0) by (intros [= H]; lra).
  assert (H2 : (0 <= upper_arm_length (AnthropometricModel_init 1))%R) by (simpl; lra).
  split; [exact H1 |]. split; [exact H2 |].
  exact (CalcJoin_elbow_on_forearm_ray (AnthropometricModel_init 1)
           (mk3 0 0 0) (mk3 0 0 2) (mk3 5 5 5) H1 H2).
Defined.

(** ** When the organized table is returned, and what it never holds *)

Section AlignerMore.
Context {Cell : Type}.
Implicit Types (hand_data : list (HandRow Cell)) (row : HandRow Cell).

Lemma last_row_Some hand_data (hand : string) (t : Qc) row :
  last_row hand t hand_data = Some row ->
  row ∈ hand_data /\ h_t_mono row = t /\ h_chirality row = hand.
Proof.
  unfold last_row. intros H. apply last_Some_elem_of in H.
  apply list_elem_of_filter in H. tauto.
Qed.

(** [add_hand] only writes keys that end in its suffix. *)
Lemma add_hand_keys (sfx : string) row (d : gmap string Cell) (key : string) (v : Cell) :
  add_hand sfx row d !! key = Some v ->
  d !! key = Some v \/ exists col, key = col +:+ sfx.
Proof.
  unfold add_hand.
  induction (h_cells row) as [| [col c] cells IH] using rev_ind; [now left |].
  rewrite foldl_snoc. case_decide; [exact IH |].
  destruct (decide (key = col +:+ sfx)) as [-> | Hne]; [right; eauto |].
  rewrite lookup_insert_ne by congruence. exact IH.
Qed.

Lemma organize_keys hand_data (t : Qc) (key : string) (v : Cell) :
  o_cells (organize (hand_dicts hand_data).1 (hand_dicts hand_data).2 t) !! key = Some v ->
  exists col,
    (key = col +:+ "_right" /\ hand_cell "right" t col hand_data = Some v) \/
    (key = col +:+ "_left" /\ hand_cell "left" t col hand_data = Some v).
Proof.
  intros H.
  assert (Hform : exists col, key = col +:+ "_right" \/ key = col +:+ "_left").
  { unfold organize in H. cbn [o_cells] in H.
    destruct ((hand_dicts hand_data).2 !! t) as [left_row |].
    - apply add_hand_keys in H as [H | [col ->]]; [| eauto].
      destruct ((hand_dicts hand_data).1 !! t) as [right_row |];
        [| by rewrite lookup_empty in H].
      apply add_hand_keys in H as [H | [col ->]]; [by rewrite lookup_empty in H | eauto].
    - destruct ((hand_dicts hand_data).1 !! t) as [right_row |];
        [| by rewrite lookup_empty in H].
      apply add_hand_keys in H as [H | [col ->]]; [by rewrite lookup_empty in H | eauto]. }
  destruct Hform as [col Hcol]. exists col.
  destruct (organize_cells hand_data t col) as (_ & Hr & Hl).
  destruct Hcol as [-> | ->]; [left | right]; split; auto; congruence.
Qed.

(** The table has a hand's [forearmWrist_px] column exactly when that
    hand reported such a cell at some timestamp. *)
Lemma has_column_iff hand_data (hand sfx col : string) :
  (forall t c,
     o_cells (organize (hand_dicts hand_data).1 (hand_dicts hand_data).2 t) !! (c +:+ sfx)
     = hand_cell hand t c hand_data) ->
  has_column
    (organize (hand_dicts hand_data).1 (hand_dicts hand_data).2
       <$> merge_sort Qcle (unique (h_t_mono <$> hand_data))) (col +:+ sfx) = true
  <-> exists t v, hand_cell hand t col hand_data = Some v.
Proof.
  intros Hcells. unfold has_column. rewrite existsb_exists. split.
  - intros (r & Hr & Hsome). apply list_elem_of_In, list_elem_of_fmap in Hr as (t & -> & _).
    apply bool_decide_eq_true in Hsome as [v Hv]. rewrite Hcells in Hv. eauto.
  - intros (t & v & Hv).
    exists (organize (hand_dicts hand_data).1 (hand_dicts hand_data).2 t). split.
    + apply list_elem_of_In, list_elem_of_fmap_2.
      apply (all_timestamps_sorted (h_t_mono <$> hand_data)).
      unfold hand_cell in Hv.
      destruct (last_row hand t hand_data) as [row |] eqn:Hrow; [| discriminate].
      apply last_row_Some in Hrow as (Hin & <- & _). now apply list_elem_of_fmap_2.
    + apply bool_decide_eq_true. rewrite Hcells, Hv. eauto.
Qed.
End AlignerMore.

(** [load_and_organize_data] raises [KeyError] exactly when one of the two
    hands reported no [forearmWrist_px] cell at any timestamp, and returns
    the organized rows otherwise; in particular it raises whenever
    [hand_data] has no row of one hand. *)
Theorem load_and_organize_data_fails_exactly {Cell : Type}
    (hand_data : list (HandRow Cell)) :
  (load_and_organize_data hand_data = Raise KeyError <->
     (forall t, hand_cell "right" t "forearmWrist_px" hand_data = None) \/
     (forall t, hand_cell "left" t "forearmWrist_px" hand_data = None)) /\
  ((exists out, load_and_organize_data hand_data = Ok out) <->
     (exists t v, hand_cell "right" t "forearmWrist_px" hand_data = Some v) /\
     (exists t v, hand_cell "left" t "forearmWrist_px" hand_data = Some v)) /\
  (forall hand, hand = "right" \/ hand = "left" ->
     (forall row, row ∈ hand_data -> h_chirality row <> hand) ->
     load_and_organize_data hand_data = Raise KeyError).
Proof.
  pose proof (has_column_iff hand_data "right" "_right" "forearmWrist_px"
                (fun t c => proj1 (proj2 (organize_cells hand_data t c)))) as Hr.
  pose proof (has_column_iff hand_data "left" "_left" "forearmWrist_px"
                (fun t c => proj2 (proj2 (organize_cells hand_data t c)))) as Hl.
  change ("forearmWrist_px" +:+ "_right") with "forearmWrist_px_right" in Hr.
  change ("forearmWrist_px" +:+ "_left") with "forearmWrist_px_left" in Hl.
  assert (Hnone : forall hand,
            (forall t, hand_cell hand t "forearmWrist_px" hand_data = None) <->
            ~ exists t v, hand_cell hand t "forearmWrist_px" hand_data = Some v).
  { intros hand. split.
    - intros Hall (t & v & Hv). now rewrite Hall in Hv.
    - intros Hno t. destruct (hand_cell hand t _ hand_data) as [v |] eqn:E; [| reflexivity].
      exfalso. eauto. }
  assert (Hfirst : load_and_organize_data hand_data = Raise KeyError <->
            (forall t, hand_cell "right" t "forearmWrist_px" hand_data = None) \/
            (forall t, hand_cell "left" t "forearmWrist_px" hand_data = None)).
  { rewrite load_and_organize_data_outcome, !Hnone, <- Hr, <- Hl.
    destruct (has_column _ "forearmWrist_px_right"), (has_column _ "forearmWrist_px_left");
      cbn; intuition congruence. }
  split; [exact Hfirst |]. split.
  - rewrite load_and_organize_data_outcome, <- Hr, <- Hl.
    destruct (has_column _ "forearmWrist_px_right"), (has_column _ "forearmWrist_px_left");
      cbn; split; try (intros [out H]; discriminate); try (intros [? ?]; discriminate);
      eauto.
  - intros hand Hhand Hno. apply Hfirst.
    assert (Hcell : forall t, hand_cell hand t "forearmWrist_px" hand_data = None).
    { intros t. unfold hand_cell.
      destruct (last_row hand t hand_data) as [row |] eqn:Hrow; [| reflexivity].
      apply last_row_Some in Hrow as (Hin & _ & Hc). now apply Hno in Hin. }
    destruct Hhand as [-> | ->]; [left | right]; exact Hcell.
Qed.

(** An organized row holds nothing but cells of the two hands: every key
    is a copied column name followed by [_right] or [_left], with the cell
    that hand reported at the row's timestamp.  When no left or right row
    of [hand_data] has the row's timestamp, the row has no cell at all. *)
Theorem organized_rows_hold_nothing_else {Cell : Type}
    (hand_data : list (HandRow Cell)) (out : list (OrganizedRow Cell)) :
  load_and_organize_data hand_data = Ok out ->
  forall r, r ∈ out ->
    (forall key v, o_cells r !! key = Some v ->
       exists col, (col ∉ reserved) /\
         ((key = col +:+ "_right" /\
           hand_cell "right" (o_t_mono r) col hand_data = Some v) \/
          (key = col +:+ "_left" /\
           hand_cell "left" (o_t_mono r) col hand_data = Some v))) /\
    ((forall row, row ∈ hand_data -> h_t_mono row = o_t_mono r ->
        h_chirality row <> "right" /\ h_chirality row <> "left") ->
     o_cells r = ∅).
Proof.
  rewrite load_and_organize_data_outcome.
  destruct (_ && _); [| discriminate]. intros [= <-] r Hr.
  apply list_elem_of_fmap in Hr as (t & -> & _).
  assert (Ht : o_t_mono (organize (hand_dicts hand_data).1 (hand_dicts hand_data).2 t) = t)
    by reflexivity.
  rewrite Ht.
  assert (Hkeys : forall key v,
            o_cells (organize (hand_dicts hand_data).1 (hand_dicts hand_data).2 t) !! key
            = Some v ->
            exists col, (col ∉ reserved) /\
              ((key = col +:+ "_right" /\ hand_cell "right" t col hand_data = Some v) \/
               (key = col +:+ "_left" /\ hand_cell "left" t col hand_data = Some v))).
  { intros key v Hv. apply organize_keys in Hv as [col Hcol]. exists col.
    split; [| exact Hcol].
    intros Hres. unfold hand_cell in Hcol.
    destruct Hcol as [[_ H] | [_ H]];
      destruct (last_row _ t hand_data); try discriminate;
      now rewrite decide_True in H. }
  split; [exact Hkeys |].
  intros Hother. apply map_empty. intros key.
  destruct (_ !! key) as [v |] eqn:Hv; [| reflexivity]. exfalso.
  apply Hkeys in Hv as (col & _ & [[_ H] | [_ H]]); unfold hand_cell in H;
    destruct (last_row _ t hand_data) as [row |] eqn:Hrow; try discriminate;
    apply last_row_Some in Hrow as (Hin & Hrt & Hc);
    destruct (Hother row Hin Hrt) as [H1 H2]; contradiction.
Qed.

Lemma organized_rows_hold_nothing_else_witness :
  let out :=
    [ mkOrganizedRow (Qc_of_Z 1)
        (<["forearmWrist_px_left" := "wristL1"]>
         (<["forearmArm_px_left" := "armL1"]> ∅));
      mkOrganizedRow (Qc_of_Z 2)
        (<["forearmWrist_px_right" := "wristR2"]>
         (<["forearmArm_px_right" := "armR2"]>
         (<["forearmWrist_px_left" := "wristL2"]>
         (<["forearmArm_px_left" := "armL2"]> ∅))));
      mkOrganizedRow (Qc_of_Z 3)
        (<["forearmWrist_px_right" := "wristR3"]>
         (<["forearmArm_px_right" := "armR3"]> ∅)) ] in
  load_and_organize_data union_scenario = Ok out /\
  forall r, r ∈ out ->
    (forall key v, o_cells r !! key = Some v ->
       exists col, (col ∉ reserved) /\
         ((key = col +:+ "_right" /\
           hand_cell "right" (o_t_mono r) col union_scenario = Some v) \/
          (key = col +:+ "_left" /\
           hand_cell "left" (o_t_mono r) col union_scenario = Some v))) /\
    ((forall row, row ∈ union_scenario -> h_t_mono row = o_t_mono r ->
        h_chirality row <> "right" /\ h_chirality row <> "left") ->
     o_cells r = ∅).
Proof.
  intros out.
  assert (H : load_and_organize_data union_scenario = Ok out) by (vm_compute; reflexivity).
  split; [exact H |].
  exact (organized_rows_hold_nothing_else union_scenario out H).
Defined.

(** ** The resampler treats every query on its own *)

(** For an accepted head stream [interpolate_head_data] is a pointwise
    map: there is one pose function of the stream such that, for every
    list of hand timestamps, the positions and orientations returned are
    the images of the timestamps, one per timestamp and in their order.
    So the pose at a timestamp does not depend on the other timestamps of
    the list, and the result for a concatenation is the concatenation of
    the results. *)
Theorem interpolate_head_data_pointwise
    (cubic_spline : list (Qc * R) -> Qc -> R) (slerp : list (Qc * quat) -> Qc -> quat)
    (dev : list DeviceRow) :
  stream_accepted dev ->
  exists pose : Qc -> vec3 * quat,
    (forall hs, interpolate_head_data cubic_spline slerp dev hs =
                Ok ((fst ∘ pose) <$> hs, (snd ∘ pose) <$> hs)) /\
    (forall hs1 hs2 ps1 os1 ps2 os2,
        interpolate_head_data cubic_spline slerp dev hs1 = Ok (ps1, os1) ->
        interpolate_head_data cubic_spline slerp dev hs2 = Ok (ps2, os2) ->
        interpolate_head_data cubic_spline slerp dev (hs1 ++ hs2) =
        Ok (ps1 ++ ps2, os1 ++ os2)).
Proof.
  intros Hacc.
  assert (Hne : exists lo hi, ndarray_min (d_t_mono <$> dev) = Ok lo /\
                              ndarray_max (d_t_mono <$> dev) = Ok hi).
  { destruct Hacc as (Hlen & _ & _).
    destruct dev as [| r dev]; [cbn in Hlen; lia |].
    cbn. eauto. }
  destruct Hne as (lo & hi & Hlo & Hhi).
  pose proof (fun hs => interpolate_head_data_value cubic_spline slerp dev hs lo hi
                          Hacc Hlo Hhi) as Hval.
  cbv zeta in Hval.
  set (ts := d_t_mono <$> dev) in *.
  set (axis := fun f : vec3 -> R =>
         cubic_spline (merge_sort by_time (zip ts (f <$> (d_position <$> dev))))) in *.
  set (keys := zip ts (quat_normalize <$> (d_orientation <$> dev))) in *.
  set (pose := fun t : Qc =>
         let t' := nearest_in_range lo hi t in
         (mk3 (axis vx t') (axis vy t') (axis vz t'), slerp keys t')).
  assert (Hall : forall hs, interpolate_head_data cubic_spline slerp dev hs =
                            Ok ((fst ∘ pose) <$> hs, (snd ∘ pose) <$> hs)).
  { intros hs. rewrite Hval, <- !list_fmap_compose. reflexivity. }
  exists pose. split; [exact Hall |].
  intros hs1 hs2 ps1 os1 ps2 os2 H1 H2.
  rewrite Hall in H1, H2 |- *. rewrite !fmap_app. congruence.
Qed.

Lemma interpolate_head_data_pointwise_witness :
  let cs := key_value 0%R in
  let sl := key_value (mkQuat 0 0 0 1) in
  stream_accepted four_sample_stream /\
  exists pose : Qc -> vec3 * quat,
    (forall hs, interpolate_head_data cs sl four_sample_stream hs =
                Ok ((fst ∘ pose) <$> hs, (snd ∘ pose) <$> hs)) /\
    (forall hs1 hs2 ps1 os1 ps2 os2,
        interpolate_head_data cs sl four_sample_stream hs1 = Ok (ps1, os1) ->
        interpolate_head_data cs sl four_sample_stream hs2 = Ok (ps2, os2) ->
        interpolate_head_data cs sl four_sample_stream (hs1 ++ hs2) =
        Ok (ps1 ++ ps2, os1 ++ os2)).
Proof.
  intros cs sl. split; [exact four_sample_stream_accepted |].
  exact (interpolate_head_data_pointwise cs sl four_sample_stream
           four_sample_stream_accepted).
Defined.

(** ** The batch loop of calculate_and_join_skeleton_data.py *)

Section Batch.

Lemma getitem_Got {A : Type} (a : list A) (i : nat) (x : A) :
  getitem a i = Got x <-> a !! i = Some x.
Proof. unfold getitem. destruct (a !! i); split; congruence. Qed.

Lemma getitem_IndexError {A : Type} (a : list A) (i : nat) :
  getitem a i = IndexError <-> (length a <= i)%nat.
Proof.
  unfold getitem. rewrite <- lookup_ge_None.
  destruct (a !! i); split; congruence.
Qed.

Lemma extract_joint_positions_lookup (hand_df : list PivotRow) (j : Landmark)
    (c : string) (i : nat) :
  extract_joint_positions hand_df j c !! i = landmark_position j <$> hand_rows hand_df c !! i.
Proof. apply list_lookup_fmap. Qed.

Lemma extract_joint_positions_length (hand_df : list PivotRow) (j : Landmark) (c : string) :
  length (extract_joint_positions hand_df j c) = length (hand_rows hand_df c).
Proof. apply length_fmap. Qed.

Lemma frames_loop_Got (body : nat -> indexed FrameData) (indices : list nat)
    (frames : list FrameData) :
  frames_loop body indices = Got frames <->
  Forall2 (fun i f => body i = Got f) indices frames.
Proof.
  revert frames. induction indices as [| i rest IH]; intros frames; cbn.
  - split; [intros [= <-]; constructor | intros H; inversion H; reflexivity].
  - destruct (body i) as [f |] eqn:Ei; cbn.
    + destruct (frames_loop body rest) as [fs |]; cbn.
      * split.
        -- intros [= <-]. constructor; [exact Ei | now apply IH].
        -- intros H. inversion H as [| ? f' ? fs' Hf Hrest]; subst.
           apply IH in Hrest. congruence.
      * split; [discriminate |].
        intros H. inversion H as [| ? f' ? fs' Hf Hrest]; subst.
        apply IH in Hrest. discriminate.
    + split; [discriminate |].
      intros H. inversion H; subst. congruence.
Qed.

Lemma frames_loop_IndexError (body : nat -> indexed FrameData) (indices : list nat) :
  frames_loop body indices = IndexError <->
  Exists (fun i => body i = IndexError) indices.
Proof.
  induction indices as [| i rest IH]; cbn.
  - split; [discriminate | intros H; inversion H].
  - rewrite Exists_cons. destruct (body i) as [f |] eqn:Ei; cbn.
    + destruct (frames_loop body rest) as [fs |]; cbn.
      * split; [discriminate |]. intros [H | H]; [discriminate |].
        apply IH in H. discriminate.
      * split; [intros _; right; now apply IH | reflexivity].
    + split; [now left | reflexivity].
Qed.

Lemma frame_body_Got (m : AnthropometricModel) (dev : list DeviceRow)
    (lwp rwp lfp rfp : list vec3) (i : nat) (f : FrameData) :
  frame_body m dev lwp rwp lfp rfp i = Got f <->
  exists row lw rw lf rf,
    dev !! i = Some row /\ lwp !! i = Some lw /\ rwp !! i = Some rw /\
    lfp !! i = Some lf /\ rfp !! i = Some rf /\
    let joints :=
      CalcJoin.reconstruct_skeleton m (d_position row) (d_orientation row) lw rw lf rf in
    f = mkFrameData i (d_t_mono row)
          (CalcJoin.calculate_skeleton_angles joints ∪ joint_columns joints).
Proof.
  unfold frame_body, getitem. rewrite !list_lookup_fmap.
  destruct (dev !! i) as [row |]; cbn;
    [| split; [discriminate | intros (? & ? & ? & ? & ? & ? & _); discriminate]].
  destruct (lwp !! i) as [lw |]; cbn;
    [| split; [discriminate | intros (? & ? & ? & ? & ? & _ & ? & _); discriminate]].
  destruct (rwp !! i) as [rw |]; cbn;
    [| split; [discriminate | intros (? & ? & ? & ? & ? & _ & _ & ? & _); discriminate]].
  destruct (lfp !! i) as [lf |]; cbn;
    [| split; [discriminate | intros (? & ? & ? & ? & ? & _ & _ & _ & ? & _); discriminate]].
  destruct (rfp !! i) as [rf |]; cbn;
    [| split; [discriminate | intros (? & ? & ? & ? & ? & _ & _ & _ & _ & ? & _); discriminate]].
  split.
  - intros [= <-]. exists row, lw, rw, lf, rf. repeat split.
  - intros (? & ? & ? & ? & ? & [= <-] & [= <-] & [= <-] & [= <-] & [= <-] & ->).
    reflexivity.
Qed.

Lemma frame_body_IndexError (m : AnthropometricModel) (dev : list DeviceRow)
    (lwp rwp lfp rfp : list vec3) (i : nat) :
  frame_body m dev lwp rwp lfp rfp i = IndexError <->
  (length dev <= i \/ length lwp <= i \/ length rwp <= i \/
   length lfp <= i \/ length rfp <= i)%nat.
Proof.
  rewrite <- !lookup_ge_None.
  unfold frame_body, getitem. rewrite !list_lookup_fmap.
  destruct (dev !! i) as [row |]; cbn; [| tauto].
  destruct (lwp !! i) as [lw |]; cbn; [| tauto].
  destruct (rwp !! i) as [rw |]; cbn; [| tauto].
  destruct (lfp !! i) as [lf |]; cbn; [| tauto].
  destruct (rfp !! i) as [rf |]; cbn; [| tauto].
  split; [discriminate | intros [H | [H | [H | [H | H]]]]; discriminate].
Qed.

(** What a returned table holds. *)
Lemma calculate_skeleton_data_Got (device_data : list DeviceRow)
    (hand_data : list PivotRow) (user_height : R) (frames : list FrameData) :
  calculate_skeleton_data device_data hand_data user_height = Got frames ->
  length frames = length device_data /\
  forall i f, frames !! i = Some f ->
    exists row l r,
      device_data !! i = Some row /\
      hand_rows hand_data "left" !! i = Some l /\
      hand_rows hand_data "right" !! i = Some r /\
      let joints := frame_joints (AnthropometricModel_init user_height) row l r in
      f = mkFrameData i (d_t_mono row)
            (CalcJoin.calculate_skeleton_angles joints ∪ joint_columns joints).
Proof.
  unfold calculate_skeleton_data. cbv zeta. rewrite length_fmap.
  intros H. apply frames_loop_Got in H.
  split; [apply Forall2_length in H; rewrite length_seq in H; congruence |].
  intros i f Hf.
  destruct (Forall2_lookup_r _ _ _ _ _ H Hf) as (i' & Hi' & Hbody).
  apply lookup_seq in Hi' as [-> _]. cbn [Nat.add] in Hbody.
  apply frame_body_Got in Hbody
    as (row & lw & rw & lf & rf & Hrow & Hlw & Hrw & Hlf & Hrf & Hfr).
  rewrite extract_joint_positions_lookup in Hlw, Hrw, Hlf, Hrf.
  destruct (hand_rows hand_data "left" !! i) as [l |]; [| discriminate].
  destruct (hand_rows hand_data "right" !! i) as [r |]; [| discriminate].
  cbn in Hlw, Hrw, Hlf, Hrf.
  injection Hlw as <-. injection Hrw as <-. injection Hlf as <-. injection Hrf as <-.
  exists row, l, r. repeat split; auto.
Qed.

Lemma calculate_skeleton_data_IndexError (device_data : list DeviceRow)
    (hand_data : list PivotRow) (user_height : R) :
  calculate_skeleton_data device_data hand_data user_height = IndexError <->
  (length (hand_rows hand_data "left") < length device_data \/
   length (hand_rows hand_data "right") < length device_data)%nat.
Proof.
  unfold calculate_skeleton_data. cbv zeta. rewrite length_fmap.
  rewrite frames_loop_IndexError, Exists_exists.
  setoid_rewrite frame_body_IndexError.
  setoid_rewrite extract_joint_positions_length.
  setoid_rewrite elem_of_seq.
  split.
  - intros (i & Hi & H). lia.
  - intros [H | H].
    + exists (length (hand_rows hand_data "left")). lia.
    + exists (length (hand_rows hand_data "right")). lia.
Qed.

Lemma calculate_skeleton_data_succeeds (device_data : list DeviceRow)
    (hand_data : list PivotRow) (user_height : R) :
  (length device_data <= length (hand_rows hand_data "left"))%nat ->
  (length device_data <= length (hand_rows hand_data "right"))%nat ->
  exists frames, calculate_skeleton_data device_data hand_data user_height = Got frames.
Proof.
  intros Hl Hr.
  destruct (calculate_skeleton_data device_data hand_data user_height) as [frames |] eqn:E;
    [eauto |].
  apply calculate_skeleton_data_IndexError in E. lia.
Qed.

End Batch.

(** [calculate_skeleton_data] pairs rows by position, not by time.  It
    returns a table exactly when each hand has at least as many rows as
    the head stream, and raises [IndexError] otherwise (a hand that
    reported fewer rows than the head, or not at all).  A returned table
    has one frame per device row; frame [i] carries the index [i] and the
    timestamp of device row [i], and is built from device row [i], the
    [i]-th row of the left hand and the [i]-th row of the right hand,
    whatever the timestamps of those hand rows; hand rows beyond the
    number of device rows are not used. *)
Theorem calculate_skeleton_data_pairs_by_position (device_data : list DeviceRow)
    (hand_data : list PivotRow) (user_height : R) :
  let n := length device_data in
  let lefts := hand_rows hand_data "left" in
  let rights := hand_rows hand_data "right" in
  let out := calculate_skeleton_data device_data hand_data user_height in
  ((exists frames, out = Got frames) <-> (n <= length lefts /\ n <= length rights)%nat) /\
  (out = IndexError <-> (length lefts < n \/ length rights < n)%nat) /\
  (forall frames, out = Got frames ->
     length frames = n /\
     forall i f, frames !! i = Some f ->
       exists row l r,
         device_data !! i = Some row /\ lefts !! i = Some l /\ rights !! i = Some r /\
         f_frame f = i /\ f_t_mono f = d_t_mono row /\
         let joints := frame_joints (AnthropometricModel_init user_height) row l r in
         f_cols f = CalcJoin.calculate_skeleton_angles joints ∪ joint_columns joints).
Proof.
  intros n lefts rights out.
  pose proof (calculate_skeleton_data_IndexError device_data hand_data user_height) as Herr.
  fold out n lefts rights in Herr.
  split; [| split; [exact Herr |]].
  - split.
    + intros [frames Hf].
      destruct (decide (n <= length lefts /\ n <= length rights)%nat) as [| Hn]; [assumption |].
      assert (out = IndexError) by (apply Herr; lia). congruence.
    + intros [Hl Hr]. now apply calculate_skeleton_data_succeeds.
  - intros frames Hf.
    destruct (calculate_skeleton_data_Got _ _ _ _ Hf) as [Hlen Hall].
    split; [exact Hlen |].
    intros i f Hi. destruct (Hall i f Hi) as (row & l & r & H1 & H2 & H3 & ->).
    exists row, l, r. repeat split; assumption.
Qed.

(** ** The columns of a frame *)

Section FrameColumns.

Lemma app_key_inj (a b s1 s2 : string) :
  String.length s1 = String.length s2 -> a +:+ s1 = b +:+ s2 -> a = b /\ s1 = s2.
Proof.
  intros Hlen. revert b. induction a as [| c a IH]; intros [| d b] H.
  - now rewrite !string_app_nil in H.
  - exfalso. apply (f_equal String.length) in H.
    rewrite !string_length_app in H. cbn in H. lia.
  - exfalso. apply (f_equal String.length) in H.
    rewrite !string_length_app in H. cbn in H. lia.
  - rewrite !string_app_cons in H. injection H as -> H.
    destruct (IH b H) as [-> ->]. auto.
Qed.

Lemma coordinate_suffix_length (sfx : string) (f : vec3 -> R) :
  (sfx, f) ∈ coordinate_suffixes -> String.length sfx = 2%nat.
Proof.
  unfold coordinate_suffixes. rewrite !elem_of_cons, elem_of_nil.
  intros [[= -> _] | [[= -> _] | [[= -> _] | []]]]; reflexivity.
Qed.

Lemma coordinate_key_inj (i j s1 s2 : string) (f1 f2 : vec3 -> R) :
  (s1, f1) ∈ coordinate_suffixes -> (s2, f2) ∈ coordinate_suffixes ->
  i +:+ s1 = j +:+ s2 -> i = j /\ f1 = f2.
Proof.
  intros H1 H2 H.
  apply app_key_inj in H as [-> ->];
    [| rewrite (coordinate_suffix_length _ _ H1), (coordinate_suffix_length _ _ H2);
       reflexivity].
  split; [reflexivity |].
  unfold coordinate_suffixes in H1, H2. rewrite !elem_of_cons, elem_of_nil in H1, H2.
  destruct H1 as [[= -> ->] | [[= -> ->] | [[= -> ->] | []]]];
    destruct H2 as [[= ?] | [[= ?] | [[= ?] | []]]]; subst; reflexivity || discriminate.
Qed.

Lemma suffixes_mem :
  ("_x", vx) ∈ coordinate_suffixes /\ ("_y", vy) ∈ coordinate_suffixes /\
  ("_z", vz) ∈ coordinate_suffixes.
Proof. unfold coordinate_suffixes. rewrite !elem_of_cons. auto 10. Qed.

(** The three writes of one joint. *)
Lemma joint_writes_lookup (i : string) (p : vec3) (r : gmap string npfloat) (key : string) :
  (<[i +:+ "_z" := Finite (vz p)]>
   (<[i +:+ "_y" := Finite (vy p)]>
   (<[i +:+ "_x" := Finite (vx p)]> r))) !! key =
  if decide (key = i +:+ "_z") then Some (Finite (vz p))
  else if decide (key = i +:+ "_y") then Some (Finite (vy p))
  else if decide (key = i +:+ "_x") then Some (Finite (vx p))
  else r !! key.
Proof.
  destruct (decide (key = i +:+ "_z")) as [-> | Hz]; [apply lookup_insert_eq |].
  rewrite lookup_insert_ne by congruence.
  destruct (decide (key = i +:+ "_y")) as [-> | Hy]; [apply lookup_insert_eq |].
  rewrite lookup_insert_ne by congruence.
  destruct (decide (key = i +:+ "_x")) as [-> | Hx]; [apply lookup_insert_eq |].
  now rewrite lookup_insert_ne by congruence.
Qed.

Lemma joint_writes_own (i : string) (p : vec3) (r : gmap string npfloat)
    (sfx : string) (f : vec3 -> R) :
  (sfx, f) ∈ coordinate_suffixes ->
  (<[i +:+ "_z" := Finite (vz p)]>
   (<[i +:+ "_y" := Finite (vy p)]>
   (<[i +:+ "_x" := Finite (vx p)]> r))) !! (i +:+ sfx) = Some (Finite (f p)).
Proof.
  intros Hin. rewrite joint_writes_lookup.
  destruct suffixes_mem as (Hx & Hy & Hz).
  destruct (decide _) as [E | Hnz];
    [destruct (coordinate_key_inj _ _ _ _ _ _ Hin Hz E) as [_ ->]; reflexivity |].
  destruct (decide _) as [E | Hny];
    [destruct (coordinate_key_inj _ _ _ _ _ _ Hin Hy E) as [_ ->]; reflexivity |].
  destruct (decide _) as [E | Hnx];
    [destruct (coordinate_key_inj _ _ _ _ _ _ Hin Hx E) as [_ ->]; reflexivity |].
  exfalso. unfold coordinate_suffixes in Hin. rewrite !elem_of_cons, elem_of_nil in Hin.
  destruct Hin as [[= -> ->] | [[= -> ->] | [[= -> ->] | []]]]; congruence.
Qed.

Lemma joint_writes_other (i : string) (p : vec3) (r : gmap string npfloat) (key : string) :
  (forall sfx f, (sfx, f) ∈ coordinate_suffixes -> key <> i +:+ sfx) ->
  (<[i +:+ "_z" := Finite (vz p)]>
   (<[i +:+ "_y" := Finite (vy p)]>
   (<[i +:+ "_x" := Finite (vx p)]> r))) !! key = r !! key.
Proof.
  intros Hne. rewrite joint_writes_lookup.
  destruct suffixes_mem as (Hx & Hy & Hz).
  rewrite !decide_False; [reflexivity | | |];
    [apply (Hne _ vx Hx) | apply (Hne _ vy Hy) | apply (Hne _ vz Hz)].
Qed.

(** The coordinate columns are the coordinates of the joints that are
    not [None], each under its own three keys. *)
Lemma joint_columns_lookup (joints : gmap string pyvec) (key : string) (v : npfloat) :
  joint_columns joints !! key = Some v <->
  exists joint p sfx f,
    joints !! joint = Some (Some p) /\ (sfx, f) ∈ coordinate_suffixes /\
    key = joint +:+ sfx /\ v = Finite (f p).
Proof.
  unfold joint_columns. revert key v.
  apply (map_fold_weak_ind
    (fun (r : gmap string npfloat) (m : gmap string pyvec) =>
       forall key v, r !! key = Some v <->
         exists joint p sfx f,
           m !! joint = Some (Some p) /\ (sfx, f) ∈ coordinate_suffixes /\
           key = joint +:+ sfx /\ v = Finite (f p))).
  - intros key v. rewrite lookup_empty. split; [discriminate |].
    intros (j & p & sfx & f & H & _). rewrite lookup_empty in H. discriminate.
  - intros i x m r Hi IH key v. destruct x as [p |].
    + split.
      * intros H. rewrite joint_writes_lookup in H.
        destruct suffixes_mem as (Hx & Hy & Hz).
        destruct (decide (key = i +:+ "_z")) as [-> | Hnz];
          [injection H as <-; exists i, p, "_z", vz; rewrite lookup_insert_eq; auto |].
        destruct (decide (key = i +:+ "_y")) as [-> | Hny];
          [injection H as <-; exists i, p, "_y", vy; rewrite lookup_insert_eq; auto |].
        destruct (decide (key = i +:+ "_x")) as [-> | Hnx];
          [injection H as <-; exists i, p, "_x", vx; rewrite lookup_insert_eq; auto |].
        apply IH in H as (j & p' & sfx & f & Hj & Hin & -> & ->).
        exists j, p', sfx, f. rewrite lookup_insert_ne by congruence. auto.
      * intros (j & p' & sfx & f & Hj & Hin & -> & ->).
        destruct (decide (j = i)) as [-> | Hji].
        -- rewrite lookup_insert_eq in Hj. injection Hj as <-.
           now apply joint_writes_own.
        -- rewrite lookup_insert_ne in Hj by congruence.
           rewrite joint_writes_other.
           ++ apply IH. exists j, p', sfx, f. auto.
           ++ intros sfx' f' Hin' E.
              destruct (coordinate_key_inj _ _ _ _ _ _ Hin Hin' E). congruence.
    + rewrite IH. split; intros (j & p' & sfx & f & Hj & Hrest); exists j, p', sfx, f.
      * rewrite lookup_insert_ne by congruence. auto.
      * destruct (decide (j = i)) as [-> | Hji].
        -- rewrite lookup_insert_eq in Hj. discriminate.
        -- rewrite lookup_insert_ne in Hj by congruence. auto.
Qed.

Ltac peel_key H j :=
  repeat (destruct j as [| ? j];
          [ rewrite string_app_nil in H; discriminate H
          | rewrite string_app_cons in H;
            first [discriminate H | injection H as _ H] ]).

(** No coordinate key is the name of an angle. *)
Lemma coordinate_key_not_angle_name (joint sfx : string) (f : vec3 -> R) :
  (sfx, f) ∈ coordinate_suffixes -> joint +:+ sfx ∉ angle_names.
Proof.
  intros Hin Hk.
  unfold coordinate_suffixes in Hin. rewrite !elem_of_cons, elem_of_nil in Hin.
  unfold angle_names in Hk. rewrite !elem_of_cons, elem_of_nil in Hk.
  destruct Hin as [[= -> _] | [[= -> _] | [[= -> _] | []]]];
    destruct Hk as [H | [H | [H | [H | [H | []]]]]]; peel_key H joint.
Qed.

(** The dictionary of angles has no other key than the five names. *)
Lemma run_try_keys (joints : gmap string pyvec) (specs : list AngleSpec)
    (angles : gmap string npfloat) (n : string) :
  is_Some (run_try joints specs angles !! n) ->
  is_Some (angles !! n) \/ n ∈ a_name <$> specs.
Proof.
  revert angles. induction specs as [| sp specs IH]; intros angles H; [now left |].
  rewrite run_try_cons in H. rewrite fmap_cons, elem_of_cons.
  destruct (outcome joints sp) as [[a | e] |].
  - apply IH in H as [H | H]; [| tauto].
    destruct (decide (a_name sp = n)) as [<- | Hne]; [tauto |].
    rewrite lookup_insert_ne in H by assumption. tauto.
  - tauto.
  - apply IH in H. tauto.
Qed.

Lemma calculate_skeleton_angles_keys (joints : gmap string pyvec) (n : string) :
  is_Some (CalcJoin.calculate_skeleton_angles joints !! n) -> n ∈ angle_names.
Proof.
  rewrite calculate_skeleton_angles_run. intros H.
  apply run_try_keys in H as [H | H]; [| exact H].
  rewrite lookup_empty in H. now destruct H.
Qed.

(** Every joint of a reconstructed frame has a position. *)
Lemma reconstruct_skeleton_joint_names (m : AnthropometricModel) (head_pos : vec3) (q : quat)
    (lw rw lf rf : vec3) (joint : string) :
  joint ∈ joint_names <->
  exists p, CalcJoin.reconstruct_skeleton m head_pos q lw rw lf rf !! joint = Some (Some p).
Proof.
  unfold CalcJoin.reconstruct_skeleton.
  destruct (CalcJoin.estimate_spine_positions _ _ _) as [[upper mid] lower].
  destruct (CalcJoin.estimate_shoulder_positions _ _ _) as [l r].
  cbv zeta. split.
  - unfold joint_names. rewrite !elem_of_cons, elem_of_nil.
    intros H. repeat (destruct H as [-> | H]; [eexists; dict_lookup |]). destruct H.
  - intros [p H].
    repeat (apply lookup_insert_Some in H as [[<- _] | [_ H]];
            [unfold joint_names; rewrite !elem_of_cons; auto 20 |]).
    rewrite lookup_empty in H. discriminate.
Qed.

Lemma angle_of_arrays_range (p1 p2 p3 : vec3) :
  CalcJoin.angle_of_arrays p1 p2 p3 = NaN \/
  exists a, CalcJoin.angle_of_arrays p1 p2 p3 = Finite a /\ (0 <= a <= 180)%R.
Proof.
  unfold CalcJoin.angle_of_arrays. cbv zeta.
  destruct (Req_dec_T _ 0); [now left | right].
  eexists. split; [reflexivity | apply np_degrees_acos_range].
Qed.

(** On a reconstructed frame every statement of the [try] block computes
    its angle. *)
Lemma reconstructed_outcome (m : AnthropometricModel) (head_pos : vec3) (q : quat)
    (lw rw lf rf : vec3) (sp : AngleSpec) :
  sp ∈ angle_specs ->
  exists p1 p2 p3,
    outcome (CalcJoin.reconstruct_skeleton m head_pos q lw rw lf rf) sp =
    Some (Ok (CalcJoin.angle_of_arrays p1 p2 p3)).
Proof.
  intros Hsp.
  assert (Hkey : forall k, k ∈ joint_names ->
            exists p, CalcJoin.reconstruct_skeleton m head_pos q lw rw lf rf !! k =
                      Some (Some p))
    by (intros k; apply reconstruct_skeleton_joint_names).
  unfold angle_specs in Hsp. rewrite !elem_of_cons, elem_of_nil in Hsp.
  unfold outcome.
  repeat (destruct Hsp as [-> | Hsp];
    [cbn [a_p1 a_p2 a_p3];
     match goal with
     | |- context [_ !! ?k1] =>
         destruct (Hkey k1) as [p1 ->]; [unfold joint_names; rewrite !elem_of_cons; auto 20 |]
     end;
     match goal with
     | |- context [CalcJoin.reconstruct_skeleton _ _ _ _ _ _ _ !! ?k2] =>
         destruct (Hkey k2) as [p2 ->]; [unfold joint_names; rewrite !elem_of_cons; auto 20 |]
     end;
     match goal with
     | |- context [CalcJoin.reconstruct_skeleton _ _ _ _ _ _ _ !! ?k3] =>
         destruct (Hkey k3) as [p3 ->]; [unfold joint_names; rewrite !elem_of_cons; auto 20 |]
     end;
     exists p1, p2, p3; reflexivity |]).
  destruct Hsp.
Qed.

End FrameColumns.

Section FrameAngles.

(** The spine angle of a reconstructed frame. *)
Lemma reconstructed_spine_bend (height_m : R) (head_pos : vec3) (head_quat : quat)
    (lw rw lf rf : vec3) :
  height_m <> 0%R -> quat_norm2 head_quat = 1%R ->
  CalcJoin.calculate_skeleton_angles
    (CalcJoin.reconstruct_skeleton (AnthropometricModel_init height_m)
       head_pos head_quat lw rw lf rf) !! "spine_bend_angle" = Some (Finite 180).
Proof.
  intros Hh Hq.
  set (m := AnthropometricModel_init height_m).
  set (joints := CalcJoin.reconstruct_skeleton m head_pos head_quat lw rw lf rf).
  destruct (reconstruct_skeleton_spine_keys m head_pos head_quat lw rw lf rf)
    as (Hnk & Hmid & Hlow).
  fold joints in Hnk, Hmid, Hlow.
  set (nk := CalcBody.estimate_neck_position head_pos head_quat m) in *.
  pose proof (spine_bend_is_180 height_m nk head_quat Hh Hq) as H180.
  cbv zeta in H180. fold m in H180.
  destruct (CalcBody.estimate_spine_positions nk head_quat m) as [[upper mid] lower].
  cbn [fst snd] in Hmid, Hlow.
  rewrite calculate_skeleton_angles_run.
  apply (run_try_computed joints angle_specs ∅
           (mkAngleSpec "spine_bend_angle" "neck" "mid_spine" "lower_spine")).
  - apply angle_specs_names_NoDup.
  - apply Forall_forall. intros s _.
    apply no_failure_without_none, reconstruct_skeleton_values.
  - unfold angle_specs. rewrite !elem_of_cons. auto 10.
  - unfold outcome. cbn [a_p1 a_p2 a_p3]. rewrite Hnk, Hmid, Hlow.
    unfold CalcJoin.calculate_angle_3_points. now rewrite H180.
Qed.

(** On a reconstructed frame all five angles are computed. *)
Lemma reconstructed_angles (m : AnthropometricModel) (head_pos : vec3) (q : quat)
    (lw rw lf rf : vec3) (name : string) :
  name ∈ angle_names ->
  exists p1 p2 p3,
    CalcJoin.calculate_skeleton_angles
      (CalcJoin.reconstruct_skeleton m head_pos q lw rw lf rf) !! name =
    Some (CalcJoin.angle_of_arrays p1 p2 p3).
Proof.
  intros Hname.
  change angle_names with (a_name <$> angle_specs) in Hname.
  apply list_elem_of_fmap in Hname as (sp & -> & Hsp).
  destruct (reconstructed_outcome m head_pos q lw rw lf rf sp Hsp) as (p1 & p2 & p3 & Hout).
  exists p1, p2, p3.
  rewrite calculate_skeleton_angles_run.
  apply run_try_computed; auto using angle_specs_names_NoDup.
  apply Forall_forall. intros s _.
  apply no_failure_without_none, reconstruct_skeleton_values.
Qed.

End FrameAngles.

Lemma example_hand_rows_lengths :
  length (hand_rows example_hand_data "left") = 3%nat /\
  length (hand_rows example_hand_data "right") = 2%nat.
Proof.
  unfold hand_rows, example_hand_data.
  repeat (rewrite filter_cons; cbn [p_chirality];
          first [rewrite decide_True by reflexivity | rewrite decide_False by discriminate]).
  rewrite !filter_nil. split; reflexivity.
Qed.

(** The coordinate columns of a frame returned by
    [calculate_skeleton_data].  Frame [i] has the three columns
    [<joint>_x], [<joint>_y] and [<joint>_z] of each of the thirteen
    joints of the reconstructed skeleton, and apart from these 39 columns
    only angle columns.  The columns of a joint hold its coordinates
    whenever the computation of the joint divides by no zero norm
    ([coordinates_defined]): always for the head, the wrists and the
    forearms, which are the position of device row [i] and the landmarks
    of the [i]-th row of each hand passed through unchanged; for a unit
    head quaternion for the neck, the spine and the shoulders; and for
    the elbow of a side when moreover the forearm landmark of the side is
    not at the shoulder. *)
Theorem frames_hold_joint_coordinates (device_data : list DeviceRow)
    (hand_data : list PivotRow) (user_height : R) (frames : list FrameData) :
  calculate_skeleton_data device_data hand_data user_height = Got frames ->
  forall i f, frames !! i = Some f ->
    exists row l r,
      device_data !! i = Some row /\
      hand_rows hand_data "left" !! i = Some l /\
      hand_rows hand_data "right" !! i = Some r /\
      let joints := frame_joints (AnthropometricModel_init user_height) row l r in
      (forall joint, joint ∈ joint_names ->
         is_Some (f_cols f !! (joint +:+ "_x")) /\
         is_Some (f_cols f !! (joint +:+ "_y")) /\
         is_Some (f_cols f !! (joint +:+ "_z"))) /\
      (forall joint,
         coordinates_defined joints (d_orientation row)
           (p_forearmArm l) (p_forearmArm r) joint ->
         exists p, joints !! joint = Some (Some p) /\
                   f_cols f !! (joint +:+ "_x") = Some (Finite (vx p)) /\
                   f_cols f !! (joint +:+ "_y") = Some (Finite (vy p)) /\
                   f_cols f !! (joint +:+ "_z") = Some (Finite (vz p))) /\
      (joints !! "head" = Some (Some (d_position row)) /\
       joints !! "left_wrist" = Some (Some (p_forearmWrist l)) /\
       joints !! "right_wrist" = Some (Some (p_forearmWrist r)) /\
       joints !! "left_forearm" = Some (Some (p_forearmArm l)) /\
       joints !! "right_forearm" = Some (Some (p_forearmArm r))) /\
      (forall key, is_Some (f_cols f !! key) ->
         key ∈ angle_names \/
         exists joint sfx c, joint ∈ joint_names /\ (sfx, c) ∈ coordinate_suffixes /\
                             key = joint +:+ sfx).
Proof.
  intros Hout i f Hf.
  destruct (calculate_skeleton_data_Got _ _ _ _ Hout) as [_ Hall].
  destruct (Hall i f Hf) as (row & l & r & Hrow & Hl & Hr & ->).
  exists row, l, r. split; [exact Hrow |]. split; [exact Hl |]. split; [exact Hr |].
  intros joints. cbn [f_cols].
  assert (Hcol : forall joint p sfx c,
            joints !! joint = Some (Some p) -> (sfx, c) ∈ coordinate_suffixes ->
            (CalcJoin.calculate_skeleton_angles joints ∪ joint_columns joints)
              !! (joint +:+ sfx) = Some (Finite (c p))).
  { intros joint p sfx c Hj Hin. apply lookup_union_Some_raw. right. split.
    - destruct (CalcJoin.calculate_skeleton_angles joints !! (joint +:+ sfx)) eqn:E;
        [| reflexivity].
      exfalso. apply (coordinate_key_not_angle_name joint sfx c Hin).
      apply (calculate_skeleton_angles_keys joints). rewrite E. eauto.
    - apply joint_columns_lookup. exists joint, p, sfx, c. auto. }
  destruct suffixes_mem as (Hx & Hy & Hz).
  assert (Hjoint : forall joint, joint ∈ joint_names ->
            exists p, joints !! joint = Some (Some p) /\
              (CalcJoin.calculate_skeleton_angles joints ∪ joint_columns joints)
                !! (joint +:+ "_x") = Some (Finite (vx p)) /\
              (CalcJoin.calculate_skeleton_angles joints ∪ joint_columns joints)
                !! (joint +:+ "_y") = Some (Finite (vy p)) /\
              (CalcJoin.calculate_skeleton_angles joints ∪ joint_columns joints)
                !! (joint +:+ "_z") = Some (Finite (vz p))).
  { intros joint Hjoint.
    apply (reconstruct_skeleton_joint_names (AnthropometricModel_init user_height)
             (d_position row) (d_orientation row)
             (p_forearmWrist l) (p_forearmWrist r) (p_forearmArm l) (p_forearmArm r))
      in Hjoint as [p Hp].
    fold (frame_joints (AnthropometricModel_init user_height) row l r) in Hp.
    fold joints in Hp.
    exists p. split; [exact Hp |].
    split; [apply (Hcol joint p "_x" vx Hp Hx) |].
    split; [apply (Hcol joint p "_y" vy Hp Hy) | apply (Hcol joint p "_z" vz Hp Hz)]. }
  split; [| split; [| split]].
  - intros joint Hj. destruct (Hjoint joint Hj) as (p & _ & H1 & H2 & H3).
    split; [eexists; exact H1 | split; [eexists; exact H2 | eexists; exact H3]].
  - intros joint Hdef. apply Hjoint.
    unfold coordinates_defined, tracked_joint_names, spine_joint_names in Hdef.
    unfold joint_names. rewrite !elem_of_cons. rewrite !elem_of_cons, !elem_of_nil in Hdef.
    destruct Hdef as [Hd | [[_ Hd] | [(_ & -> & _) | (_ & -> & _)]]].
    + repeat (destruct Hd as [-> | Hd]; [auto 20 |]). destruct Hd.
    + repeat (destruct Hd as [-> | Hd]; [auto 20 |]). destruct Hd.
    + auto 20.
    + auto 20.
  - unfold joints, frame_joints, CalcJoin.reconstruct_skeleton.
    destruct (CalcJoin.estimate_spine_positions _ _ _) as [[upper mid] lower].
    destruct (CalcJoin.estimate_shoulder_positions _ _ _) as [ls rs].
    cbv zeta. repeat split; dict_lookup.
  - intros key [v Hv].
    apply lookup_union_Some_raw in Hv as [Hv | [_ Hv]].
    + left. apply (calculate_skeleton_angles_keys joints). exists v. exact Hv.
    + right. apply joint_columns_lookup in Hv as (joint & p & sfx & c & Hj & Hin & -> & _).
      exists joint, sfx, c. split; [| auto].
      apply (reconstruct_skeleton_joint_names (AnthropometricModel_init user_height)
               (d_position row) (d_orientation row)
               (p_forearmWrist l) (p_forearmWrist r) (p_forearmArm l) (p_forearmArm r)).
      eauto.
Qed.

Lemma frames_hold_joint_coordinates_witness :
  exists frames,
    calculate_skeleton_data example_device_data example_hand_data (7 / 4) = Got frames /\
    forall i f, frames !! i = Some f ->
      exists row l r,
        example_device_data !! i = Some row /\
        hand_rows example_hand_data "left" !! i = Some l /\
        hand_rows example_hand_data "right" !! i = Some r /\
        let joints := frame_joints (AnthropometricModel_init (7 / 4)) row l r in
        (forall joint, joint ∈ joint_names ->
           is_Some (f_cols f !! (joint +:+ "_x")) /\
           is_Some (f_cols f !! (joint +:+ "_y")) /\
           is_Some (f_cols f !! (joint +:+ "_z"))) /\
        (forall joint,
           coordinates_defined joints (d_orientation row)
             (p_forearmArm l) (p_forearmArm r) joint ->
           exists p, joints !! joint = Some (Some p) /\
                     f_cols f !! (joint +:+ "_x") = Some (Finite (vx p)) /\
                     f_cols f !! (joint +:+ "_y") = Some (Finite (vy p)) /\
                     f_cols f !! (joint +:+ "_z") = Some (Finite (vz p))) /\
        (joints !! "head" = Some (Some (d_position row)) /\
         joints !! "left_wrist" = Some (Some (p_forearmWrist l)) /\
         joints !! "right_wrist" = Some (Some (p_forearmWrist r)) /\
         joints !! "left_forearm" = Some (Some (p_forearmArm l)) /\
         joints !! "right_forearm" = Some (Some (p_forearmArm r))) /\
        (forall key, is_Some (f_cols f !! key) ->
           key ∈ angle_names \/
           exists joint sfx c, joint ∈ joint_names /\ (sfx, c) ∈ coordinate_suffixes /\
                               key = joint +:+ sfx).
Proof.
  destruct (calculate_skeleton_data_succeeds example_device_data example_hand_data (7 / 4))
    as [frames H]; [rewrite (proj1 example_hand_rows_lengths); cbn; lia
                   | rewrite (proj2 example_hand_rows_lengths); cbn; lia |].
  exists frames. split; [exact H |].
  exact (frames_hold_joint_coordinates example_device_data example_hand_data (7 / 4)
           frames H).
Defined.

(** A table returned by [calculate_skeleton_data] never misses an
    angle: every frame holds all five of [left_elbow_angle],
    [right_elbow_angle], [left_shoulder_angle], [right_shoulder_angle]
    and [spine_bend_angle], each either NaN (a zero-length limb) or a
    number of degrees in [0, 180]; and for a non-zero height the
    [spine_bend_angle] of every frame whose head quaternion has norm 1 is
    exactly 180, whatever the head and the hands do. *)
Theorem frames_hold_all_five_angles (device_data : list DeviceRow)
    (hand_data : list PivotRow) (user_height : R) (frames : list FrameData) :
  calculate_skeleton_data device_data hand_data user_height = Got frames ->
  forall i f, frames !! i = Some f ->
    (forall name, name ∈ angle_names ->
       exists a, f_cols f !! name = Some a /\
                 (a = NaN \/ exists x, a = Finite x /\ (0 <= x <= 180)%R)) /\
    (user_height <> 0%R ->
     forall row, device_data !! i = Some row -> quat_norm2 (d_orientation row) = 1%R ->
       f_cols f !! "spine_bend_angle" = Some (Finite 180)).
Proof.
  intros Hout i f Hf.
  destruct (calculate_skeleton_data_Got _ _ _ _ Hout) as [_ Hall].
  destruct (Hall i f Hf) as (row & l & r & Hrow & Hl & Hr & ->).
  cbn [f_cols]. split.
  - intros name Hname.
    destruct (reconstructed_angles (AnthropometricModel_init user_height)
                (d_position row) (d_orientation row)
                (p_forearmWrist l) (p_forearmWrist r) (p_forearmArm l) (p_forearmArm r)
                name Hname) as (p1 & p2 & p3 & Ha).
    exists (CalcJoin.angle_of_arrays p1 p2 p3). split.
    + apply lookup_union_Some_raw. left. exact Ha.
    + apply angle_of_arrays_range.
  - intros Hh row' Hrow' Hq. rewrite Hrow in Hrow'. injection Hrow' as <-.
    apply lookup_union_Some_raw. left. unfold frame_joints.
    apply reconstructed_spine_bend; assumption.
Qed.

Lemma frames_hold_all_five_angles_witness :
  exists frames,
    calculate_skeleton_data example_device_data example_hand_data (7 / 4) = Got frames /\
    forall i f, frames !! i = Some f ->
      (forall name, name ∈ angle_names ->
         exists a, f_cols f !! name = Some a /\
                   (a = NaN \/ exists x, a = Finite x /\ (0 <= x <= 180)%R)) /\
      ((7 / 4)%R <> 0%R ->
       forall row, example_device_data !! i = Some row ->
         quat_norm2 (d_orientation row) = 1%R ->
         f_cols f !! "spine_bend_angle" = Some (Finite 180)).
Proof.
  destruct (calculate_skeleton_data_succeeds example_device_data example_hand_data (7 / 4))
    as [frames H]; [rewrite (proj1 example_hand_rows_lengths); cbn; lia
                   | rewrite (proj2 example_hand_rows_lengths); cbn; lia |].
  exists frames. split; [exact H |].
  exact (frames_hold_all_five_angles example_device_data example_hand_data (7 / 4)
           frames H).
Defined.

(** ** Reading the hands of an organized row *)

Section HandPosition.
Implicit Types (hand_data : list (HandRow npfloat)).

Lemma df_row_present (df : DataFrame) (row : gmap string npfloat) (col : string)
    (v : npfloat) :
  row !! col = Some v -> df_row df row col = Some v.
Proof. unfold df_row. now intros ->. Qed.

Lemma df_row_absent (df : DataFrame) (row : gmap string npfloat) (col : string) :
  row !! col = None ->
  df_row df row col = None \/ df_row df row col = Some NaN.
Proof. unfold df_row. intros ->. destruct (df_has_column df col); auto. Qed.

Lemma organized_row_cells hand_data (df : list (OrganizedRow npfloat))
    (r : OrganizedRow npfloat) (hand : string) :
  load_and_organize_data hand_data = Ok df -> r ∈ df -> hand ∈ ["right"; "left"] ->
  forall col, o_cells r !! (col +:+ "_" +:+ hand) = hand_cell hand (o_t_mono r) col hand_data.
Proof.
  intros Hload Hr Hhand col.
  rewrite load_and_organize_data_outcome in Hload. cbv zeta in Hload.
  destruct (_ && _); [| discriminate]. injection Hload as <-.
  apply list_elem_of_fmap in Hr as (t & -> & _).
  destruct (organize_cells hand_data t col) as (Ht & Hright & Hleft).
  rewrite Ht.
  rewrite !elem_of_cons, elem_of_nil in Hhand.
  destruct Hhand as [-> | [-> | []]]; assumption.
Qed.

End HandPosition.

(** [get_hand_position] on a row of the organized table.  For a hand
    and a landmark, the call returns the three position cells that the
    hand reported at the timestamp of the row when its [_px] cell is a
    number, and [None] when the hand reported no row at that timestamp
    (or the [_px] cell is missing or NaN); in these cases it does not
    raise. *)
Theorem get_hand_position_on_organized_row (hand_data : list (HandRow npfloat))
    (df : list (OrganizedRow npfloat)) (r : OrganizedRow npfloat)
    (hand joint_name : string) :
  load_and_organize_data hand_data = Ok df -> r ∈ df -> hand ∈ ["right"; "left"] ->
  let row := df_row (o_cells <$> df) (o_cells r) in
  let cell c := hand_cell hand (o_t_mono r) (joint_name +:+ c) hand_data in
  (forall x y z,
     cell "_px" = Some (Finite x) -> cell "_py" = Some y -> cell "_pz" = Some z ->
     get_hand_position row hand joint_name = Ok (Some (Finite x, y, z))) /\
  (cell "_px" = None \/ cell "_px" = Some NaN ->
   get_hand_position row hand joint_name = Ok None) /\
  (last_row hand (o_t_mono r) hand_data = None ->
   get_hand_position row hand joint_name = Ok None).
Proof.
  intros Hload Hr Hhand row cell.
  pose proof (organized_row_cells hand_data df r hand Hload Hr Hhand) as Hcells.
  assert (Hnone : cell "_px" = None \/ cell "_px" = Some NaN ->
                  get_hand_position row hand joint_name = Ok None).
  { intros Hpx. unfold get_hand_position. cbv zeta.
    unfold in_index_and_notna, row.
    destruct Hpx as [Hpx | Hpx]; unfold cell in Hpx; rewrite <- Hcells in Hpx.
    - destruct (df_row_absent (o_cells <$> df) _ _ Hpx) as [-> | ->]; reflexivity.
    - now rewrite (df_row_present _ _ _ _ Hpx). }
  split; [| split; [exact Hnone |]].
  - intros x y z Hpx Hpy Hpz. unfold cell in Hpx, Hpy, Hpz.
    rewrite <- Hcells in Hpx, Hpy, Hpz.
    unfold get_hand_position. cbv zeta.
    unfold in_index_and_notna, series_getitem, row.
    rewrite (df_row_present _ _ _ _ Hpx), (df_row_present _ _ _ _ Hpy),
      (df_row_present _ _ _ _ Hpz).
    reflexivity.
  - intros Hlast. apply Hnone. left. unfold cell, hand_cell. now rewrite Hlast.
Qed.

Lemma example_hand_table_organized :
  exists r df, load_and_organize_data example_hand_table = Ok (r :: df).
Proof. eexists _, _. vm_compute. reflexivity. Qed.

Lemma get_hand_position_on_organized_row_witness :
  exists df r,
    load_and_organize_data example_hand_table = Ok df /\ r ∈ df /\
    "right" ∈ ["right"; "left"] /\
    let row := df_row (o_cells <$> df) (o_cells r) in
    let cell c := hand_cell "right" (o_t_mono r) ("forearmWrist" +:+ c) example_hand_table in
    (forall x y z,
       cell "_px" = Some (Finite x) -> cell "_py" = Some y -> cell "_pz" = Some z ->
       get_hand_position row "right" "forearmWrist" = Ok (Some (Finite x, y, z))) /\
    (cell "_px" = None \/ cell "_px" = Some NaN ->
     get_hand_position row "right" "forearmWrist" = Ok None) /\
    (last_row "right" (o_t_mono r) example_hand_table = None ->
     get_hand_position row "right" "forearmWrist" = Ok None).
Proof.
  destruct example_hand_table_organized as (r & df & Hload).
  assert (Hr : r ∈ r :: df) by apply list_elem_of_here.
  assert (Hh : "right" ∈ ["right"; "left"]) by apply list_elem_of_here.
  exists (r :: df), r. split; [exact Hload |]. split; [exact Hr |]. split; [exact Hh |].
  exact (get_hand_position_on_organized_row example_hand_table (r :: df) r
           "right" "forearmWrist" Hload Hr Hh).
Defined.

(** ** From the frame written by calc_body.py to the joint read by the viewer *)

Section OutputRow.

Lemma for_each_preserves {A S : Type} (P : S -> S -> Prop) (body : A -> S -> result S)
    (l : list A) :
  (forall s, P s s) -> (forall s1 s2 s3, P s1 s2 -> P s2 s3 -> P s1 s3) ->
  (forall a s s', a ∈ l -> body a s = Ok s' -> P s s') ->
  forall s s', for_each body l s = Ok s' -> P s s'.
Proof.
  intros Hrefl Htrans. induction l as [| a l IH]; intros Hbody s s' H.
  - injection H as <-. apply Hrefl.
  - cbn in H. destruct (body a s) as [s1 | e] eqn:E; [| discriminate]. cbn in H.
    apply (Htrans _ s1).
    + apply (Hbody a); [apply list_elem_of_here | exact E].
    + apply IH; [| exact H]. intros a' t t' Ha'. apply Hbody. now apply list_elem_of_further.
Qed.

(** The keys a finger joint of a hand is written under. *)
Lemma finger_stmt_other (hand_row : Series) (hand joint : string)
    (row row' : gmap string npfloat) (key : string) :
  finger_stmt hand_row hand joint row = Ok row' ->
  (forall src dst, (src, dst) ∈ finger_fields -> key <> (hand +:+ "_" +:+ joint) +:+ dst) ->
  row' !! key = row !! key.
Proof.
  unfold finger_stmt. cbv zeta. intros H Hkey.
  destruct (in_index_and_notna _ _); [| now injection H as <-].
  revert H.
  apply (for_each_preserves (fun s s' : gmap string npfloat => s' !! key = s !! key));
    [reflexivity | intros s1 s2 s3 H12 H23; now rewrite H23 |].
  intros [src dst] s s' Hin Hbody.
  destruct (series_getitem hand_row _) as [v | e]; [| discriminate].
  cbn in Hbody. injection Hbody as <-.
  apply lookup_insert_ne. intros Heq. now apply (Hkey src dst Hin).
Qed.

(** The coordinate keys of the body joints, and the keys the finger loop
    can write. *)
Lemma body_key_not_finger_key (joint sfx : string) (c : vec3 -> R)
    (hand fj src dst : string) :
  joint ∈ body_joint_names -> (sfx, c) ∈ coordinate_suffixes ->
  hand ∈ ["right"; "left"] -> fj ∈ finger_joints -> (src, dst) ∈ finger_fields ->
  joint +:+ sfx <> (hand +:+ "_" +:+ fj) +:+ dst.
Proof.
  intros Hj Hs Hh Hf Hd.
  assert (Hsfx : sfx ∈ ["_x"; "_y"; "_z"]).
  { unfold coordinate_suffixes in Hs. rewrite !elem_of_cons, elem_of_nil in Hs.
    rewrite !elem_of_cons.
    destruct Hs as [[= -> _] | [[= -> _] | [[= -> _] | []]]]; auto. }
  assert (Hdst : dst ∈ finger_fields.*2) by (apply (list_elem_of_fmap_2 snd _ _ Hd)).
  clear Hs Hd.
  assert (Hall : Forall (fun j => Forall (fun s => Forall (fun h => Forall (fun f =>
            Forall (fun d => j +:+ s <> (h +:+ "_" +:+ f) +:+ d) finger_fields.*2)
            finger_joints) ["right"; "left"]) ["_x"; "_y"; "_z"]) body_joint_names).
  { refine (bool_decide_unpack _ _). vm_compute. exact I. }
  rewrite Forall_forall in Hall. specialize (Hall _ Hj).
  rewrite Forall_forall in Hall. specialize (Hall _ Hsfx).
  rewrite Forall_forall in Hall. specialize (Hall _ Hh).
  rewrite Forall_forall in Hall. specialize (Hall _ Hf).
  rewrite Forall_forall in Hall. exact (Hall _ Hdst).
Qed.

Lemma body_key_not_head_q (joint sfx : string) (c : vec3 -> R) :
  joint ∈ body_joint_names -> (sfx, c) ∈ coordinate_suffixes ->
  joint +:+ sfx ∉ ["head_qx"; "head_qy"; "head_qz"; "head_qw"].
Proof.
  intros Hj Hs.
  assert (Hsfx : sfx ∈ ["_x"; "_y"; "_z"]).
  { unfold coordinate_suffixes in Hs. rewrite !elem_of_cons, elem_of_nil in Hs.
    rewrite !elem_of_cons.
    destruct Hs as [[= -> _] | [[= -> _] | [[= -> _] | []]]]; auto. }
  assert (Hall : Forall (fun j => Forall (fun s =>
            j +:+ s ∉ ["head_qx"; "head_qy"; "head_qz"; "head_qw"])
            ["_x"; "_y"; "_z"]) body_joint_names).
  { refine (bool_decide_unpack _ _). vm_compute. exact I. }
  rewrite Forall_forall in Hall. specialize (Hall _ Hj).
  rewrite Forall_forall in Hall. exact (Hall _ Hsfx).
Qed.

(** The coordinate columns of the body joints are those written by the
    first loop: the head orientation and the finger joints are written
    under other keys. *)
Lemma output_row_body_columns (hand_row : Series) (skeleton : CalcBody.UpperBodySkeleton)
    (q : quat) (row : gmap string npfloat) (joint sfx : string) (c : vec3 -> R) :
  output_row hand_row skeleton q = Ok row ->
  joint ∈ body_joint_names -> (sfx, c) ∈ coordinate_suffixes ->
  row !! (joint +:+ sfx) = joint_columns (get_all_joints skeleton) !! (joint +:+ sfx).
Proof.
  intros Hrow Hj Hs. unfold output_row in Hrow. cbv zeta in Hrow.
  pose proof (body_key_not_head_q joint sfx c Hj Hs) as Hq.
  rewrite !elem_of_cons, elem_of_nil in Hq.
  transitivity
    ((<["head_qw" := Finite (qw q)]>
      (<["head_qz" := Finite (qz q)]>
      (<["head_qy" := Finite (qy q)]>
      (<["head_qx" := Finite (qx q)]> (joint_columns (get_all_joints skeleton))))))
     !! (joint +:+ sfx)).
  - revert Hrow.
    apply (for_each_preserves
             (fun s s' : gmap string npfloat => s' !! (joint +:+ sfx) = s !! (joint +:+ sfx)));
      [reflexivity | intros s1 s2 s3 H12 H23; now rewrite H23 |].
    intros hand s s' Hhand.
    apply (for_each_preserves
             (fun s s' : gmap string npfloat => s' !! (joint +:+ sfx) = s !! (joint +:+ sfx)));
      [reflexivity | intros s1 s2 s3 H12 H23; now rewrite H23 |].
    intros fj t t' Hfj Hstmt.
    apply (finger_stmt_other _ _ _ _ _ _ Hstmt).
    intros src dst Hd. now apply (body_key_not_finger_key joint sfx c hand fj src dst).
  - rewrite !lookup_insert_ne by (intros E; apply Hq; rewrite <- E; auto 10). reflexivity.
Qed.

Lemma get_all_joints_names (skeleton : CalcBody.UpperBodySkeleton) (joint : string) :
  joint ∈ body_joint_names -> exists v, get_all_joints skeleton !! joint = Some v.
Proof.
  unfold body_joint_names. rewrite !elem_of_cons, elem_of_nil. intros H.
  unfold get_all_joints.
  repeat (destruct H as [-> | H]; [eexists; dict_lookup |]). destruct H.
Qed.

(** The coordinate column of a joint holds the coordinate when the joint
    has a position and is not written when the joint is [None]. *)
Lemma joint_columns_of_joint (joints : gmap string pyvec) (joint sfx : string)
    (c : vec3 -> R) (v : pyvec) :
  joints !! joint = Some v -> (sfx, c) ∈ coordinate_suffixes ->
  joint_columns joints !! (joint +:+ sfx) = (fun p => Finite (c p)) <$> v.
Proof.
  intros Hv Hs. destruct v as [p |]; cbn [fmap option_fmap option_map].
  - apply joint_columns_lookup. exists joint, p, sfx, c. auto.
  - destruct (joint_columns joints !! (joint +:+ sfx)) as [x |] eqn:E; [| reflexivity].
    apply joint_columns_lookup in E as (j' & p & sfx' & c' & Hj' & Hs' & Heq & _).
    destruct (coordinate_key_inj _ _ _ _ _ _ Hs Hs' Heq) as [<- _]. congruence.
Qed.

End OutputRow.

(** The viewer reads back the body joints that [main] wrote.  On a row of
    any table that contains the row written for a frame,
    [get_joint_position] returns, for each of the eleven joints of
    [get_all_joints], the position the skeleton of the frame has for the
    joint, and [None] for a joint the skeleton does not have (an elbow or
    a wrist of a hand that did not report), whether or not other frames
    of the table have the joint. *)
Theorem viewer_reads_back_body_joints (df : DataFrame) (hand_row : Series)
    (skeleton : CalcBody.UpperBodySkeleton) (head_orientation : quat)
    (row : gmap string npfloat) :
  output_row hand_row skeleton head_orientation = Ok row ->
  forall joint, joint ∈ body_joint_names ->
    exists v, get_all_joints skeleton !! joint = Some v /\
              Viewer.get_joint_position (df_row df row) joint = Ok (array_of_vec3 <$> v).
Proof.
  intros Hrow joint Hj.
  destruct (get_all_joints_names skeleton joint Hj) as [v Hv].
  exists v. split; [exact Hv |].
  destruct suffixes_mem as (Hx & Hy & Hz).
  pose proof (output_row_body_columns _ _ _ _ joint "_x" vx Hrow Hj Hx) as Ex.
  pose proof (output_row_body_columns _ _ _ _ joint "_y" vy Hrow Hj Hy) as Ey.
  pose proof (output_row_body_columns _ _ _ _ joint "_z" vz Hrow Hj Hz) as Ez.
  rewrite (joint_columns_of_joint _ _ _ _ _ Hv Hx) in Ex.
  rewrite (joint_columns_of_joint _ _ _ _ _ Hv Hy) in Ey.
  rewrite (joint_columns_of_joint _ _ _ _ _ Hv Hz) in Ez.
  unfold Viewer.get_joint_position. cbv zeta.
  unfold in_index_and_notna, series_getitem.
  destruct v as [p |]; cbn [fmap option_fmap option_map] in *.
  - rewrite (df_row_present _ _ _ _ Ex), (df_row_present _ _ _ _ Ey),
      (df_row_present _ _ _ _ Ez). reflexivity.
  - destruct (df_row_absent df _ _ Ex) as [-> | ->]; reflexivity.
Qed.

Lemma example_output_row :
  exists row, output_row example_finger_row example_skeleton (mkQuat 0 0 0 1) = Ok row.
Proof. eexists. unfold output_row. cbv zeta. 
  cbn [for_each finger_joints mbind result_bind].
  unfold finger_stmt.
  repeat match goal with
       | |- context [in_index_and_notna example_finger_row ?k] =>
           let b := eval vm_compute in (in_index_and_notna example_finger_row k) in
           change (in_index_and_notna example_finger_row k) with b
        end.
  cbv iota. cbn [for_each finger_fields mbind result_bind].
  repeat match goal with
       | |- context [series_getitem example_finger_row ?k] =>
           let b := eval vm_compute in (series_getitem example_finger_row k) in
           change (series_getitem example_finger_row k) with b
        end.
  cbn [mbind result_bind]. reflexivity.
Qed.

Lemma viewer_reads_back_body_joints_witness :
  exists row,
    output_row example_finger_row example_skeleton (mkQuat 0 0 0 1) = Ok row /\
    forall joint, joint ∈ body_joint_names ->
      exists v, get_all_joints example_skeleton !! joint = Some v /\
                Viewer.get_joint_position (df_row [row] row) joint =
                Ok (array_of_vec3 <$> v).
Proof.
  destruct example_output_row as [row H].
  exists row. split; [exact H |].
  exact (viewer_reads_back_body_joints [row] example_finger_row example_skeleton
           (mkQuat 0 0 0 1) row H).
Defined.

(** ** The finger joints of a frame *)

Section FingerColumns.

Lemma string_app_prefix_inj (a x y : string) : a +:+ x = a +:+ y -> x = y.
Proof.
  induction a as [| c a IH]; [now rewrite !string_app_nil |].
  rewrite !string_app_cons. intros [= H]. now apply IH.
Qed.

(** A statement of the loop that is run for the element [a0] establishes
    [Q]; the other statements keep it. *)
Lemma for_each_establishes {A S : Type} `{!EqDecision A} (Q : S -> Prop)
    (body : A -> S -> result S) (l : list A) (a0 : A) :
  (forall s s', body a0 s = Ok s' -> Q s') ->
  (forall a s s', a ∈ l -> a <> a0 -> body a s = Ok s' -> Q s -> Q s') ->
  a0 ∈ l -> forall s s', for_each body l s = Ok s' -> Q s'.
Proof.
  intros Hest Hkeep. induction l as [| a l IH]; intros Hin s s' H;
    [by apply elem_of_nil in Hin |].
  cbn in H. destruct (body a s) as [s1 | e] eqn:E; [| discriminate]. cbn in H.
  destruct (decide (a0 ∈ l)) as [Hl | Hl].
  - apply (IH (fun a' t t' Ha' => Hkeep a' t t' (list_elem_of_further _ _ _ Ha')) Hl s1 s' H).
  - apply elem_of_cons in Hin as [-> | Hin]; [| contradiction].
    assert (Q s1) as Hs1 by (apply (Hest s); exact E).
    revert Hs1. generalize H.
    apply (for_each_preserves (fun t t' => Q t -> Q t'));
      [auto | auto |].
    intros a' t t' Ha' Hb. apply (Hkeep a' t t'); [now apply list_elem_of_further | | exact Hb].
    intros ->. contradiction.
Qed.

Lemma finger_key_inj (h h' f f' d d' : string) :
  h ∈ ["right"; "left"] -> h' ∈ ["right"; "left"] ->
  f ∈ finger_joints -> f' ∈ finger_joints ->
  d ∈ finger_fields.*2 -> d' ∈ finger_fields.*2 ->
  (h +:+ "_" +:+ f) +:+ d = (h' +:+ "_" +:+ f') +:+ d' -> h = h' /\ f = f' /\ d = d'.
Proof.
  intros Hh Hh' Hf Hf' Hd Hd'.
  assert (Hall :
    Forall (fun h => Forall (fun h' => Forall (fun f => Forall (fun f' =>
      Forall (fun d => Forall (fun d' =>
        (h +:+ "_" +:+ f) +:+ d = (h' +:+ "_" +:+ f') +:+ d' -> h = h' /\ f = f' /\ d = d')
      finger_fields.*2) finger_fields.*2) finger_joints) finger_joints)
      ["right"; "left"]) ["right"; "left"]).
  { refine (bool_decide_unpack _ _). vm_compute. exact I. }
  rewrite Forall_forall in Hall. specialize (Hall _ Hh).
  rewrite Forall_forall in Hall. specialize (Hall _ Hh').
  rewrite Forall_forall in Hall. specialize (Hall _ Hf).
  rewrite Forall_forall in Hall. specialize (Hall _ Hf').
  rewrite Forall_forall in Hall. specialize (Hall _ Hd).
  rewrite Forall_forall in Hall. exact (Hall _ Hd').
Qed.

Lemma head_q_not_finger_key (h f d : string) :
  h ∈ ["right"; "left"] -> f ∈ finger_joints -> d ∈ finger_fields.*2 ->
  (h +:+ "_" +:+ f) +:+ d ∉ ["head_qx"; "head_qy"; "head_qz"; "head_qw"].
Proof.
  intros Hh Hf Hd.
  assert (Hall : Forall (fun h => Forall (fun f => Forall (fun d =>
            (h +:+ "_" +:+ f) +:+ d ∉ ["head_qx"; "head_qy"; "head_qz"; "head_qw"])
            finger_fields.*2) finger_joints) ["right"; "left"]).
  { refine (bool_decide_unpack _ _). vm_compute. exact I. }
  rewrite Forall_forall in Hall. specialize (Hall _ Hh).
  rewrite Forall_forall in Hall. specialize (Hall _ Hf).
  rewrite Forall_forall in Hall. exact (Hall _ Hd).
Qed.

Lemma get_all_joints_keys (skeleton : CalcBody.UpperBodySkeleton) (joint : string)
    (v : pyvec) :
  get_all_joints skeleton !! joint = Some v -> joint ∈ body_joint_names.
Proof.
  unfold get_all_joints. intros H.
  repeat (apply lookup_insert_Some in H as [[<- _] | [_ H]];
          [unfold body_joint_names; rewrite !elem_of_cons; auto 20 |]).
  rewrite lookup_empty in H. discriminate.
Qed.

(** Before the finger loop the row has no finger key. *)
Lemma no_finger_key_before (skeleton : CalcBody.UpperBodySkeleton) (q : quat)
    (h f d : string) :
  h ∈ ["right"; "left"] -> f ∈ finger_joints -> d ∈ finger_fields.*2 ->
  (<["head_qw" := Finite (qw q)]>
   (<["head_qz" := Finite (qz q)]>
   (<["head_qy" := Finite (qy q)]>
   (<["head_qx" := Finite (qx q)]> (joint_columns (get_all_joints skeleton))))))
  !! ((h +:+ "_" +:+ f) +:+ d) = None.
Proof.
  intros Hh Hf Hd.
  pose proof (head_q_not_finger_key h f d Hh Hf Hd) as Hq.
  rewrite !elem_of_cons, elem_of_nil in Hq.
  rewrite !lookup_insert_ne by (intros E; apply Hq; rewrite <- E; auto 10).
  destruct (joint_columns _ !! _) as [v |] eqn:E; [| reflexivity].
  exfalso.
  apply joint_columns_lookup in E as (joint & p & sfx & c & Hj & Hs & Heq & _).
  apply get_all_joints_keys in Hj.
  apply list_elem_of_fmap in Hd as ([src d'] & -> & Hd).
  symmetry in Heq. revert Heq.
  now apply (body_key_not_finger_key joint sfx c h f src d').
Qed.

(** What the statement of a finger joint writes under the three
    coordinate keys. *)
Lemma finger_stmt_written (hand_row : Series) (hand fj : string)
    (row row' : gmap string npfloat) :
  finger_stmt hand_row hand fj row = Ok row' ->
  in_index_and_notna hand_row ((fj +:+ "_px") +:+ "_" +:+ hand) = true ->
  exists x y z,
    hand_row ((fj +:+ "_px") +:+ "_" +:+ hand) = Some x /\
    hand_row ((fj +:+ "_py") +:+ "_" +:+ hand) = Some y /\
    hand_row ((fj +:+ "_pz") +:+ "_" +:+ hand) = Some z /\
    row' !! ((hand +:+ "_" +:+ fj) +:+ "_x") = Some x /\
    row' !! ((hand +:+ "_" +:+ fj) +:+ "_y") = Some y /\
    row' !! ((hand +:+ "_" +:+ fj) +:+ "_z") = Some z.
Proof.
  unfold finger_stmt. cbv zeta. intros H Hpx. rewrite Hpx in H.
  unfold finger_fields, series_getitem in H. cbn [for_each] in H.
  destruct (hand_row ((fj +:+ "_px") +:+ "_" +:+ hand)) as [x |]; [| discriminate].
  destruct (hand_row ((fj +:+ "_py") +:+ "_" +:+ hand)) as [y |]; [| discriminate].
  destruct (hand_row ((fj +:+ "_pz") +:+ "_" +:+ hand)) as [z |]; [| discriminate].
  destruct (hand_row ((fj +:+ "_qx") +:+ "_" +:+ hand)) as [a |]; [| discriminate].
  destruct (hand_row ((fj +:+ "_qy") +:+ "_" +:+ hand)) as [b |]; [| discriminate].
  destruct (hand_row ((fj +:+ "_qz") +:+ "_" +:+ hand)) as [c |]; [| discriminate].
  destruct (hand_row ((fj +:+ "_qw") +:+ "_" +:+ hand)) as [d |]; [| discriminate].
  cbn in H. injection H as <-.
  exists x, y, z. repeat split;
    repeat (rewrite lookup_insert_ne
              by (intros E; apply string_app_prefix_inj in E; discriminate));
    apply lookup_insert_eq.
Qed.

Lemma finger_stmt_skipped (hand_row : Series) (hand fj : string)
    (row row' : gmap string npfloat) :
  finger_stmt hand_row hand fj row = Ok row' ->
  in_index_and_notna hand_row ((fj +:+ "_px") +:+ "_" +:+ hand) = false ->
  row' = row.
Proof.
  unfold finger_stmt. cbv zeta. intros H Hpx. rewrite Hpx in H. now injection H.
Qed.

(** The statement of another finger joint or another hand leaves the
    keys of this one alone. *)
Lemma finger_stmt_other_joint (hand_row : Series) (h f h' f' d : string)
    (row row' : gmap string npfloat) :
  h ∈ ["right"; "left"] -> h' ∈ ["right"; "left"] ->
  f ∈ finger_joints -> f' ∈ finger_joints -> d ∈ finger_fields.*2 ->
  (h', f') <> (h, f) ->
  finger_stmt hand_row h' f' row = Ok row' ->
  row' !! ((h +:+ "_" +:+ f) +:+ d) = row !! ((h +:+ "_" +:+ f) +:+ d).
Proof.
  intros Hh Hh' Hf Hf' Hd Hne Hstmt.
  apply (finger_stmt_other _ _ _ _ _ _ Hstmt).
  intros src d' Hd' Heq.
  apply (list_elem_of_fmap_2 snd) in Hd'. cbn [snd] in Hd'.
  destruct (finger_key_inj _ _ _ _ _ _ Hh Hh' Hf Hf' Hd Hd' Heq) as (-> & -> & _).
  now apply Hne.
Qed.

(** After the finger loop, a property of the keys of one finger joint
    that its statement establishes and that holds of the row before the
    loop when the statement is skipped. *)
Lemma output_row_finger (hand_row : Series) (skeleton : CalcBody.UpperBodySkeleton)
    (q : quat) (row : gmap string npfloat) (hand fj : string) :
  output_row hand_row skeleton q = Ok row ->
  hand ∈ ["right"; "left"] -> fj ∈ finger_joints ->
  if in_index_and_notna hand_row ((fj +:+ "_px") +:+ "_" +:+ hand) then
    exists x y z,
      hand_row ((fj +:+ "_px") +:+ "_" +:+ hand) = Some x /\
      hand_row ((fj +:+ "_py") +:+ "_" +:+ hand) = Some y /\
      hand_row ((fj +:+ "_pz") +:+ "_" +:+ hand) = Some z /\
      row !! ((hand +:+ "_" +:+ fj) +:+ "_x") = Some x /\
      row !! ((hand +:+ "_" +:+ fj) +:+ "_y") = Some y /\
      row !! ((hand +:+ "_" +:+ fj) +:+ "_z") = Some z
  else row !! ((hand +:+ "_" +:+ fj) +:+ "_x") = None.
Proof.
  intros Hrow Hh Hf. unfold output_row in Hrow. cbv zeta in Hrow.
  set (row0 := <["head_qw" := _]> _) in Hrow.
  assert (Hx : "_x" ∈ finger_fields.*2) by (cbn; rewrite !elem_of_cons; auto 10).
  assert (Hy : "_y" ∈ finger_fields.*2) by (cbn; rewrite !elem_of_cons; auto 10).
  assert (Hz : "_z" ∈ finger_fields.*2) by (cbn; rewrite !elem_of_cons; auto 10).
  destruct (in_index_and_notna hand_row ((fj +:+ "_px") +:+ "_" +:+ hand)) eqn:Hpx.
  - set (Q := fun r : gmap string npfloat =>
          exists x y z,
            hand_row ((fj +:+ "_px") +:+ "_" +:+ hand) = Some x /\
            hand_row ((fj +:+ "_py") +:+ "_" +:+ hand) = Some y /\
            hand_row ((fj +:+ "_pz") +:+ "_" +:+ hand) = Some z /\
            r !! ((hand +:+ "_" +:+ fj) +:+ "_x") = Some x /\
            r !! ((hand +:+ "_" +:+ fj) +:+ "_y") = Some y /\
            r !! ((hand +:+ "_" +:+ fj) +:+ "_z") = Some z).
    change (Q row).
    assert (Hkeep : forall h' f' r r',
              h' ∈ ["right"; "left"] -> f' ∈ finger_joints -> (h', f') <> (hand, fj) ->
              finger_stmt hand_row h' f' r = Ok r' -> Q r -> Q r').
    { intros h' f' r r' Hh' Hf' Hne Hstmt (x & y & z & H1 & H2 & H3 & H4 & H5 & H6).
      exists x, y, z.
      rewrite (finger_stmt_other_joint _ _ _ _ _ "_x" _ _ Hh Hh' Hf Hf' Hx Hne Hstmt),
        (finger_stmt_other_joint _ _ _ _ _ "_y" _ _ Hh Hh' Hf Hf' Hy Hne Hstmt),
        (finger_stmt_other_joint _ _ _ _ _ "_z" _ _ Hh Hh' Hf Hf' Hz Hne Hstmt).
      auto 10. }
    revert Hrow. apply (for_each_establishes Q _ _ hand); [| | exact Hh].
    + intros s s'. apply (for_each_establishes Q _ _ fj); [| | exact Hf].
      * intros t t' Hstmt. exact (finger_stmt_written _ _ _ _ _ Hstmt Hpx).
      * intros f' t t' Hf' Hne. apply Hkeep; auto. congruence.
    + intros h' s s' Hh' Hne.
      apply (for_each_preserves (fun t t' => Q t -> Q t')); [auto | auto |].
      intros f' t t' Hf'. apply Hkeep; auto. congruence.
  - assert (H0 : row0 !! ((hand +:+ "_" +:+ fj) +:+ "_x") = None)
      by (apply no_finger_key_before; assumption).
    rewrite <- H0. revert Hrow.
    apply (for_each_preserves
             (fun s s' : gmap string npfloat =>
                s' !! ((hand +:+ "_" +:+ fj) +:+ "_x") = s !! ((hand +:+ "_" +:+ fj) +:+ "_x")));
      [reflexivity | intros s1 s2 s3 H12 H23; now rewrite H23 |].
    intros h' s s' Hh'.
    apply (for_each_preserves
             (fun s s' : gmap string npfloat =>
                s' !! ((hand +:+ "_" +:+ fj) +:+ "_x") = s !! ((hand +:+ "_" +:+ fj) +:+ "_x")));
      [reflexivity | intros s1 s2 s3 H12 H23; now rewrite H23 |].
    intros f' t t' Hf' Hstmt.
    destruct (decide ((h', f') = (hand, fj))) as [[= -> ->] | Hne].
    + now rewrite (finger_stmt_skipped _ _ _ _ _ Hstmt Hpx).
    + exact (finger_stmt_other_joint _ _ _ _ _ "_x" _ _ Hh Hh' Hf Hf' Hx Hne Hstmt).
Qed.

End FingerColumns.

(** The viewer reads back the finger joints as [get_hand_position] reads
    them from the organized row: for each hand and finger joint,
    [get_joint_position] on the written row, under the name
    [<hand>_<joint>], gives what [get_hand_position] gives on the
    organized row the frame was built from, the three position cells
    when the [_px] cell is a number and [None] otherwise. *)
Theorem viewer_reads_back_finger_joints (df : DataFrame) (hand_row : Series)
    (skeleton : CalcBody.UpperBodySkeleton) (head_orientation : quat)
    (row : gmap string npfloat) :
  output_row hand_row skeleton head_orientation = Ok row ->
  forall hand joint, hand ∈ ["right"; "left"] -> joint ∈ finger_joints ->
    Viewer.get_joint_position (df_row df row) (hand +:+ "_" +:+ joint) =
    get_hand_position hand_row hand joint.
Proof.
  intros Hrow hand fj Hh Hf.
  pose proof (output_row_finger _ _ _ _ hand fj Hrow Hh Hf) as H.
  unfold Viewer.get_joint_position, get_hand_position. cbv zeta.
  destruct (in_index_and_notna hand_row _) eqn:Hpx.
  - destruct H as (x & y & z & H1 & H2 & H3 & H4 & H5 & H6).
    unfold in_index_and_notna in Hpx |- *. unfold series_getitem.
    rewrite H1 in Hpx. rewrite H1, H2, H3.
    rewrite (df_row_present _ _ _ _ H4), (df_row_present _ _ _ _ H5),
      (df_row_present _ _ _ _ H6), Hpx.
    reflexivity.
  - unfold in_index_and_notna.
    destruct (df_row_absent df _ _ H) as [-> | ->]; reflexivity.
Qed.

Lemma viewer_reads_back_finger_joints_witness :
  exists row,
    output_row example_finger_row example_skeleton (mkQuat 0 0 0 1) = Ok row /\
    forall hand joint, hand ∈ ["right"; "left"] -> joint ∈ finger_joints ->
      Viewer.get_joint_position (df_row [row] row) (hand +:+ "_" +:+ joint) =
      get_hand_position example_finger_row hand joint.
Proof.
  destruct example_output_row as [row H].
  exists row. split; [exact H |].
  exact (viewer_reads_back_finger_joints [row] example_finger_row example_skeleton
           (mkQuat 0 0 0 1) row H).
Defined.

(** ** The axis limits of the viewer *)

Section AxisLimits.
Local Open Scope R_scope.
Import Viewer.

Lemma endswith_app (pre sfx : string) : endswith (pre +:+ sfx) sfx = true.
Proof.
  induction pre as [| a pre IH].
  - rewrite string_app_nil. destruct sfx; cbn; now rewrite decide_True.
  - rewrite string_app_cons. cbn. now destruct (decide _).
Qed.

Lemma endswith_inv (col sfx : string) :
  endswith col sfx = true -> exists pre, col = pre +:+ sfx.
Proof.
  induction col as [| a col IH]; cbn.
  - destruct (decide _) as [<- |]; [| discriminate]. now exists "".
  - destruct (decide _) as [<- | _]; [now exists "" |].
    intros H. destruct (IH H) as [pre ->]. now exists (String a pre).
Qed.

Lemma elem_of_axis_values (df : DataFrame) (sfx : string) (x : R) :
  x ∈ axis_values df sfx <->
  exists row col, row ∈ df /\ row !! col = Some (Finite x) /\ endswith col sfx = true.
Proof.
  unfold axis_values. rewrite list_elem_of_bind. split.
  - intros (row & Hx & Hrow). apply list_elem_of_bind in Hx as ([col v] & Hx & Hcv).
    apply elem_of_map_to_list in Hcv.
    destruct (endswith col sfx) eqn:E; [| by apply elem_of_nil in Hx].
    destruct v as [y |]; [| by apply elem_of_nil in Hx].
    apply list_elem_of_singleton in Hx as ->. eauto.
  - intros (row & col & Hrow & Hcol & E). exists row. split; [| exact Hrow].
    apply list_elem_of_bind. exists (col, Finite x). split.
    + rewrite E. apply list_elem_of_here.
    + now apply elem_of_map_to_list.
Qed.

Lemma foldl_Rmin_le (x : R) (rest : list R) :
  foldl Rmin x rest <= x /\ Forall (fun y => foldl Rmin x rest <= y) rest.
Proof.
  revert x. induction rest as [| y rest IH]; intros x; cbn.
  - split; [lra | constructor].
  - destruct (IH (Rmin x y)) as [H1 H2].
    pose proof (Rmin_l x y). pose proof (Rmin_r x y).
    split; [lra |]. constructor; [lra | exact H2].
Qed.

Lemma foldl_Rmax_ge (x : R) (rest : list R) :
  x <= foldl Rmax x rest /\ Forall (fun y => y <= foldl Rmax x rest) rest.
Proof.
  revert x. induction rest as [| y rest IH]; intros x; cbn.
  - split; [lra | constructor].
  - destruct (IH (Rmax x y)) as [H1 H2].
    pose proof (Rmax_l x y). pose proof (Rmax_r x y).
    split; [lra |]. constructor; [lra | exact H2].
Qed.

Lemma array_min_max_bounds (a : list R) (lo hi : R) :
  array_min a = Ok lo -> array_max a = Ok hi ->
  lo <= hi /\ forall x, x ∈ a -> lo <= x <= hi.
Proof.
  destruct a as [| x0 rest]; [discriminate |]. cbn. intros [= <-] [= <-].
  destruct (foldl_Rmin_le x0 rest) as [Hlo Hlos].
  destruct (foldl_Rmax_ge x0 rest) as [Hhi Hhis].
  split; [lra |]. intros x Hx.
  rewrite Forall_forall in Hlos, Hhis.
  apply elem_of_cons in Hx as [-> | Hx]; [lra |].
  split; [now apply Hlos | now apply Hhis].
Qed.

Lemma array_min_ValueError (a : list R) :
  (array_min a = Raise ValueError <-> a = []) /\
  (array_max a = Raise ValueError <-> a = []) /\
  (forall e, array_min a = Raise e -> e = ValueError) /\
  (forall e, array_max a = Raise e -> e = ValueError).
Proof.
  destruct a; cbn; repeat split; try congruence; try discriminate.
Qed.

End AxisLimits.

(** [calculate_axis_limits] returns limits exactly when each of the three
    axes has a number in some column ending in [_x], [_y], [_z], and
    raises [ValueError] otherwise (a table without rows, or whose
    coordinate cells are all NaN).  The limits of an axis are never
    degenerate, and every coordinate of every row lies inside them, at
    least the margin 0.1 away from both ends. *)
Theorem axis_limits_enclose_every_coordinate (df : DataFrame) :
  let axis_has_a_number sfx :=
    exists row col x, row ∈ df /\ row !! col = Some (Finite x) /\
                      Viewer.endswith col sfx = true in
  (axis_has_a_number "_x" /\ axis_has_a_number "_y" /\ axis_has_a_number "_z" <->
   exists limits, Viewer.calculate_axis_limits df = Ok limits) /\
  (forall e, Viewer.calculate_axis_limits df = Raise e -> e = ValueError) /\
  (forall x_limits y_limits z_limits,
     Viewer.calculate_axis_limits df = Ok (x_limits, y_limits, z_limits) ->
     (x_limits.1 < x_limits.2 /\ y_limits.1 < y_limits.2 /\ z_limits.1 < z_limits.2)%R /\
     forall row name v, row ∈ df ->
       (row !! (name +:+ "_x") = Some (Finite v) ->
        (x_limits.1 + 1 / 10 <= v <= x_limits.2 - 1 / 10)%R) /\
       (row !! (name +:+ "_y") = Some (Finite v) ->
        (y_limits.1 + 1 / 10 <= v <= y_limits.2 - 1 / 10)%R) /\
       (row !! (name +:+ "_z") = Some (Finite v) ->
        (z_limits.1 + 1 / 10 <= v <= z_limits.2 - 1 / 10)%R)).
Proof.
  intros axis_has_a_number.
  assert (Hhas : forall sfx, axis_has_a_number sfx <-> Viewer.axis_values df sfx <> []).
  { intros sfx. unfold axis_has_a_number. split.
    - intros (row & col & x & H) Hnil.
      assert (Hx : x ∈ Viewer.axis_values df sfx)
        by (apply elem_of_axis_values; eauto).
      rewrite Hnil in Hx. by apply elem_of_nil in Hx.
    - intros Hne. destruct (Viewer.axis_values df sfx) as [| x rest] eqn:E; [done |].
      assert (Hx : x ∈ Viewer.axis_values df sfx) by (rewrite E; apply list_elem_of_here).
      apply elem_of_axis_values in Hx as (row & col & Hx). eauto. }
  unfold Viewer.calculate_axis_limits. cbv zeta.
  split; [| split].
  - rewrite !Hhas.
    destruct (Viewer.axis_values df "_x") as [| x xs];
      [split; [intros [H _]; congruence | intros [l H]; discriminate] |].
    destruct (Viewer.axis_values df "_y") as [| y ys];
      [split; [intros (_ & H & _); congruence | intros [l H]; discriminate] |].
    destruct (Viewer.axis_values df "_z") as [| z zs];
      [split; [intros (_ & _ & H); congruence | intros [l H]; discriminate] |].
    split; [intros _; eexists; reflexivity | intros _; repeat split; discriminate].
  - intros e.
    destruct (Viewer.axis_values df "_x") as [| x xs]; [now intros [= <-] |].
    destruct (Viewer.axis_values df "_y") as [| y ys]; [now intros [= <-] |].
    destruct (Viewer.axis_values df "_z") as [| z zs]; [now intros [= <-] |].
    discriminate.
  - intros x_limits y_limits z_limits H.
    pose proof (array_min_max_bounds (Viewer.axis_values df "_x")) as Bx.
    pose proof (array_min_max_bounds (Viewer.axis_values df "_y")) as By.
    pose proof (array_min_max_bounds (Viewer.axis_values df "_z")) as Bz.
    destruct (Viewer.array_min (Viewer.axis_values df "_x")) as [x_lo | ?]; [| discriminate].
    destruct (Viewer.array_max (Viewer.axis_values df "_x")) as [x_hi | ?]; [| discriminate].
    destruct (Viewer.array_min (Viewer.axis_values df "_y")) as [y_lo | ?]; [| discriminate].
    destruct (Viewer.array_max (Viewer.axis_values df "_y")) as [y_hi | ?]; [| discriminate].
    destruct (Viewer.array_min (Viewer.axis_values df "_z")) as [z_lo | ?]; [| discriminate].
    destruct (Viewer.array_max (Viewer.axis_values df "_z")) as [z_hi | ?]; [| discriminate].
    cbn in H. injection H as <- <- <-. cbn [fst snd].
    destruct (Bx _ _ eq_refl eq_refl) as [Hx Hxs].
    destruct (By _ _ eq_refl eq_refl) as [Hy Hys].
    destruct (Bz _ _ eq_refl eq_refl) as [Hz Hzs].
    split; [lra |].
    intros row name v Hrow.
    split; [| split]; intros Hv.
    + assert (Hin : v ∈ Viewer.axis_values df "_x")
        by (apply elem_of_axis_values; exists row, (name +:+ "_x");
            auto using endswith_app).
      specialize (Hxs v Hin). lra.
    + assert (Hin : v ∈ Viewer.axis_values df "_y")
        by (apply elem_of_axis_values; exists row, (name +:+ "_y");
            auto using endswith_app).
      specialize (Hys v Hin). lra.
    + assert (Hin : v ∈ Viewer.axis_values df "_z")
        by (apply elem_of_axis_values; exists row, (name +:+ "_z");
            auto using endswith_app).
      specialize (Hzs v Hin). lra.
Qed.

(** ** The two scripts against each other *)

(** On the same frame with all four hand landmarks present, the
    dictionary of [SkeletonCalculator.reconstruct_skeleton] and the
    skeleton of [calc_body.reconstruct_skeleton] agree on the head, the
    spine, the shoulders and the wrists, and on the elbow of a side
    whenever the forearm landmark of that side is at least [1e-6] away
    from the shoulder.  Nearer than that, [calc_body] puts the elbow at
    the shoulder plus [(0, 0, upper_arm_length)], a branch the other
    script does not have. *)
Theorem scripts_agree_on_a_frame (m : AnthropometricModel) (head_pos : vec3)
    (head_quat : quat) (lw rw lf rf : vec3) :
  let s := CalcBody.reconstruct_skeleton head_pos head_quat
             (Some lw) (Some rw) (Some lf) (Some rf) m in
  let joints := CalcJoin.reconstruct_skeleton m head_pos head_quat lw rw lf rf in
  (forall joint, joint ∈ body_joint_names -> joint ∉ ["left_elbow"; "right_elbow"] ->
     joints !! joint = get_all_joints s !! joint) /\
  exists l r,
    CalcBody.left_shoulder s = Some l /\ CalcBody.right_shoulder s = Some r /\
    ((CalcBody.eps <= norm (vsub lf l))%R ->
     joints !! "left_elbow" = get_all_joints s !! "left_elbow") /\
    ((CalcBody.eps <= norm (vsub rf r))%R ->
     joints !! "right_elbow" = get_all_joints s !! "right_elbow") /\
    ((norm (vsub lf l) < CalcBody.eps)%R ->
     CalcBody.left_elbow s = Some (vadd l (mk3 0 0 (upper_arm_length m)))) /\
    ((norm (vsub rf r) < CalcBody.eps)%R ->
     CalcBody.right_elbow s = Some (vadd r (mk3 0 0 (upper_arm_length m)))).
Proof.
  cbv zeta.
  unfold CalcJoin.reconstruct_skeleton, CalcBody.reconstruct_skeleton.
  change (CalcJoin.estimate_neck_position m head_pos head_quat)
    with (CalcBody.estimate_neck_position head_pos head_quat m).
  rewrite CalcJoin_spine_same.
  destruct (CalcBody.estimate_spine_positions _ _ _) as [[upper mid] lower].
  change (CalcJoin.estimate_shoulder_positions m upper head_quat)
    with (CalcBody.estimate_shoulder_positions upper head_quat m).
  destruct (CalcBody.estimate_shoulder_positions _ _ _) as [l r].
  cbv zeta. unfold get_all_joints.
  cbn [CalcBody.head CalcBody.neck CalcBody.upper_spine CalcBody.mid_spine
       CalcBody.lower_spine CalcBody.left_shoulder CalcBody.right_shoulder
       CalcBody.left_elbow CalcBody.right_elbow CalcBody.left_wrist CalcBody.right_wrist].
  split.
  - intros joint Hj Hne. unfold body_joint_names in Hj.
    rewrite !elem_of_cons in Hj. rewrite !elem_of_cons in Hne.
    repeat (destruct Hj as [-> | Hj];
            [first [exfalso; apply Hne; auto 10; fail
                   | repeat first [rewrite lookup_insert_eq
                                  | rewrite lookup_insert_ne by discriminate];
                     reflexivity] |]).
    by apply elem_of_nil in Hj.
  - exists l, r. split; [reflexivity |]. split; [reflexivity |].
    unfold CalcBody.estimate_elbow_position, CalcJoin.estimate_elbow_position. cbv zeta.
    split; [| split; [| split]]; intros H.
    + repeat first [rewrite lookup_insert_eq | rewrite lookup_insert_ne by discriminate].
      destruct (Rlt_dec _ _); [lra | reflexivity].
    + repeat first [rewrite lookup_insert_eq | rewrite lookup_insert_ne by discriminate].
      destruct (Rlt_dec _ _); [lra | reflexivity].
    + destruct (Rlt_dec _ _); [reflexivity | lra].
    + destruct (Rlt_dec _ _); [reflexivity | lra].
Qed.
